(** * Agent transcript parsers and agent registry: a shallow embedding

    The development follows the TypeScript sources
      - [src/providers/codexParser.ts]  ([processCodexLine]),
      - [src/providers/cursorParser.ts] ([processCursorLine]),
      - [src/agentManager.ts]           ([launchNewTerminal], [removeAgent],
                                         [persistAgents], [restoreAgents],
                                         [sendExistingAgents],
                                         [sendCurrentAgentStatuses]),
      - [src/providers/registry.ts]     ([registerProvider], [getProvider],
                                         [getAllProviders],
                                         [inferProviderFromPath]),
      - the provider objects of [claudeProvider.ts], [codexProvider.ts] and
        [cursorProvider.ts], and [dispose] of the view provider.

    How the program is read:
      - a JavaScript string is its sequence of UTF-16 code units; [Set] and
        [Map] keep insertion order;
      - a record is what [JSON.parse] returns for a line, and a field cast
        [as string] is read at that type: as the program reads it when the
        field is absent or holds a string, [null] or [false] ([string_typed]);
        statements that depend on the value of such a field are made for
        lines whose fields are of that kind ([typed_line]);
      - numbers are natural numbers, as the counters of the program are
        up to [MAX_SAFE_INTEGER];
      - a parser is a function from the agent it is handed to the agent it
        leaves, together with the trace of its calls to the webview, to
        [setTimeout] and to the timer manager, in program order;
      - what the environment answers during a call ([crypto.randomUUID],
        [Date.now], [Math.random]) is an argument of the call;
      - [constants.ts], [timerManager.ts] and [fileWatcher.ts] are not among
        the sources: constants are parameters, the timer manager is a
        parameter with the properties the specification states, and calls
        into the file watcher are recorded in the trace. *)

From Stdlib Require Import String Ascii NArith Lia Bool.
From Stdlib Require DecimalN.
From stdpp Require Import base option list numbers sorting.

#[local] Set Warnings "-register-all".
Local Open Scope N_scope.

(* ================================================================== *)
(** ** JavaScript strings *)

(** A string is its list of UTF-16 code units. *)
Abbreviation jsstring := (list N).

(** An ASCII literal, read as code units. *)
Definition str (s : string) : jsstring :=
  map N_of_ascii (list_ascii_of_string s).

(** [a === b] on strings. *)
Definition streq (a b : jsstring) : bool := bool_decide (a = b).

(** [s.length] *)
Definition js_length (s : jsstring) : nat := length s.

(** [s.slice(i, j)] for [0 <= i <= j]. *)
Definition js_slice (i j : nat) (s : jsstring) : jsstring :=
  take (j - i) (drop i s).

(** A string is falsy exactly when it is empty. *)
Definition truthy (s : jsstring) : bool :=
  match s with [] => false | _ => true end.

(** [a || b] on strings. *)
Definition or_else (a b : jsstring) : jsstring :=
  if truthy a then a else b.

Definition digit_unit (d : N) : N := 48 + d.

Fixpoint uint_units (u : Decimal.uint) : jsstring :=
  match u with
  | Decimal.Nil => []
  | Decimal.D0 r => digit_unit 0 :: uint_units r
  | Decimal.D1 r => digit_unit 1 :: uint_units r
  | Decimal.D2 r => digit_unit 2 :: uint_units r
  | Decimal.D3 r => digit_unit 3 :: uint_units r
  | Decimal.D4 r => digit_unit 4 :: uint_units r
  | Decimal.D5 r => digit_unit 5 :: uint_units r
  | Decimal.D6 r => digit_unit 6 :: uint_units r
  | Decimal.D7 r => digit_unit 7 :: uint_units r
  | Decimal.D8 r => digit_unit 8 :: uint_units r
  | Decimal.D9 r => digit_unit 9 :: uint_units r
  end.

(** [`${n}`] for a non-negative integer [n]. *)
Definition decimal (n : N) : jsstring := uint_units (N.to_uint n).

(* ================================================================== *)
(** ** Insertion-ordered [Set] and [Map] *)

Module JsSet.
Section Defs.
Context {K : Type} `{EqDecision K}.

Definition has (k : K) (s : list K) : bool := bool_decide (k ∈ s).

(** [s.add(k)]: a new element goes last, a present one stays in place. *)
Definition add (k : K) (s : list K) : list K :=
  if has k s then s else s ++ [k].

(** [s.delete(k)] *)
Definition delete (k : K) (s : list K) : list K :=
  filter (λ x, x ≠ k) s.

Definition size (s : list K) : nat := length s.
End Defs.
End JsSet.

Module JsMap.
Section Defs.
Context {K V : Type} `{EqDecision K}.

Definition keys (m : list (K * V)) : list K := m.*1.

Fixpoint get (k : K) (m : list (K * V)) : option V :=
  match m with
  | [] => None
  | (k', v) :: r => if decide (k' = k) then Some v else get k r
  end.

(** [m.set(k, v)]: a present key keeps its position, a new one goes last. *)
Fixpoint set (k : K) (v : V) (m : list (K * V)) : list (K * V) :=
  match m with
  | [] => [(k, v)]
  | (k', v') :: r =>
      if decide (k' = k) then (k, v) :: r else (k', v') :: set k v r
  end.

(** [m.delete(k)] *)
Definition delete (k : K) (m : list (K * V)) : list (K * V) :=
  filter (λ e, e.1 ≠ k) m.

(** [m.values()] *)
Definition values (m : list (K * V)) : list V := m.*2.

(** Keys of a [Map] are pairwise distinct. *)
Definition wf (m : list (K * V)) : Prop := NoDup (keys m).
End Defs.
End JsMap.

(* ================================================================== *)
(** ** [JSON.parse] *)

Inductive json : Type :=
| JNull
| JBool (b : bool)
| JNumber (lexeme : jsstring)
| JString (s : jsstring)
| JArray (items : list json)
| JObject (members : list (jsstring * json)).

Module Json.

Inductive result (A : Type) : Type :=
| Parsed (a : A) (rest : jsstring)
| SyntaxError
| OutOfFuel.
Arguments Parsed {A} a rest.
Arguments SyntaxError {A}.
Arguments OutOfFuel {A}.

Definition QUOTE : N := 34.
Definition BACKSLASH : N := 92.
Definition LBRACE : N := 123.
Definition RBRACE : N := 125.
Definition LBRACKET : N := 91.
Definition RBRACKET : N := 93.
Definition COLON : N := 58.
Definition COMMA : N := 44.

(** JSON white space: tab, line feed, carriage return, space. *)
Definition is_ws (c : N) : bool :=
  (c =? 9) || (c =? 10) || (c =? 13) || (c =? 32).

Fixpoint skip_ws (s : jsstring) : jsstring :=
  match s with
  | c :: r => if is_ws c then skip_ws r else s
  | [] => []
  end.

Definition is_digit (c : N) : bool := (48 <=? c) && (c <=? 57).

Definition hex_value (c : N) : option N :=
  if is_digit c then Some (c - 48)
  else if (97 <=? c) && (c <=? 102) then Some (c - 87)
  else if (65 <=? c) && (c <=? 70) then Some (c - 55)
  else None.

Definition hex4 (a b c d : N) : option N :=
  match hex_value a, hex_value b, hex_value c, hex_value d with
  | Some x, Some y, Some z, Some w => Some (((x * 16 + y) * 16 + z) * 16 + w)
  | _, _, _, _ => None
  end.

(** The single-character escapes of a JSON string. *)
Definition simple_escape (c : N) : option N :=
  if c =? 34 then Some 34          (* quotation mark *)
  else if c =? 92 then Some 92     (* reverse solidus *)
  else if c =? 47 then Some 47     (* solidus *)
  else if c =? 98 then Some 8      (* b: backspace *)
  else if c =? 102 then Some 12    (* f: form feed *)
  else if c =? 110 then Some 10    (* n: line feed *)
  else if c =? 114 then Some 13    (* r: carriage return *)
  else if c =? 116 then Some 9     (* t: tab *)
  else None.

(** The characters of a string literal after its opening quote; [acc]
    holds the decoded units so far, last first. *)
Fixpoint string_body (s acc : jsstring) : result jsstring :=
  match s with
  | [] => SyntaxError
  | c :: r =>
      if c =? QUOTE then Parsed (rev acc) r
      else if c =? BACKSLASH then
        match r with
        | [] => SyntaxError
        | e :: r1 =>
            if e =? 117 then
              match r1 with
              | h1 :: h2 :: h3 :: h4 :: r2 =>
                  match hex4 h1 h2 h3 h4 with
                  | Some u => string_body r2 (u :: acc)
                  | None => SyntaxError
                  end
              | _ => SyntaxError
              end
            else
              match simple_escape e with
              | Some u => string_body r1 (u :: acc)
              | None => SyntaxError
              end
        end
      else if c <? 32 then SyntaxError
      else string_body r (c :: acc)
  end.

Fixpoint span_digits (s : jsstring) : jsstring * jsstring :=
  match s with
  | c :: r =>
      if is_digit c then let '(d, t) := span_digits r in (c :: d, t)
      else ([], s)
  | [] => ([], [])
  end.

(** An optional minus sign, then a single zero or a digit string with no
    leading zero. *)
Definition number_int (s : jsstring) : option (jsstring * jsstring) :=
  let '(sign, s1) :=
    match s with
    | c :: r => if c =? 45 then ([c], r) else ([], s)
    | [] => ([], s)
    end in
  match s1 with
  | c :: r =>
      if c =? 48 then Some (sign ++ [c], r)
      else if is_digit c then
        let '(d, t) := span_digits r in Some (sign ++ c :: d, t)
      else None
  | [] => None
  end.

(** An optional fraction: a dot and at least one digit. *)
Definition number_frac (s : jsstring) : option (jsstring * jsstring) :=
  match s with
  | c :: r =>
      if c =? 46 then
        match span_digits r with
        | ([], _) => None
        | (d, t) => Some (c :: d, t)
        end
      else Some ([], s)
  | [] => Some ([], s)
  end.

(** An optional exponent: e or E, an optional sign, at least one digit. *)
Definition number_exp (s : jsstring) : option (jsstring * jsstring) :=
  match s with
  | c :: r =>
      if (c =? 101) || (c =? 69) then
        let '(sign, r1) :=
          match r with
          | g :: r' => if (g =? 43) || (g =? 45) then ([g], r') else ([], r)
          | [] => ([], r)
          end in
        match span_digits r1 with
        | ([], _) => None
        | (d, t) => Some (c :: sign ++ d, t)
        end
      else Some ([], s)
  | [] => Some ([], s)
  end.

Definition number (s : jsstring) : result json :=
  match number_int s with
  | None => SyntaxError
  | Some (i, s1) =>
      match number_frac s1 with
      | None => SyntaxError
      | Some (f, s2) =>
          match number_exp s2 with
          | None => SyntaxError
          | Some (e, s3) => Parsed (JNumber (i ++ f ++ e)) s3
          end
      end
  end.

Fixpoint strip_prefix (p s : jsstring) : option jsstring :=
  match p, s with
  | [], _ => Some s
  | a :: p', b :: s' => if a =? b then strip_prefix p' s' else None
  | _ :: _, [] => None
  end.

Definition literal (s : jsstring) : result json :=
  match strip_prefix (str "true") s with
  | Some r => Parsed (JBool true) r
  | None =>
  match strip_prefix (str "false") s with
  | Some r => Parsed (JBool false) r
  | None =>
  match strip_prefix (str "null") s with
  | Some r => Parsed JNull r
  | None => SyntaxError
  end end end.

(** Recursive descent on the JSON grammar.  [value] reads one value after
    optional white space; [elements] and [members] read the rest of an
    array or object once its first item is known to be there. *)
Fixpoint value (fuel : nat) (s : jsstring) {struct fuel} : result json :=
  match fuel with
  | O => OutOfFuel
  | S fuel' =>
      match skip_ws s with
      | [] => SyntaxError
      | c :: r =>
          if c =? LBRACE then
            match skip_ws r with
            | c' :: r' =>
                if c' =? RBRACE then Parsed (JObject []) r'
                else members fuel' (c' :: r') []
            | [] => SyntaxError
            end
          else if c =? LBRACKET then
            match skip_ws r with
            | c' :: r' =>
                if c' =? RBRACKET then Parsed (JArray []) r'
                else elements fuel' (c' :: r') []
            | [] => SyntaxError
            end
          else if c =? QUOTE then
            match string_body r [] with
            | Parsed k r' => Parsed (JString k) r'
            | SyntaxError => SyntaxError
            | OutOfFuel => OutOfFuel
            end
          else if (c =? 45) || is_digit c then number (c :: r)
          else literal (c :: r)
      end
  end
with elements (fuel : nat) (s : jsstring) (acc : list json) {struct fuel}
    : result json :=
  match fuel with
  | O => OutOfFuel
  | S fuel' =>
      match value fuel' s with
      | Parsed v r =>
          match skip_ws r with
          | c :: r' =>
              if c =? COMMA then elements fuel' r' (v :: acc)
              else if c =? RBRACKET then Parsed (JArray (rev (v :: acc))) r'
              else SyntaxError
          | [] => SyntaxError
          end
      | SyntaxError => SyntaxError
      | OutOfFuel => OutOfFuel
      end
  end
with members (fuel : nat) (s : jsstring) (acc : list (jsstring * json))
    {struct fuel} : result json :=
  match fuel with
  | O => OutOfFuel
  | S fuel' =>
      match skip_ws s with
      | q :: r =>
          if q =? QUOTE then
            match string_body r [] with
            | Parsed k r1 =>
                match skip_ws r1 with
                | c :: r2 =>
                    if c =? COLON then
                      match value fuel' r2 with
                      | Parsed v r3 =>
                          match skip_ws r3 with
                          | d :: r4 =>
                              if d =? COMMA then
                                members fuel' r4 ((k, v) :: acc)
                              else if d =? RBRACE then
                                Parsed (JObject (rev ((k, v) :: acc))) r4
                              else SyntaxError
                          | [] => SyntaxError
                          end
                      | SyntaxError => SyntaxError
                      | OutOfFuel => OutOfFuel
                      end
                    else SyntaxError
                | [] => SyntaxError
                end
            | SyntaxError => SyntaxError
            | OutOfFuel => OutOfFuel
            end
          else SyntaxError
      | [] => SyntaxError
      end
  end.

(** A result that is not [OutOfFuel] and, when a value was read, leaves less
    input than it was given. *)
Definition progress {A} (res : result A) (s : jsstring) : Prop :=
  res ≠ OutOfFuel ∧ ∀ v r, res = Parsed v r → (length r < length s)%nat.

(** [JSON.parse(text)]: [None] stands for the [SyntaxError] it throws. *)
Definition parse (text : jsstring) : option json :=
  match value (2 * length text + 2) text with
  | Parsed v r => match skip_ws r with [] => Some v | _ => None end
  | _ => None
  end.

End Json.

(** A double-quoted JSON string literal with an ASCII body. *)
Definition quoted (s : string) : jsstring := [34] ++ str s ++ [34].

(** [record.key]: an own property of a parsed object.  When a key occurs
    twice in the text, [JSON.parse] keeps the later value.  Arrays, strings,
    numbers and booleans have none of the properties read below. *)
Definition prop (record : json) (key : string) : option json :=
  match record with
  | JObject members => JsMap.get (str key) (rev members)
  | _ => None
  end.

(** [(record.key as string)].  The cast is unchecked; the embedding follows
    the declared type: a JSON string is read as it is, and an absent field,
    or one holding any other value, is read as the empty (falsy) string.
    The program does the same with a string, with an absent field and with
    the falsy values [null] and [false] ([string_typed] below).  With any
    other value it goes on with the value itself, or throws a [TypeError]
    that the [catch] clause of the parser swallows: [as_string] does not
    describe those runs. *)
Definition as_string (v : option json) : jsstring :=
  match v with
  | Some (JString s) => s
  | _ => []
  end.

(** The values a field may hold for [as_string] to read it as the program
    does: none, a string, [null] or [false]. *)
Definition string_typed (v : option json) : bool :=
  match v with
  | None | Some (JString _) | Some JNull | Some (JBool false) => true
  | Some _ => false
  end.

(* ================================================================== *)
(** ** Data model ([types.ts], [providerTypes.ts]) *)

Inductive ProviderId : Type := claude | codex | cursor.

#[global] Instance ProviderId_eq_dec : EqDecision ProviderId.
Proof. solve_decision. Defined.

(** [vscode.Terminal]: the registry only reads its name. *)
Record Terminal : Type := { terminal_name : jsstring }.

Record AgentState : Type := {
  agent_id : N;
  provider : ProviderId;
  terminalRef : option Terminal;
  projectDir : jsstring;
  jsonlFile : jsstring;
  fileOffset : N;
  lineBuffer : jsstring;
  activeToolIds : list jsstring;
  activeToolStatuses : list (jsstring * jsstring);
  activeToolNames : list (jsstring * jsstring);
  activeSubagentToolIds : list (jsstring * list jsstring);
  activeSubagentToolNames : list (jsstring * list (jsstring * jsstring));
  isWaiting : bool;
  permissionSent : bool;
  hadToolsInTurn : bool;
}.

(** Assignments to the fields of an agent. *)
Definition set_tools (ids : list jsstring) (statuses names : list (jsstring * jsstring))
    (a : AgentState) : AgentState :=
  {| agent_id := agent_id a; provider := provider a; terminalRef := terminalRef a;
     projectDir := projectDir a; jsonlFile := jsonlFile a;
     fileOffset := fileOffset a; lineBuffer := lineBuffer a;
     activeToolIds := ids; activeToolStatuses := statuses; activeToolNames := names;
     activeSubagentToolIds := activeSubagentToolIds a;
     activeSubagentToolNames := activeSubagentToolNames a;
     isWaiting := isWaiting a; permissionSent := permissionSent a;
     hadToolsInTurn := hadToolsInTurn a |}.

Definition clear_subagent_tools (a : AgentState) : AgentState :=
  {| agent_id := agent_id a; provider := provider a; terminalRef := terminalRef a;
     projectDir := projectDir a; jsonlFile := jsonlFile a;
     fileOffset := fileOffset a; lineBuffer := lineBuffer a;
     activeToolIds := activeToolIds a; activeToolStatuses := activeToolStatuses a;
     activeToolNames := activeToolNames a;
     activeSubagentToolIds := []; activeSubagentToolNames := [];
     isWaiting := isWaiting a; permissionSent := permissionSent a;
     hadToolsInTurn := hadToolsInTurn a |}.

Definition set_isWaiting (b : bool) (a : AgentState) : AgentState :=
  {| agent_id := agent_id a; provider := provider a; terminalRef := terminalRef a;
     projectDir := projectDir a; jsonlFile := jsonlFile a;
     fileOffset := fileOffset a; lineBuffer := lineBuffer a;
     activeToolIds := activeToolIds a; activeToolStatuses := activeToolStatuses a;
     activeToolNames := activeToolNames a;
     activeSubagentToolIds := activeSubagentToolIds a;
     activeSubagentToolNames := activeSubagentToolNames a;
     isWaiting := b; permissionSent := permissionSent a;
     hadToolsInTurn := hadToolsInTurn a |}.

Definition set_permissionSent (b : bool) (a : AgentState) : AgentState :=
  {| agent_id := agent_id a; provider := provider a; terminalRef := terminalRef a;
     projectDir := projectDir a; jsonlFile := jsonlFile a;
     fileOffset := fileOffset a; lineBuffer := lineBuffer a;
     activeToolIds := activeToolIds a; activeToolStatuses := activeToolStatuses a;
     activeToolNames := activeToolNames a;
     activeSubagentToolIds := activeSubagentToolIds a;
     activeSubagentToolNames := activeSubagentToolNames a;
     isWaiting := isWaiting a; permissionSent := b;
     hadToolsInTurn := hadToolsInTurn a |}.

Definition set_hadToolsInTurn (b : bool) (a : AgentState) : AgentState :=
  {| agent_id := agent_id a; provider := provider a; terminalRef := terminalRef a;
     projectDir := projectDir a; jsonlFile := jsonlFile a;
     fileOffset := fileOffset a; lineBuffer := lineBuffer a;
     activeToolIds := activeToolIds a; activeToolStatuses := activeToolStatuses a;
     activeToolNames := activeToolNames a;
     activeSubagentToolIds := activeSubagentToolIds a;
     activeSubagentToolNames := activeSubagentToolNames a;
     isWaiting := isWaiting a; permissionSent := permissionSent a;
     hadToolsInTurn := b |}.

Definition set_fileOffset (n : N) (a : AgentState) : AgentState :=
  {| agent_id := agent_id a; provider := provider a; terminalRef := terminalRef a;
     projectDir := projectDir a; jsonlFile := jsonlFile a;
     fileOffset := n; lineBuffer := lineBuffer a;
     activeToolIds := activeToolIds a; activeToolStatuses := activeToolStatuses a;
     activeToolNames := activeToolNames a;
     activeSubagentToolIds := activeSubagentToolIds a;
     activeSubagentToolNames := activeSubagentToolNames a;
     isWaiting := isWaiting a; permissionSent := permissionSent a;
     hadToolsInTurn := hadToolsInTurn a |}.

(** The three [clear()] calls on the tool collections, followed by the two on
    the sub-agent collections. *)
Definition clear_tool_tracking (a : AgentState) : AgentState :=
  clear_subagent_tools (set_tools [] [] [] a).

(** [agent.activeToolIds.add(toolId); agent.activeToolStatuses.set(toolId,
    status); agent.activeToolNames.set(toolId, toolName)] *)
Definition track_tool (toolId status toolName : jsstring) (a : AgentState)
    : AgentState :=
  set_tools (JsSet.add toolId (activeToolIds a))
            (JsMap.set toolId status (activeToolStatuses a))
            (JsMap.set toolId toolName (activeToolNames a)) a.

(** The three [delete(toolId)] calls. *)
Definition untrack_tool (toolId : jsstring) (a : AgentState) : AgentState :=
  set_tools (JsSet.delete toolId (activeToolIds a))
            (JsMap.delete toolId (activeToolStatuses a))
            (JsMap.delete toolId (activeToolNames a)) a.

(** Messages accepted by the webview sink. *)
Inductive Status : Type := active | waiting.

Inductive Message : Type :=
| agentCreated (id : N)
| agentStatus (id : N) (status : Status)
| agentToolStart (id : N) (toolId status : jsstring)
| agentToolDone (id : N) (toolId : jsstring)
| agentToolsClear (id : N)
| agentToolPermission (id : N)
| agentClosed (id : N).

(** Runtime objects returned by [setTimeout], [setInterval] and [fs.watch]. *)
Abbreviation Handle := N.

(** [PersistedAgent]: the snapshot kept in the workspace state. *)
Module PersistedAgent.
Record t : Type := {
  id : N;
  provider : option ProviderId;
  terminalName : jsstring;
  jsonlFile : jsstring;
  projectDir : jsstring;
}.
End PersistedAgent.

(** Calls that leave the modelled modules, in program order.
    - [PostMessage m]: [m] is handed to the attached webview;
    - [SetTimeout ms m]: [setTimeout(() => ctx.webview?.postMessage(m), ms)],
      whose callback looks for the webview when it fires;
    - [CancelWaitingTimer], [StartWaitingTimer], [CancelPermissionTimer],
      [StartPermissionTimer]: the parsers' calls into the timer manager,
      which acts on the timer maps the context hands it;
    - [ClearTimeout], [ClearInterval], [CloseWatcher], [SetIntervalPoll]:
      calls on runtime objects;
    - [StartFileWatching], [EnsureProjectScan]: calls into the file watcher;
    - [WorkspaceUpdate]: [context.workspaceState.update]. *)
Inductive Effect : Type :=
| PostMessage (m : Message)
| SetTimeout (ms : N) (m : Message)
| CancelWaitingTimer (agentId : N)
| StartWaitingTimer (agentId : N) (delayMs : N)
| CancelPermissionTimer (agentId : N)
| StartPermissionTimer (agentId : N) (exempt : list jsstring)
| ClearTimeout (h : Handle)
| ClearInterval (h : Handle)
| CloseWatcher (h : Handle)
| SetIntervalPoll (h : Handle) (ms : N) (agentId : N)
| StartFileWatching (agentId : N) (filePath : jsstring)
| EnsureProjectScan (dir : jsstring)
| WorkspaceUpdate (persisted : list PersistedAgent.t).

(** [vscode.Webview], the sink of the status messages. *)
Abbreviation Webview := N.

(** [TranscriptContext].  Its [agents], [waitingTimers] and
    [permissionTimers] are only handed on to the timer manager, whose calls
    are written to the trace; the parsers themselves read [webview]. *)
Record TranscriptContext : Type := {
  webview : option Webview;
}.

(** [webview?.postMessage(m)]: nothing is sent while no webview is
    attached. *)
Definition post (w : option Webview) (m : Message) : list Effect :=
  match w with
  | Some _ => [PostMessage m]
  | None => []
  end.

(** The messages a trace sends to the webview, immediate or deferred, in the
    order of the calls; calls to the timer manager are left out. *)
Definition is_event (e : Effect) : bool :=
  match e with
  | PostMessage _ | SetTimeout _ _ => true
  | _ => false
  end.

Definition events (tr : list Effect) : list Effect :=
  List.filter is_event tr.

(** [constants.ts] is not among the sources; its values are parameters. *)
Class Constants : Type := {
  TOOL_DONE_DELAY_MS : N;
  TEXT_IDLE_DELAY_MS : N;
  BASH_COMMAND_DISPLAY_MAX_LENGTH : nat;
  JSONL_POLL_INTERVAL_MS : N;
}.

(** [path.basename] of Node depends on the host platform. *)
Class NodePath : Type := {
  path_basename : jsstring -> jsstring;
}.

(** What the environment answers while one line is processed. *)
Record Env : Type := {
  crypto_randomUUID : jsstring;       (* [crypto.randomUUID()] *)
  Date_now : N;                       (* [Date.now()] *)
  Math_random_36 : jsstring;          (* [Math.random().toString(36)] *)
}.

(* ================================================================== *)
(** ** Timer manager ([timerManager.ts]) *)

(** The three tool collections of an agent are empty. *)
Definition tools_empty (a : AgentState) : Prop :=
  activeToolIds a = [] ∧ activeToolStatuses a = [] ∧ activeToolNames a = [].

(** The timer maps of the registry: agent id to pending timer. *)
Abbreviation Timers := (list (N * Handle)).

(** Modelled from the spec: [clearAgentActivity], [cancelWaitingTimer] and
    [cancelPermissionTimer] of [timerManager.ts], which is not among the
    sources.  They are parameters of the development, with what the
    specification says of them:
    - the Turn-start row of the transition table reads "cancel idle timer;
      clear all active-tool tracking + emit a tools-cleared event;
      [hadToolsInTurn = false]; emit status = active", and
      [clearAgentActivity] is the call between [cancelWaitingTimer] and the
      assignment to [hadToolsInTurn]: it leaves the tool collections empty;
    - timers are "arm/cancel operations against a per-agent timer slot":
      cancelling stops the pending timer of the agent and empties its slot
      ("cancels every timer/watch for [id], deletes it from every map"). *)
Class TimerManager : Type := {
  clearAgentActivity :
    AgentState -> N -> option Webview -> AgentState * list Effect;
  cancelWaitingTimer : N -> Timers -> Timers * list Effect;
  cancelPermissionTimer : N -> Timers -> Timers * list Effect;
  clearAgentActivity_clears : forall agent agentId w,
    tools_empty (clearAgentActivity agent agentId w).1;
  cancelWaitingTimer_frees : forall agentId timers,
    JsMap.get agentId (cancelWaitingTimer agentId timers).1 = None;
  cancelWaitingTimer_stops : forall agentId timers h,
    JsMap.get agentId timers = Some h ->
    ClearTimeout h ∈ (cancelWaitingTimer agentId timers).2;
  cancelPermissionTimer_frees : forall agentId timers,
    JsMap.get agentId (cancelPermissionTimer agentId timers).1 = None;
  cancelPermissionTimer_stops : forall agentId timers h,
    JsMap.get agentId timers = Some h ->
    ClearTimeout h ∈ (cancelPermissionTimer agentId timers).2;
}.

(* ================================================================== *)
(** ** Codex transcript parser ([providers/codexParser.ts]) *)

Section Parsers.
Context {consts : Constants} {nodepath : NodePath} {timers : TimerManager}.

Definition CODEX_PERMISSION_EXEMPT : list jsstring := [].

(** The command of a shell tool, cut to the display length. *)
Definition display_command (cmd : jsstring) : jsstring :=
  if (BASH_COMMAND_DISPLAY_MAX_LENGTH <? js_length cmd)%nat
  then js_slice 0 BASH_COMMAND_DISPLAY_MAX_LENGTH cmd ++ [8230]
  else cmd.

(** [formatCodexToolStatus], for a [command] that is [string_typed]: the
    length test and [slice] are those of a string. *)
Definition formatCodexToolStatus (eventType : jsstring) (record : json)
    : jsstring :=
  if streq eventType (str "ExecCommandBegin") then
    let cmd := or_else (as_string (prop record "command")) [] in
    str "Running: " ++ display_command cmd
  else str "Using " ++ eventType.

(** The body of the [try] block once [JSON.parse] has returned a value
    other than [null]. *)
Definition processCodexRecord (env : Env) (agentId : N) (record : json)
    (agent : AgentState) (ctx : TranscriptContext) : AgentState * list Effect :=
  let eventType := as_string (prop record "type") in
  if negb (truthy eventType) then (agent, [])
  else if streq eventType (str "TurnStarted") then
    let '(agent, cleared) := clearAgentActivity agent agentId (webview ctx) in
    let agent := set_hadToolsInTurn false agent in
    (agent,
     [CancelWaitingTimer agentId] ++ cleared
       ++ post (webview ctx) (agentStatus agentId active))
  else if streq eventType (str "TurnEnded") then
    let '(agent, cleared) :=
      if (0 <? JsSet.size (activeToolIds agent))%nat
      then (clear_tool_tracking agent, post (webview ctx) (agentToolsClear agentId))
      else (agent, []) in
    let agent := set_isWaiting true agent in
    let agent := set_permissionSent false agent in
    let agent := set_hadToolsInTurn false agent in
    (agent,
     [CancelWaitingTimer agentId; CancelPermissionTimer agentId] ++ cleared
       ++ post (webview ctx) (agentStatus agentId waiting))
  else if streq eventType (str "ExecCommandBegin") then
    let toolId := or_else (as_string (prop record "id")) (crypto_randomUUID env) in
    let status := formatCodexToolStatus (str "ExecCommandBegin") record in
    let agent := track_tool toolId status (str "shell") agent in
    let agent := set_hadToolsInTurn true agent in
    let agent := set_isWaiting false agent in
    (agent,
     post (webview ctx) (agentStatus agentId active)
       ++ post (webview ctx) (agentToolStart agentId toolId status)
       ++ [StartPermissionTimer agentId CODEX_PERMISSION_EXEMPT])
  else if streq eventType (str "ExecCommandEnd") then
    let toolId := as_string (prop record "id") in
    let '(agent, done) :=
      if truthy toolId && JsSet.has toolId (activeToolIds agent)
      then (untrack_tool toolId agent,
            [SetTimeout TOOL_DONE_DELAY_MS (agentToolDone agentId toolId)])
      else (agent, []) in
    let agent :=
      if (JsSet.size (activeToolIds agent) =? 0)%nat
      then set_hadToolsInTurn false agent else agent in
    (agent, done)
  else if streq eventType (str "ExecOutputDelta") then
    let parentId := as_string (prop record "exec_id") in
    if truthy parentId && JsSet.has parentId (activeToolIds agent)
    then (agent, [StartPermissionTimer agentId CODEX_PERMISSION_EXEMPT])
    else (agent, [])
  else if streq eventType (str "ApprovalRequest") then
    let agent := set_permissionSent true agent in
    (agent, post (webview ctx) (agentToolPermission agentId))
  else if streq eventType (str "AgentMessageDelta") then
    if negb (hadToolsInTurn agent)
    then (agent, [StartWaitingTimer agentId TEXT_IDLE_DELAY_MS])
    else (agent, [])
  else if streq eventType (str "UserMessage") then
    let '(agent, cleared) := clearAgentActivity agent agentId (webview ctx) in
    let agent := set_hadToolsInTurn false agent in
    (agent, [CancelWaitingTimer agentId] ++ cleared)
  else (agent, []).

(** [processCodexLine].  A [SyntaxError] of [JSON.parse], and the
    [TypeError] of reading [record.type] off [null], are caught by the
    [catch] clause before anything else has run. *)
Definition processCodexLine (env : Env) (agentId : N) (line : jsstring)
    (agent : AgentState) (ctx : TranscriptContext) : AgentState * list Effect :=
  match Json.parse line with
  | None => (agent, [])
  | Some JNull => (agent, [])
  | Some record => processCodexRecord env agentId record agent ctx
  end.

(* ================================================================== *)
(** ** Cursor hooks parser ([providers/cursorParser.ts]) *)

Definition CURSOR_PERMISSION_EXEMPT : list jsstring := [].

(** [formatCursorStatus], for fields that are [string_typed]:
    [path.basename] is handed a string and returns one. *)
Definition formatCursorStatus (event : jsstring) (record : json) : jsstring :=
  if streq event (str "beforeShellExecution") then
    let cmd := or_else (as_string (prop record "command")) [] in
    str "Running: " ++ display_command cmd
  else if streq event (str "beforeReadFile") then
    str "Reading "
      ++ path_basename (or_else (as_string (prop record "file_path")) [])
  else if streq event (str "afterFileEdit") then
    str "Editing "
      ++ path_basename (or_else (as_string (prop record "file_path")) [])
  else if streq event (str "beforeMCPExecution") then
    str "MCP: " ++ or_else (as_string (prop record "tool_name")) (str "tool")
  else str "Using " ++ event.

Definition generateToolId (env : Env) : jsstring :=
  str "cursor-" ++ decimal (Date_now env) ++ str "-"
    ++ js_slice 2 6 (Math_random_36 env).

(** The [for ... of agent.activeToolNames] loop: the first entry, in
    insertion order, whose tool name is [matchType]. *)
Fixpoint findToolByName (matchType : jsstring)
    (names : list (jsstring * jsstring)) : option jsstring :=
  match names with
  | [] => None
  | (toolId, toolName) :: rest =>
      if streq toolName matchType then Some toolId
      else findToolByName matchType rest
  end.

Definition processCursorRecord (env : Env) (agentId : N) (record : json)
    (agent : AgentState) (ctx : TranscriptContext) : AgentState * list Effect :=
  let event := as_string (prop record "type") in
  if negb (truthy event) then (agent, [])
  else if streq event (str "beforeSubmitPrompt") then
    let '(agent, cleared) := clearAgentActivity agent agentId (webview ctx) in
    let agent := set_hadToolsInTurn false agent in
    (agent,
     [CancelWaitingTimer agentId] ++ cleared
       ++ post (webview ctx) (agentStatus agentId active))
  else if streq event (str "afterAgentResponse") || streq event (str "stop") then
    let '(agent, cleared) :=
      if (0 <? JsSet.size (activeToolIds agent))%nat
      then (clear_tool_tracking agent, post (webview ctx) (agentToolsClear agentId))
      else (agent, []) in
    let agent := set_isWaiting true agent in
    let agent := set_permissionSent false agent in
    let agent := set_hadToolsInTurn false agent in
    (agent,
     [CancelWaitingTimer agentId; CancelPermissionTimer agentId] ++ cleared
       ++ post (webview ctx) (agentStatus agentId waiting))
  else if streq event (str "beforeShellExecution")
          || streq event (str "beforeReadFile")
          || streq event (str "beforeMCPExecution") then
    let toolId := generateToolId env in
    let status := formatCursorStatus event record in
    let toolName :=
      if streq event (str "beforeShellExecution") then str "Bash"
      else if streq event (str "beforeReadFile") then str "Read"
      else str "MCP" in
    let agent := track_tool toolId status toolName agent in
    let agent := set_hadToolsInTurn true agent in
    let agent := set_isWaiting false agent in
    (agent,
     post (webview ctx) (agentStatus agentId active)
       ++ post (webview ctx) (agentToolStart agentId toolId status)
       ++ [StartPermissionTimer agentId CURSOR_PERMISSION_EXEMPT])
  else if streq event (str "afterShellExecution")
          || streq event (str "afterFileEdit")
          || streq event (str "afterMCPExecution") then
    let matchType :=
      if streq event (str "afterShellExecution") then str "Bash"
      else if streq event (str "afterFileEdit") then str "Read"
      else str "MCP" in
    (* [null] and the empty string are both falsy in [if (matchedToolId)] *)
    let matchedToolId :=
      default [] (findToolByName matchType (activeToolNames agent)) in
    let '(agent, out) :=
      if truthy matchedToolId then
        (untrack_tool matchedToolId agent,
         [SetTimeout TOOL_DONE_DELAY_MS (agentToolDone agentId matchedToolId)])
      else if streq event (str "afterFileEdit") then
        let toolId := generateToolId env in
        let status := formatCursorStatus event record in
        (set_hadToolsInTurn true agent,
         post (webview ctx) (agentToolStart agentId toolId status)
           ++ [SetTimeout TOOL_DONE_DELAY_MS (agentToolDone agentId toolId)])
      else (agent, []) in
    let agent :=
      if (JsSet.size (activeToolIds agent) =? 0)%nat
      then set_hadToolsInTurn false agent else agent in
    (agent, out)
  else (agent, []).

Definition processCursorLine (env : Env) (agentId : N) (line : jsstring)
    (agent : AgentState) (ctx : TranscriptContext) : AgentState * list Effect :=
  match Json.parse line with
  | None => (agent, [])
  | Some JNull => (agent, [])
  | Some record => processCursorRecord env agentId record agent ctx
  end.

(** The reader hands completed lines to a parser one at a time, in file
    order; each line comes with what the environment answers during it. *)
Fixpoint processLines
    (processLine : Env -> N -> jsstring -> AgentState -> TranscriptContext
                   -> AgentState * list Effect)
    (agentId : N) (lines : list (Env * jsstring)) (agent : AgentState)
    (ctx : TranscriptContext) : AgentState * list Effect :=
  match lines with
  | [] => (agent, [])
  | (env, line) :: rest =>
      let '(agent1, tr1) := processLine env agentId line agent ctx in
      let '(agent2, tr2) := processLines processLine agentId rest agent1 ctx in
      (agent2, tr1 ++ tr2)
  end.

End Parsers.

(* ================================================================== *)
(** ** Agent registry ([agentManager.ts], [providers/registry.ts]) *)

(** [PROVIDER_IDS] *)
Definition provider_string (p : ProviderId) : jsstring :=
  match p with
  | claude => str "claude"
  | codex => str "codex"
  | cursor => str "cursor"
  end.

(** [getProvider(id).needsTerminal], from the three provider records. *)
Definition needsTerminal (p : ProviderId) : bool :=
  match p with
  | claude => true
  | codex => true
  | cursor => false
  end.

(** The maps and counters the view provider owns and passes to every
    operation, and the workspace entry that holds the persisted agents. *)
Record Registry : Type := {
  agents : list (N * AgentState);
  fileWatchers : list (N * Handle);
  pollingTimers : list (N * Handle);
  waitingTimers : list (N * Handle);
  permissionTimers : list (N * Handle);
  jsonlPollTimers : list (N * Handle);
  knownJsonlFiles : list jsstring;
  nextAgentId : N;
  nextTerminalIndex : N;
  workspaceAgents : list PersistedAgent.t;
}.

(** The array [persistAgents] writes to the workspace state. *)
Definition persistAgents (ags : list (N * AgentState)) : list PersistedAgent.t :=
  map (λ agent : AgentState,
         {| PersistedAgent.id := agent_id agent;
            PersistedAgent.provider := Some (provider agent);
            PersistedAgent.terminalName :=
              or_else (from_option terminal_name [] (terminalRef agent))
                      (provider_string (provider agent));
            PersistedAgent.jsonlFile := jsonlFile agent;
            PersistedAgent.projectDir := projectDir agent |})
      (JsMap.values ags).

(** [if (t) { clear(t); }] for an optional runtime object. *)
Definition stop_with (clear : Handle -> Effect) (t : option Handle) : list Effect :=
  match t with
  | Some h => [clear h]
  | None => []
  end.

Definition removeAgent {timers : TimerManager} (agentId : N) (r : Registry)
    : Registry * list Effect :=
  match JsMap.get agentId (agents r) with
  | None => (r, [])
  | Some _ =>
      (* stop the JSONL poll timer *)
      let e1 := stop_with ClearInterval (JsMap.get agentId (jsonlPollTimers r)) in
      let jsonlPollTimers' := JsMap.delete agentId (jsonlPollTimers r) in
      (* stop file watching *)
      let e2 := stop_with CloseWatcher (JsMap.get agentId (fileWatchers r)) in
      let fileWatchers' := JsMap.delete agentId (fileWatchers r) in
      let e3 := stop_with ClearInterval (JsMap.get agentId (pollingTimers r)) in
      let pollingTimers' := JsMap.delete agentId (pollingTimers r) in
      (* cancel timers *)
      let '(waitingTimers', e4) := cancelWaitingTimer agentId (waitingTimers r) in
      let '(permissionTimers', e5) :=
        cancelPermissionTimer agentId (permissionTimers r) in
      (* remove from maps *)
      let agents' := JsMap.delete agentId (agents r) in
      let persisted := persistAgents agents' in
      ({| agents := agents';
          fileWatchers := fileWatchers';
          pollingTimers := pollingTimers';
          waitingTimers := waitingTimers';
          permissionTimers := permissionTimers';
          jsonlPollTimers := jsonlPollTimers';
          knownJsonlFiles := knownJsonlFiles r;
          nextAgentId := nextAgentId r;
          nextTerminalIndex := nextTerminalIndex r;
          workspaceAgents := persisted |},
       e1 ++ e2 ++ e3 ++ e4 ++ e5 ++ [WorkspaceUpdate persisted])
  end.

(** The file system as [fs.existsSync] and [fs.statSync(..).size] see it:
    the existing paths with their sizes in bytes. *)
Abbreviation FileSystem := (list (jsstring * N)).

(** [liveTerminals.find(t => t.name === name)] *)
Definition findTerminal (name : jsstring) (liveTerminals : list Terminal)
    : option Terminal :=
  List.find (λ t, streq (terminal_name t) name) liveTerminals.

Fixpoint digits_value (ds : jsstring) (acc : N) : N :=
  match ds with
  | [] => acc
  | d :: r => digits_value r (acc * 10 + (d - 48))
  end.

(** The digits that end [s] (last first in [acc]) and what precedes them,
    reading [s] from its end. *)
Fixpoint trailing_digits (rev_s acc : jsstring) : jsstring * jsstring :=
  match rev_s with
  | c :: r => if Json.is_digit c then trailing_digits r (c :: acc) else (acc, rev_s)
  | [] => (acc, [])
  end.

(** [name.match(/#(\d+)$/)] followed by [parseInt(match[1], 10)]: the
    decimal number that ends the name, when a [#] stands right before it.
    [parseInt] returns that number exactly while it is at most
    [MAX_SAFE_INTEGER]. *)
Definition terminalIndex (name : jsstring) : option N :=
  match trailing_digits (rev name) [] with
  | (d :: ds, c :: _) => if c =? 35 then Some (digits_value (d :: ds) 0) else None
  | _ => None
  end.

(** [Number.MAX_SAFE_INTEGER]: up to it, and for one step beyond, the
    numbers of the program are the natural numbers: they compare, add one,
    print and parse exactly. *)
Definition MAX_SAFE_INTEGER : N := 2 ^ 53 - 1.

(** The state of the loop over the persisted entries in [restoreAgents]. *)
Record Restoring : Type := {
  rs_agents : list (N * AgentState);
  rs_known : list jsstring;
  rs_jsonlPollTimers : list (N * Handle);
  rs_maxId : N;
  rs_maxIdx : N;
  rs_restoredProjectDir : option jsstring;
  rs_nextHandle : Handle;      (* the object the next [setInterval] returns *)
  rs_trace : list Effect;
}.

(** The [AgentState] literal built for a persisted entry. *)
Definition rehydrate (p : PersistedAgent.t) (providerId : ProviderId)
    (terminal : option Terminal) : AgentState :=
  {| agent_id := PersistedAgent.id p;
     provider := providerId;
     terminalRef := terminal;
     projectDir := PersistedAgent.projectDir p;
     jsonlFile := PersistedAgent.jsonlFile p;
     fileOffset := 0;
     lineBuffer := [];
     activeToolIds := [];
     activeToolStatuses := [];
     activeToolNames := [];
     activeSubagentToolIds := [];
     activeSubagentToolNames := [];
     isWaiting := false;
     permissionSent := false;
     hadToolsInTurn := false |}.

Section Restore.
Context {consts : Constants}.
Variable fs : FileSystem.
Variable liveTerminals : list Terminal.

(** One iteration of [for (const p of persisted)].  [agent] is the object
    stored in the map, so the later assignment to [agent.fileOffset] shows
    in the map entry. *)
Definition restoreEntry (st : Restoring) (p : PersistedAgent.t) : Restoring :=
  let providerId := default claude (PersistedAgent.provider p) in
  let found := findTerminal (PersistedAgent.terminalName p) liveTerminals in
  if needsTerminal providerId && negb (bool_decide (is_Some found)) then st
  else
    let terminal := if needsTerminal providerId then found else None in
    let agent := rehydrate p providerId terminal in
    let id := PersistedAgent.id p in
    let ags := JsMap.set id agent (rs_agents st) in
    let known := JsSet.add (PersistedAgent.jsonlFile p) (rs_known st) in
    let maxId := if rs_maxId st <? id then id else rs_maxId st in
    let maxIdx :=
      match terminalIndex (PersistedAgent.terminalName p) with
      | Some idx => if rs_maxIdx st <? idx then idx else rs_maxIdx st
      | None => rs_maxIdx st
      end in
    match JsMap.get (PersistedAgent.jsonlFile p) fs with
    | Some size =>
        (* the file exists: skip to its end and watch it *)
        {| rs_agents := JsMap.set id (set_fileOffset size agent) ags;
           rs_known := known;
           rs_jsonlPollTimers := rs_jsonlPollTimers st;
           rs_maxId := maxId; rs_maxIdx := maxIdx;
           rs_restoredProjectDir := Some (PersistedAgent.projectDir p);
           rs_nextHandle := rs_nextHandle st;
           rs_trace := rs_trace st
             ++ [StartFileWatching id (PersistedAgent.jsonlFile p)] |}
    | None =>
        (* poll for the file to appear *)
        let pollTimer := rs_nextHandle st in
        {| rs_agents := ags;
           rs_known := known;
           rs_jsonlPollTimers := JsMap.set id pollTimer (rs_jsonlPollTimers st);
           rs_maxId := maxId; rs_maxIdx := maxIdx;
           rs_restoredProjectDir := Some (PersistedAgent.projectDir p);
           rs_nextHandle := rs_nextHandle st + 1;
           rs_trace := rs_trace st
             ++ [SetIntervalPoll pollTimer JSONL_POLL_INTERVAL_MS id] |}
    end.

Definition restoreAgents (nextHandle : Handle) (r : Registry)
    : Registry * list Effect :=
  let persisted := workspaceAgents r in
  if (length persisted =? 0)%nat then (r, [])
  else
    let st := fold_left restoreEntry persisted
                {| rs_agents := agents r;
                   rs_known := knownJsonlFiles r;
                   rs_jsonlPollTimers := jsonlPollTimers r;
                   rs_maxId := 0; rs_maxIdx := 0;
                   rs_restoredProjectDir := None;
                   rs_nextHandle := nextHandle;
                   rs_trace := [] |} in
    (* advance the counters past the restored ids *)
    let nextAgentId' :=
      if nextAgentId r <=? rs_maxId st then rs_maxId st + 1 else nextAgentId r in
    let nextTerminalIndex' :=
      if nextTerminalIndex r <=? rs_maxIdx st
      then rs_maxIdx st + 1 else nextTerminalIndex r in
    (* re-persist the cleaned-up list *)
    let persisted' := persistAgents (rs_agents st) in
    let scan :=
      match rs_restoredProjectDir st with
      | Some dir => if truthy dir then [EnsureProjectScan dir] else []
      | None => []
      end in
    ({| agents := rs_agents st;
        fileWatchers := fileWatchers r;
        pollingTimers := pollingTimers r;
        waitingTimers := waitingTimers r;
        permissionTimers := permissionTimers r;
        jsonlPollTimers := rs_jsonlPollTimers st;
        knownJsonlFiles := rs_known st;
        nextAgentId := nextAgentId';
        nextTerminalIndex := nextTerminalIndex';
        workspaceAgents := persisted' |},
     rs_trace st ++ [WorkspaceUpdate persisted'] ++ scan).

End Restore.

(* ================================================================== *)
(** ** Predicates used by the statements *)

(** The event kind of a line: the [type] of the record it parses to, when
    that is a non-empty string.  Every other line is dropped by the
    parsers' structural checks. *)
Definition line_type (line : jsstring) : option jsstring :=
  match Json.parse line with
  | Some record =>
      let t := as_string (prop record "type") in
      if truthy t then Some t else None
  | None => None
  end.

(** [line.field] of the record a line parses to, read as a string. *)
Definition line_field (line : jsstring) (key : string) : jsstring :=
  match Json.parse line with
  | Some record => as_string (prop record key)
  | None => []
  end.

(** [line.field] of the record a line parses to, as [JSON.parse] returns
    it. *)
Definition line_prop (line : jsstring) (key : string) : option json :=
  match Json.parse line with
  | Some record => prop record key
  | None => None
  end.

(** The fields the parsers read besides [type]. *)
Definition payload_fields : list string :=
  ["id"; "exec_id"; "command"; "file_path"; "tool_name"]%string.

(** Every field of the line that a parser reads as a string is absent or
    holds a string, [null] or [false]: on such a line the parsers run as
    embedded here. *)
Definition typed_line (line : jsstring) : bool :=
  forallb (λ key, string_typed (line_prop line key)) payload_fields.

Definition typed_lines (lines : list (Env * jsstring)) : bool :=
  forallb (λ l, typed_line l.2) lines.

(** The key sets of [activeToolStatuses] and [activeToolNames] both equal
    the set [activeToolIds]. *)
Definition keyset_consistent (a : AgentState) : Prop :=
  (∀ k, k ∈ JsMap.keys (activeToolStatuses a) ↔ k ∈ activeToolIds a) ∧
  (∀ k, k ∈ JsMap.keys (activeToolNames a) ↔ k ∈ activeToolIds a).

(** All transient tracking of an agent is empty. *)
Definition transient_empty (a : AgentState) : Prop :=
  tools_empty a ∧
  activeSubagentToolIds a = [] ∧ activeSubagentToolNames a = [] ∧
  lineBuffer a = [] ∧
  isWaiting a = false ∧ permissionSent a = false ∧ hadToolsInTurn a = false.

(** While a tool is open, [hadToolsInTurn] is set. *)
Definition open_tools_flagged (a : AgentState) : Prop :=
  activeToolIds a ≠ [] → hadToolsInTurn a = true.

(** Tool ids are truthy: the Codex parser replaces a falsy id by a UUID and
    the Cursor parser generates ids that start with [cursor-]. *)
Definition tool_ids_truthy (a : AgentState) : Prop :=
  ∀ k, k ∈ JsMap.keys (activeToolNames a) → truthy k = true.

(** The tool kind a Cursor tool-end event is matched against. *)
Definition cursor_end_kind (event : jsstring) : option jsstring :=
  if streq event (str "afterShellExecution") then Some (str "Bash")
  else if streq event (str "afterFileEdit") then Some (str "Read")
  else if streq event (str "afterMCPExecution") then Some (str "MCP")
  else None.

Definition codex_tool_start (line : jsstring) : Prop :=
  line_type line = Some (str "ExecCommandBegin").

Definition cursor_tool_start (line : jsstring) : Prop :=
  line_type line = Some (str "beforeShellExecution") ∨
  line_type line = Some (str "beforeReadFile") ∨
  line_type line = Some (str "beforeMCPExecution").

Definition codex_tool_end (line : jsstring) : Prop :=
  line_type line = Some (str "ExecCommandEnd").

Definition cursor_tool_end (line : jsstring) : Prop :=
  line_type line = Some (str "afterShellExecution") ∨
  line_type line = Some (str "afterFileEdit") ∨
  line_type line = Some (str "afterMCPExecution").

Definition codex_turn_end (line : jsstring) : Prop :=
  line_type line = Some (str "TurnEnded").

Definition cursor_turn_end (line : jsstring) : Prop :=
  line_type line = Some (str "afterAgentResponse") ∨
  line_type line = Some (str "stop").

(** A persisted entry is restored when its provider needs no terminal or a
    live terminal carries its name. *)
Definition restorable (liveTerminals : list Terminal) (p : PersistedAgent.t)
    : Prop :=
  needsTerminal (default claude (PersistedAgent.provider p)) = true →
  is_Some (findTerminal (PersistedAgent.terminalName p) liveTerminals).

#[global] Instance restorable_dec liveTerminals p :
  Decision (restorable liveTerminals p).
Proof. unfold restorable. apply _. Defined.

(** The agent one iteration of the restore loop leaves in the map. *)
Definition restored_agent (fs : FileSystem) (liveTerminals : list Terminal)
    (p : PersistedAgent.t) : AgentState :=
  let providerId := default claude (PersistedAgent.provider p) in
  let terminal :=
    if needsTerminal providerId
    then findTerminal (PersistedAgent.terminalName p) liveTerminals
    else None in
  match JsMap.get (PersistedAgent.jsonlFile p) fs with
  | Some size => set_fileOffset size (rehydrate p providerId terminal)
  | None => rehydrate p providerId terminal
  end.

(** Nothing is tracked, and the offset is the size of the transcript when
    that file exists. *)
Definition at_end_of_file (fs : FileSystem) (agent : AgentState) : Prop :=
  transient_empty agent ∧
  ∀ size, JsMap.get (jsonlFile agent) fs = Some size → fileOffset agent = size.

Definition restored_at (fs : FileSystem) (id : N) (ags : list (N * AgentState))
    : Prop :=
  ∃ agent, JsMap.get id ags = Some agent ∧ at_end_of_file fs agent.

(** The transcript parsers among the sources, and [provider.processLine]
    for the two providers that own them. *)
Inductive Parser : Type := Codex | Cursor.

Definition processLine {consts : Constants} {nodepath : NodePath}
    {timers : TimerManager} (p : Parser)
    : Env -> N -> jsstring -> AgentState -> TranscriptContext
      -> AgentState * list Effect :=
  match p with
  | Codex => processCodexLine
  | Cursor => processCursorLine
  end.

Definition tool_start (p : Parser) (line : jsstring) : Prop :=
  match p with
  | Codex => codex_tool_start line
  | Cursor => cursor_tool_start line
  end.

Definition tool_end (p : Parser) (line : jsstring) : Prop :=
  match p with
  | Codex => codex_tool_end line
  | Cursor => cursor_tool_end line
  end.

Definition turn_end (p : Parser) (line : jsstring) : Prop :=
  match p with
  | Codex => codex_turn_end line
  | Cursor => cursor_turn_end line
  end.

(** A line the parsers discard: it is not valid JSON, or the value it holds
    has no non-empty string [type]. *)
Definition malformed (line : jsstring) : Prop := line_type line = None.

(* ================================================================== *)
(** ** Concrete instances for evaluation *)

#[global] Instance Status_eq_dec : EqDecision Status.
Proof. solve_decision. Defined.
#[global] Instance Message_eq_dec : EqDecision Message.
Proof. solve_decision. Defined.
#[global] Instance PersistedAgent_eq_dec : EqDecision PersistedAgent.t.
Proof. solve_decision. Defined.
#[global] Instance Effect_eq_dec : EqDecision Effect.
Proof. solve_decision. Defined.

(** Modelled from the spec: the timer manager as the specification
    describes it.  [clearAgentActivity] empties the tool tracking and posts
    the tools-cleared event; a cancel clears the pending timeout of the
    agent and deletes its slot, and "cancelling a timer that is not armed is
    a no-op". *)
Definition spec_clearAgentActivity (agent : AgentState) (agentId : N)
    (w : option Webview) : AgentState * list Effect :=
  (clear_tool_tracking agent, post w (agentToolsClear agentId)).

Definition spec_cancelTimer (agentId : N) (timers : Timers)
    : Timers * list Effect :=
  match JsMap.get agentId timers with
  | Some h => (JsMap.delete agentId timers, [ClearTimeout h])
  | None => (timers, [])
  end.

Definition spec_timer_manager : TimerManager.
Proof.
  assert (Hdel : ∀ (agentId : N) (m : Timers),
             JsMap.get agentId (JsMap.delete agentId m) = None).
  { intros agentId m. unfold JsMap.delete.
    induction m as [| [k v] m IH]; [reflexivity |].
    rewrite filter_cons. simpl. destruct (decide (k ≠ agentId)) as [Hne | _].
    - simpl. rewrite decide_False by exact Hne. exact IH.
    - exact IH. }
  refine {| clearAgentActivity := spec_clearAgentActivity;
            cancelWaitingTimer := spec_cancelTimer;
            cancelPermissionTimer := spec_cancelTimer |}.
  - intros agent agentId w. repeat split.
  - intros agentId m. unfold spec_cancelTimer.
    destruct (JsMap.get agentId m) eqn:E; simpl; [apply Hdel | exact E].
  - intros agentId m h Hh. unfold spec_cancelTimer. rewrite Hh. simpl.
    apply list_elem_of_here.
  - intros agentId m. unfold spec_cancelTimer.
    destruct (JsMap.get agentId m) eqn:E; simpl; [apply Hdel | exact E].
  - intros agentId m h Hh. unfold spec_cancelTimer. rewrite Hh. simpl.
    apply list_elem_of_here.
Defined.

Definition sample_constants : Constants :=
  {| TOOL_DONE_DELAY_MS := 300;
     TEXT_IDLE_DELAY_MS := 5000;
     BASH_COMMAND_DISPLAY_MAX_LENGTH := 30;
     JSONL_POLL_INTERVAL_MS := 1000 |}.

(** [path.posix.basename]: trailing slashes are dropped, then the part after
    the last slash is kept. *)
Fixpoint drop_slashes (s : jsstring) : jsstring :=
  match s with
  | c :: r => if c =? 47 then drop_slashes r else s
  | [] => []
  end.

Fixpoint until_slash (s : jsstring) : jsstring :=
  match s with
  | c :: r => if c =? 47 then [] else c :: until_slash r
  | [] => []
  end.

Definition posix_basename (path : jsstring) : jsstring :=
  rev (until_slash (drop_slashes (rev path))).

Definition posix_path : NodePath := {| path_basename := posix_basename |}.

(** A context with a webview attached. *)
Definition attached : TranscriptContext := {| webview := Some 1 |}.

Definition sample_env : Env :=
  {| crypto_randomUUID := str "3f2b8c1e-7a4d-4e0b-9c55-0d6a1b2c3d4e";
     Date_now := 1700000000000;
     Math_random_36 := str "0.k3x9q2m7" |}.

(** A newly launched agent: the literal of [launchNewTerminal]. *)
Definition new_agent (id : N) (providerId : ProviderId) : AgentState :=
  {| agent_id := id; provider := providerId; terminalRef := None;
     projectDir := str "/home/u/.codex/sessions"; jsonlFile := [];
     fileOffset := 0; lineBuffer := [];
     activeToolIds := []; activeToolStatuses := []; activeToolNames := [];
     activeSubagentToolIds := []; activeSubagentToolNames := [];
     isWaiting := false; permissionSent := false; hadToolsInTurn := false |}.

(** A line holding one object with the given string fields. *)
Definition field (key value : string) : jsstring :=
  quoted key ++ str ":" ++ quoted value.

Fixpoint join_fields (fields : list jsstring) : jsstring :=
  match fields with
  | [] => []
  | [f] => f
  | f :: rest => f ++ str "," ++ join_fields rest
  end.

Definition json_line (fields : list jsstring) : jsstring :=
  str "{" ++ join_fields fields ++ str "}".

Definition line_TurnStarted := json_line [field "type" "TurnStarted"].
Definition line_ExecCommandBegin_a1 :=
  json_line [field "type" "ExecCommandBegin"; field "id" "a1";
             field "command" "ls -la"].
Definition line_ExecCommandEnd_a1 :=
  json_line [field "type" "ExecCommandEnd"; field "id" "a1"].
Definition line_TurnEnded := json_line [field "type" "TurnEnded"].
Definition line_ApprovalRequest := json_line [field "type" "ApprovalRequest"].
Definition line_afterAgentResponse := json_line [field "type" "afterAgentResponse"].
Definition line_stop := json_line [field "type" "stop"].
Definition line_beforeShellExecution :=
  json_line [field "type" "beforeShellExecution"; field "command" "npm test"].
Definition line_afterShellExecution := json_line [field "type" "afterShellExecution"].
Definition line_beforeReadFile :=
  json_line [field "type" "beforeReadFile"; field "file_path" "/w/src/main.ts"].
Definition line_afterFileEdit :=
  json_line [field "type" "afterFileEdit"; field "file_path" "/w/src/main.ts"].

(** A Codex agent with the shell tool [a1] open. *)
Definition agent_running_a1 : AgentState :=
  set_hadToolsInTurn true
    (track_tool (str "a1") (str "Running: ls -la") (str "shell")
       (new_agent 1 codex)).

(** A Cursor agent with a file read and two shell commands open, started in
    that order. *)
Definition agent_three_tools : AgentState :=
  set_hadToolsInTurn true
    (track_tool (str "cursor-3-cccc") (str "Running: ls") (str "Bash")
       (track_tool (str "cursor-2-bbbb") (str "Running: npm test") (str "Bash")
          (track_tool (str "cursor-1-aaaa") (str "Reading main.ts") (str "Read")
             (new_agent 2 cursor)))).

(** The four-line scenario, each line with the environment's answers. *)
Definition scenario_lines : list (Env * jsstring) :=
  [(sample_env, line_TurnStarted);
   (sample_env, line_ExecCommandBegin_a1);
   (sample_env, line_ExecCommandEnd_a1);
   (sample_env, line_TurnEnded)].

(** The sequence of messages the four-line scenario is expected to send
    according to the specification's list of testable properties. *)
Definition claimed_scenario_events (id delay : N) : list Effect :=
  [PostMessage (agentStatus id active);
   PostMessage (agentToolStart id (str "a1") (str "Running: ls -la"));
   SetTimeout delay (agentToolDone id (str "a1"));
   PostMessage (agentToolsClear id);
   PostMessage (agentStatus id waiting)].

(** A line cut off in the middle of a record. *)
Definition line_truncated : jsstring := str "{" ++ quoted "type" ++ str ":".

(** A registry with two agents and their watchers and timers. *)
Definition sample_registry : Registry :=
  {| agents := [(1, agent_running_a1); (2, agent_three_tools)];
     fileWatchers := [(1, 11); (2, 21)];
     pollingTimers := [(1, 12); (2, 22)];
     waitingTimers := [(2, 23)];
     permissionTimers := [(1, 14)];
     jsonlPollTimers := [(1, 15)];
     knownJsonlFiles := [];
     nextAgentId := 3;
     nextTerminalIndex := 2;
     workspaceAgents := [] |}.

(** A snapshot of two agents found at a restart, the terminals that are
    still open, and the files on disk. *)
Definition persisted_codex : PersistedAgent.t :=
  {| PersistedAgent.id := 4;
     PersistedAgent.provider := Some codex;
     PersistedAgent.terminalName := str "Codex #3";
     PersistedAgent.jsonlFile := str "/home/u/.codex/sessions/s.jsonl";
     PersistedAgent.projectDir := str "/home/u/.codex/sessions" |}.

Definition persisted_cursor : PersistedAgent.t :=
  {| PersistedAgent.id := 5;
     PersistedAgent.provider := Some cursor;
     PersistedAgent.terminalName := str "cursor";
     PersistedAgent.jsonlFile := str "/w/.cursor/hooks/events.jsonl";
     PersistedAgent.projectDir := str "/w/.cursor/hooks" |}.

Definition restart_registry : Registry :=
  {| agents := []; fileWatchers := []; pollingTimers := [];
     waitingTimers := []; permissionTimers := []; jsonlPollTimers := [];
     knownJsonlFiles := []; nextAgentId := 1; nextTerminalIndex := 1;
     workspaceAgents := [persisted_codex; persisted_cursor] |}.

Definition sample_terminals : list Terminal :=
  [{| terminal_name := str "Codex #3" |}].

Definition sample_fs : FileSystem :=
  [(str "/w/.cursor/hooks/events.jsonl", 4096)].

(* ================================================================== *)
(** ** Event vocabularies of the two parsers *)

(** The event types [processCodexLine] compares [record.type] with, in the
    order of its branches. *)
Definition codex_events : list jsstring :=
  [str "TurnStarted"; str "TurnEnded"; str "ExecCommandBegin";
   str "ExecCommandEnd"; str "ExecOutputDelta"; str "ApprovalRequest";
   str "AgentMessageDelta"; str "UserMessage"].

(** The hook events [processCursorLine] compares [record.type] with. *)
Definition cursor_events : list jsstring :=
  [str "beforeSubmitPrompt"; str "afterAgentResponse"; str "stop";
   str "beforeShellExecution"; str "beforeReadFile"; str "beforeMCPExecution";
   str "afterShellExecution"; str "afterFileEdit"; str "afterMCPExecution"].

Definition handled_events (p : Parser) : list jsstring :=
  match p with
  | Codex => codex_events
  | Cursor => cursor_events
  end.

(** The tool kind a Cursor tool-start event registers, and the event that
    ends a tool of that kind. *)
Definition cursor_start_kind (event : jsstring) : option jsstring :=
  if streq event (str "beforeShellExecution") then Some (str "Bash")
  else if streq event (str "beforeReadFile") then Some (str "Read")
  else if streq event (str "beforeMCPExecution") then Some (str "MCP")
  else None.

(** The agent a message is addressed to: its [id] member. *)
Definition message_id (m : Message) : N :=
  match m with
  | agentCreated id | agentStatus id _ | agentToolStart id _ _
  | agentToolDone id _ | agentToolsClear id | agentToolPermission id
  | agentClosed id => id
  end.

(** The agent a call of a parser concerns. *)
Definition effect_agent (e : Effect) : option N :=
  match e with
  | PostMessage m | SetTimeout _ m => Some (message_id m)
  | CancelWaitingTimer id | StartWaitingTimer id _
  | CancelPermissionTimer id | StartPermissionTimer id _ => Some id
  | _ => None
  end.

(* ================================================================== *)
(** ** Provider objects ([providers/claudeProvider.ts],
       [providers/codexProvider.ts], [providers/cursorProvider.ts]) *)

(** [os.homedir()] and [path.join] of Node depend on the host. *)
Class Host : Type := {
  os_homedir : jsstring;
  path_join : list jsstring -> jsstring;
}.

(** The directory and file names the providers import from
    [constants.ts]. *)
Class ProviderConstants : Type := {
  CODEX_SESSIONS_DIR : jsstring;
  CURSOR_HOOKS_DIR : jsstring;
  CURSOR_JSONL_FILE : jsstring;
}.

(** Calls the agent manager and the providers make on terminals and
    timers, besides those of [Effect]:
    - [CreateTerminal name cwd]: [vscode.window.createTerminal({name, cwd})];
    - [ShowTerminal t], [SendText t text]: [t.show()], [t.sendText(text)];
    - [SetIntervalLaunchPoll h ms id]: the [setInterval] of
      [launchNewTerminal], which returns [h]; its callback waits for the
      transcript of agent [id]. *)
Inductive ManagerCall : Type :=
| CreateTerminal (name : jsstring) (cwd : option jsstring)
| ShowTerminal (t : Terminal)
| SendText (t : Terminal) (text : jsstring)
| SetIntervalLaunchPoll (h : Handle) (ms : N) (agentId : N).

(** What [launchTerminal] returns: [{ projectDir, jsonlFile }]. *)
Record Launched : Type := {
  launched_projectDir : jsstring;
  launched_jsonlFile : jsstring;
}.

(** [AgentProvider].  [launchTerminal] is given what [crypto.randomUUID]
    answers, the terminal (or [null]) and the working directory;
    [getProjectDir] is given its optional argument and the path of the first
    workspace folder, when there is one.  [processLine] is [processLine]
    above for the two providers whose parser is among the sources. *)
Module AgentProvider.
Record t : Type := {
  id : ProviderId;
  displayName : jsstring;
  terminalNamePrefix : jsstring;
  usesProjectScan : bool;
  needsTerminal : bool;
  launchTerminal :
    Env -> option Terminal -> jsstring -> option Launched * list ManagerCall;
  getProjectDir : option jsstring -> option jsstring -> option jsstring;
}.
End AgentProvider.

(** [s.replace(/[:\\/]/g, '-')]: every colon, reverse solidus and solidus
    becomes a hyphen. *)
Definition claude_dirName (s : jsstring) : jsstring :=
  map (λ c, if (c =? 58) || (c =? 92) || (c =? 47) then 45 else c) s.

(** [a || b] where either may be [undefined]. *)
Definition first_truthy (a b : option jsstring) : option jsstring :=
  match a with
  | Some s => if truthy s then a else b
  | None => b
  end.

Section Providers.
Context {host : Host} {names : ProviderConstants}.

Definition claude_projectDir (workspacePath : jsstring) : jsstring :=
  path_join [os_homedir; str ".claude"; str "projects";
             claude_dirName workspacePath].

Definition claudeProvider : AgentProvider.t :=
  {| AgentProvider.id := claude;
     AgentProvider.displayName := str "Claude Code";
     AgentProvider.terminalNamePrefix := str "Claude Code";
     AgentProvider.usesProjectScan := true;
     AgentProvider.needsTerminal := true;
     AgentProvider.launchTerminal := λ env terminal cwd,
       match terminal with
       | None => (None, [])
       | Some t =>
           let sessionId := crypto_randomUUID env in
           let projectDir := claude_projectDir cwd in
           let jsonlFile := path_join [projectDir; sessionId ++ str ".jsonl"] in
           (Some {| launched_projectDir := projectDir;
                    launched_jsonlFile := jsonlFile |},
            [SendText t (str "claude --session-id " ++ sessionId)])
       end;
     AgentProvider.getProjectDir := λ cwd workspaceFolder,
       match first_truthy cwd workspaceFolder with
       | Some workspacePath =>
           if truthy workspacePath then Some (claude_projectDir workspacePath)
           else None
       | None => None
       end |}.

Definition codexProvider : AgentProvider.t :=
  {| AgentProvider.id := codex;
     AgentProvider.displayName := str "Codex";
     AgentProvider.terminalNamePrefix := str "Codex";
     AgentProvider.usesProjectScan := true;
     AgentProvider.needsTerminal := true;
     AgentProvider.launchTerminal := λ env terminal cwd,
       match terminal with
       | None => (None, [])
       | Some t =>
           (Some {| launched_projectDir :=
                      path_join [os_homedir; CODEX_SESSIONS_DIR];
                    launched_jsonlFile := [] |},
            [SendText t (str "codex")])
       end;
     AgentProvider.getProjectDir := λ cwd workspaceFolder,
       Some (path_join [os_homedir; CODEX_SESSIONS_DIR]) |}.

Definition cursorProvider : AgentProvider.t :=
  {| AgentProvider.id := cursor;
     AgentProvider.displayName := str "Cursor";
     AgentProvider.terminalNamePrefix := str "Cursor";
     AgentProvider.usesProjectScan := false;
     AgentProvider.needsTerminal := false;
     AgentProvider.launchTerminal := λ env terminal cwd,
       let hooksDir := path_join [cwd; CURSOR_HOOKS_DIR] in
       (Some {| launched_projectDir := hooksDir;
                launched_jsonlFile := path_join [hooksDir; CURSOR_JSONL_FILE] |},
        []);
     AgentProvider.getProjectDir := λ cwd workspaceFolder,
       match first_truthy cwd workspaceFolder with
       | Some workspacePath =>
           if truthy workspacePath
           then Some (path_join [workspacePath; CURSOR_HOOKS_DIR])
           else None
       | None => None
       end |}.

(* ================================================================== *)
(** ** Provider registry ([providers/registry.ts]) *)

(** The module-level map [providers] as it is initialised. *)
Definition builtin_providers : list (ProviderId * AgentProvider.t) :=
  [(claude, claudeProvider); (codex, codexProvider); (cursor, cursorProvider)].

End Providers.

Definition registerProvider (provider : AgentProvider.t)
    (providers : list (ProviderId * AgentProvider.t))
    : list (ProviderId * AgentProvider.t) :=
  JsMap.set (AgentProvider.id provider) provider providers.

(** [getProvider(id)]: [None] stands for the [Error] it throws when the map
    has no entry. *)
Definition getProvider (id : ProviderId)
    (providers : list (ProviderId * AgentProvider.t)) : option AgentProvider.t :=
  JsMap.get id providers.

Definition getAllProviders (providers : list (ProviderId * AgentProvider.t))
    : list AgentProvider.t :=
  JsMap.values providers.

(** The map after a sequence of [registerProvider] calls. *)
Definition registerAll (registered : list AgentProvider.t)
    (providers : list (ProviderId * AgentProvider.t))
    : list (ProviderId * AgentProvider.t) :=
  fold_left (λ m provider, registerProvider provider m) registered providers.

(** The keys of the provider map are the three provider ids, and every
    entry holds a provider with the id it is filed under. *)
Definition providers_complete (m : list (ProviderId * AgentProvider.t)) : Prop :=
  JsMap.keys m = [claude; codex; cursor] ∧
  ∀ id provider, JsMap.get id m = Some provider → AgentProvider.id provider = id.

(** [s.startsWith(search)] *)
Fixpoint starts_with (search s : jsstring) : bool :=
  match search, s with
  | [], _ => true
  | a :: search', b :: s' => (a =? b) && starts_with search' s'
  | _ :: _, [] => false
  end.

(** [s.includes(search)]: [search] occurs in [s] at some position. *)
Fixpoint js_includes (search s : jsstring) : bool :=
  starts_with search s ||
  match s with
  | [] => false
  | _ :: s' => js_includes search s'
  end.

Definition inferProviderFromPath (filePath : jsstring) : ProviderId :=
  if js_includes (str ".codex") filePath then codex
  else if js_includes (str ".cursor") filePath then cursor
  else claude.

(* ================================================================== *)
(** ** Agent manager, continued ([agentManager.ts]) and the view provider *)

(** The fields of the view provider its operations share: the registry,
    [activeAgentId] and [projectScanTimer]. *)
Record ViewProvider : Type := {
  registry : Registry;
  activeAgentId : option N;
  projectScanTimer : option Handle;
}.

(** The [AgentState] literal of [launchNewTerminal]. *)
Definition launched_agent (id : N) (providerId : ProviderId)
    (terminal : option Terminal) (result : Launched) : AgentState :=
  {| agent_id := id;
     provider := providerId;
     terminalRef := terminal;
     projectDir := launched_projectDir result;
     jsonlFile := launched_jsonlFile result;
     fileOffset := 0;
     lineBuffer := [];
     activeToolIds := [];
     activeToolStatuses := [];
     activeToolNames := [];
     activeSubagentToolIds := [];
     activeSubagentToolNames := [];
     isWaiting := false;
     permissionSent := false;
     hadToolsInTurn := false |}.

(** [nextTerminalIndexRef.current++] *)
Definition take_terminalIndex (r : Registry) : Registry :=
  {| agents := agents r;
     fileWatchers := fileWatchers r;
     pollingTimers := pollingTimers r;
     waitingTimers := waitingTimers r;
     permissionTimers := permissionTimers r;
     jsonlPollTimers := jsonlPollTimers r;
     knownJsonlFiles := knownJsonlFiles r;
     nextAgentId := nextAgentId r;
     nextTerminalIndex := nextTerminalIndex r + 1;
     workspaceAgents := workspaceAgents r |}.

(** The name [launchNewTerminal] gives the terminal it creates:
    [`${provider.terminalNamePrefix} #${idx}`]. *)
Definition terminal_title (prefix : jsstring) (idx : N) : jsstring :=
  prefix ++ str " #" ++ decimal idx.

Section Manager.
Context {consts : Constants} {timers : TimerManager}.

(** [launchNewTerminal] from the point where [provider.launchTerminal] has
    returned [result]: the agent is registered, persisted and announced,
    the project scan is started for providers that use it, and the
    transcript is polled for when its path is known.  [r] is the registry
    after the terminal index was taken; [nextHandle] is the object the
    [setInterval] call returns. *)
Definition registerLaunched (provider : AgentProvider.t) (providerId : ProviderId)
    (terminal : option Terminal) (result : Launched) (w : option Webview)
    (nextHandle : Handle) (r : Registry) (scanTimer : option Handle)
    : ViewProvider * list (ManagerCall + Effect) :=
  let projectDir := launched_projectDir result in
  let jsonlFile := launched_jsonlFile result in
  (* pre-register the expected JSONL file *)
  let known :=
    if truthy jsonlFile then JsSet.add jsonlFile (knownJsonlFiles r)
    else knownJsonlFiles r in
  (* create the agent immediately *)
  let id := nextAgentId r in
  let agent := launched_agent id providerId terminal result in
  let agents' := JsMap.set id agent (agents r) in
  let persisted := persistAgents agents' in
  let scan :=
    if AgentProvider.usesProjectScan provider
    then [inr (EnsureProjectScan projectDir)] else [] in
  (* poll for the JSONL file to appear, unless its path is empty *)
  let '(polls, poll) :=
    if truthy jsonlFile
    then (JsMap.set id nextHandle (jsonlPollTimers r),
          [inl (SetIntervalLaunchPoll nextHandle JSONL_POLL_INTERVAL_MS id)])
    else (jsonlPollTimers r, []) in
  ({| registry :=
        {| agents := agents';
           fileWatchers := fileWatchers r;
           pollingTimers := pollingTimers r;
           waitingTimers := waitingTimers r;
           permissionTimers := permissionTimers r;
           jsonlPollTimers := polls;
           knownJsonlFiles := known;
           nextAgentId := id + 1;
           nextTerminalIndex := nextTerminalIndex r;
           workspaceAgents := persisted |};
      activeAgentId := Some id;
      projectScanTimer := scanTimer |},
   [inr (WorkspaceUpdate persisted)]
     ++ (inr <$> post w (agentCreated id)) ++ scan ++ poll).

(** [launchNewTerminal].  [providers] is the provider map, [workspaceFolder]
    the path of the first workspace folder when there is one; [None] stands
    for the [Error] of [getProvider], thrown before anything else has run. *)
Definition launchNewTerminal (providers : list (ProviderId * AgentProvider.t))
    (env : Env) (workspaceFolder : option jsstring) (w : option Webview)
    (nextHandle : Handle) (providerId : ProviderId) (vp : ViewProvider)
    : option (ViewProvider * list (ManagerCall + Effect)) :=
  match getProvider providerId providers with
  | None => None
  | Some provider =>
      let idx := nextTerminalIndex (registry vp) in
      let r := take_terminalIndex (registry vp) in
      let cwd := workspaceFolder in
      let name := terminal_title (AgentProvider.terminalNamePrefix provider) idx in
      let terminal :=
        if AgentProvider.needsTerminal provider
        then Some {| terminal_name := name |} else None in
      let created :=
        match terminal with
        | Some t => [inl (CreateTerminal name cwd); inl (ShowTerminal t)]
        | None => []
        end in
      let untracked :=
        {| registry := r; activeAgentId := activeAgentId vp;
           projectScanTimer := projectScanTimer vp |} in
      match first_truthy cwd None with
      | None => Some (untracked, created)
      | Some dir =>
          match AgentProvider.launchTerminal provider env terminal dir with
          | (None, sent) => Some (untracked, created ++ (inl <$> sent))
          | (Some result, sent) =>
              let '(vp', tr) :=
                registerLaunched provider providerId terminal result w
                  nextHandle r (projectScanTimer vp) in
              Some (vp', created ++ (inl <$> sent) ++ tr)
          end
      end
  end.

(** [dispose] of the view provider: every agent is removed, in the order of
    the keys as they were when the call began, then the project scan timer
    is cleared. *)
Definition removeAll (ids : list N) (r : Registry) : Registry * list Effect :=
  fold_left (λ '(r, tr) id, let '(r', tr') := removeAgent id r in (r', tr ++ tr'))
            ids (r, []).

Definition dispose (vp : ViewProvider) : ViewProvider * list Effect :=
  let '(r, tr) := removeAll (JsMap.keys (agents (registry vp))) (registry vp) in
  ({| registry := r; activeAgentId := activeAgentId vp; projectScanTimer := None |},
   tr ++ stop_with ClearInterval (projectScanTimer vp)).

End Manager.

(** [sendCurrentAgentStatuses]: for every agent, in the order of the map,
    its open tools in the order of [activeToolStatuses], then its waiting
    status. *)
Definition agent_statuses (agentId : N) (agent : AgentState) : list Message :=
  map (λ '(toolId, status), agentToolStart agentId toolId status)
      (activeToolStatuses agent)
  ++ (if isWaiting agent then [agentStatus agentId waiting] else []).

Definition sendCurrentAgentStatuses (ags : list (N * AgentState))
    (w : option Webview) : list Message :=
  match w with
  | None => []
  | Some _ => flat_map (λ '(agentId, agent), agent_statuses agentId agent) ags
  end.

(** Messages of the webview that are built outside the parsers. *)
Inductive ViewMessage : Type :=
| existingAgents (agentIds : list N) (agentMeta : json)
| agentMessage (m : Message).

(** [sendExistingAgents]; [agentMeta] is what the workspace state holds
    under the seats key.  [agentIds.sort((a, b) => a - b)] sorts numbers in
    ascending order. *)
Definition sendExistingAgents (ags : list (N * AgentState)) (agentMeta : json)
    (w : option Webview) : list ViewMessage :=
  match w with
  | None => []
  | Some _ =>
      existingAgents (merge_sort N.le (JsMap.keys ags)) agentMeta
        :: (agentMessage <$> sendCurrentAgentStatuses ags w)
  end.

(** The keys of the agents map are the ids of the agents it holds, they are
    pairwise distinct, and all lie below the next id to be given out. *)
Definition registry_ok (r : Registry) : Prop :=
  JsMap.wf (agents r) ∧
  (∀ k a, (k, a) ∈ agents r → agent_id a = k) ∧
  (∀ k, k ∈ JsMap.keys (agents r) → k < nextAgentId r).

(** A launched or restored agent can be found again after a restart: its
    provider needs no terminal, or its terminal has a name and is among the
    live ones. *)
Definition terminal_alive (liveTerminals : list Terminal) (a : AgentState)
    : Prop :=
  needsTerminal (provider a) = true →
  ∃ t, terminalRef a = Some t ∧ truthy (terminal_name t) = true
       ∧ t ∈ liveTerminals.

(** The messages a trace posts at once. *)
Definition posted (tr : list Effect) : list Message :=
  omap (λ e, match e with PostMessage m => Some m | _ => None end) tr.

(** What a deferred [agentToolDone] of a parser is about.  The line is a
    tool-end line, and the tool was tracked before the line and is not open
    after it: for Codex it is the tool the line names, for Cursor the one
    the line is matched with.  The one exception is a Cursor
    [afterFileEdit] that is matched with no tool: the message is about the
    id generated for that edit. *)
Definition done_for (p : Parser) (env : Env) (id : N) (line : jsstring)
    (a a' : AgentState) (m : Message) : Prop :=
  ∃ toolId, m = agentToolDone id toolId ∧
    match p with
    | Codex =>
        line_type line = Some (str "ExecCommandEnd") ∧
        toolId = line_field line "id" ∧
        toolId ∈ activeToolIds a ∧ toolId ∉ activeToolIds a'
    | Cursor =>
        ∃ event kind,
          line_type line = Some event ∧ cursor_end_kind event = Some kind ∧
          ((findToolByName kind (activeToolNames a) = Some toolId ∧
            toolId ∈ JsMap.keys (activeToolNames a) ∧
            toolId ∉ activeToolIds a')
           ∨ (event = str "afterFileEdit" ∧
              default [] (findToolByName kind (activeToolNames a)) = [] ∧
              toolId = generateToolId env))
    end.

(** The state of the registry while [dispose] runs: no agent was removed
    yet, or the persisted list is the snapshot of the agents map. *)
Definition persisted_in_step (r0 r : Registry) : Prop :=
  r = r0 ∨ workspaceAgents r = persistAgents (agents r).


(** The loop of [restoreAgents] keeps the agents map in order: its keys are
    distinct, every entry holds the agent with that id, and every key lies
    below [bound] or is at most the largest id restored so far. *)
Definition restoring_ok (bound : N) (st : Restoring) : Prop :=
  JsMap.wf (rs_agents st) ∧
  (∀ k a, (k, a) ∈ rs_agents st → agent_id a = k) ∧
  (∀ k, k ∈ JsMap.keys (rs_agents st) → k < bound ∨ k ≤ rs_maxId st).

(** The id of a persisted entry, and the index that ends its terminal name
    when there is one, are at most [MAX_SAFE_INTEGER]. *)
Definition safe_snapshot (p : PersistedAgent.t) : bool :=
  (PersistedAgent.id p <=? MAX_SAFE_INTEGER)
  && match terminalIndex (PersistedAgent.terminalName p) with
     | Some idx => idx <=? MAX_SAFE_INTEGER
     | None => true
     end.

(** The counters of the registry and the numbers in its persisted list are
    at most [MAX_SAFE_INTEGER]. *)
Definition safe_numbers (r : Registry) : bool :=
  (nextAgentId r <=? MAX_SAFE_INTEGER)
  && (nextTerminalIndex r <=? MAX_SAFE_INTEGER)
  && forallb safe_snapshot (workspaceAgents r).

(** The snapshot [persistAgents] takes of one agent. *)
Definition snapshot (agent : AgentState) : PersistedAgent.t :=
  {| PersistedAgent.id := agent_id agent;
     PersistedAgent.provider := Some (provider agent);
     PersistedAgent.terminalName :=
       or_else (from_option terminal_name [] (terminalRef agent))
               (provider_string (provider agent));
     PersistedAgent.jsonlFile := jsonlFile agent;
     PersistedAgent.projectDir := projectDir agent |}.

(** The terminal [launchNewTerminal] creates for a provider, when the
    provider needs one. *)
Definition launch_terminal (provider : AgentProvider.t) (idx : N)
    : option Terminal :=
  if AgentProvider.needsTerminal provider
  then Some {| terminal_name :=
                 terminal_title (AgentProvider.terminalNamePrefix provider) idx |}
  else None.

(* ================================================================== *)
(** ** Further concrete instances for evaluation *)

(** A host on which [path.join] puts a solidus between the parts. *)
Fixpoint join_with_solidus (parts : list jsstring) : jsstring :=
  match parts with
  | [] => []
  | [part] => part
  | part :: rest => part ++ str "/" ++ join_with_solidus rest
  end.

Definition sample_host : Host :=
  {| os_homedir := str "/home/u"; path_join := join_with_solidus |}.

Definition sample_names : ProviderConstants :=
  {| CODEX_SESSIONS_DIR := str ".codex/sessions";
     CURSOR_HOOKS_DIR := str ".cursor/hooks";
     CURSOR_JSONL_FILE := str "events.jsonl" |}.

Definition line_AgentMessageDelta := json_line [field "type" "AgentMessageDelta"].

(** The environment one millisecond later, with the same random draw. *)
Definition later_env : Env :=
  {| crypto_randomUUID := crypto_randomUUID sample_env;
     Date_now := Date_now sample_env + 1;
     Math_random_36 := Math_random_36 sample_env |}.

(** A Codex agent that runs in the terminal [Codex #3]. *)
Definition agent_in_terminal : AgentState :=
  {| agent_id := 4; provider := codex;
     terminalRef := Some {| terminal_name := str "Codex #3" |};
     projectDir := str "/home/u/.codex/sessions";
     jsonlFile := str "/home/u/.codex/sessions/s.jsonl";
     fileOffset := 120; lineBuffer := [];
     activeToolIds := [str "a1"];
     activeToolStatuses := [(str "a1", str "Running: ls -la")];
     activeToolNames := [(str "a1", str "shell")];
     activeSubagentToolIds := []; activeSubagentToolNames := [];
     isWaiting := false; permissionSent := false; hadToolsInTurn := true |}.

(** The registry at a restart after [agent_in_terminal] was persisted. *)
Definition persisted_registry : Registry :=
  {| agents := []; fileWatchers := []; pollingTimers := [];
     waitingTimers := []; permissionTimers := []; jsonlPollTimers := [];
     knownJsonlFiles := []; nextAgentId := 1; nextTerminalIndex := 1;
     workspaceAgents := persistAgents [(4, agent_in_terminal)] |}.

(** A view provider that owns [sample_registry]. *)
Definition sample_view : ViewProvider :=
  {| registry := sample_registry;
     activeAgentId := Some 1;
     projectScanTimer := Some 30 |}.

(* ================================================================== *)
(** ** The JSON reader on sample texts *)

Example parse_turn_started :
  Json.parse (str "{" ++ quoted "type" ++ str ":" ++ quoted "TurnStarted" ++ str "}")
  = Some (JObject [(str "type", JString (str "TurnStarted"))]).
Proof. vm_compute. reflexivity. Qed.

Example parse_nested :
  Json.parse (str " { " ++ quoted "a" ++ str " : [1, -2.5e+3, true, null, {}] , "
              ++ quoted "bA\n" ++ str ":" ++ quoted "" ++ str "} ")
  = Some (JObject [(str "a", JArray [JNumber (str "1"); JNumber (str "-2.5e+3");
                                     JBool true; JNull; JObject []]);
                   (str "bA" ++ [10], JString [])]).
Proof. vm_compute. reflexivity. Qed.

Example parse_rejects :
  map Json.parse [str "{"; str "01"; str "[1,]"; str "{} x"; str ""; str "tru";
                  quoted "a" ++ str "b"; str "{" ++ quoted "a" ++ str "}"; str "1."; str "-"]
  = [None; None; None; None; None; None; None; None; None; None].
Proof. vm_compute. reflexivity. Qed.


(* ================================================================== *)
(** ** Lemmas on the collections *)

Section Collections.
Context {K V : Type} `{EqDecision K}.
Implicit Types (k : K) (s : list K) (m : list (K * V)).

Lemma has_true k s : JsSet.has k s = true ↔ k ∈ s.
Proof. unfold JsSet.has. apply bool_decide_eq_true. Qed.

Lemma elem_of_add k k' s : k' ∈ JsSet.add k s ↔ k' = k ∨ k' ∈ s.
Proof.
  unfold JsSet.add. destruct (JsSet.has k s) eqn:E.
  - apply has_true in E. split; [by right | intros [-> | ?]; done].
  - rewrite elem_of_app, list_elem_of_singleton. tauto.
Qed.

Lemma elem_of_delete k k' s : k' ∈ JsSet.delete k s ↔ k' ≠ k ∧ k' ∈ s.
Proof. unfold JsSet.delete. by rewrite list_elem_of_filter. Qed.

Lemma keys_set k k' v m :
  k' ∈ JsMap.keys (JsMap.set k v m) ↔ k' = k ∨ k' ∈ JsMap.keys m.
Proof.
  unfold JsMap.keys. induction m as [| [k0 v0] m IH]; simpl.
  - rewrite list_elem_of_singleton, elem_of_nil. tauto.
  - destruct (decide (k0 = k)) as [-> | Hne]; simpl.
    + rewrite !elem_of_cons. tauto.
    + rewrite !elem_of_cons, IH. tauto.
Qed.

Lemma keys_delete k k' m :
  k' ∈ JsMap.keys (JsMap.delete k m) ↔ k' ≠ k ∧ k' ∈ JsMap.keys m.
Proof.
  unfold JsMap.keys, JsMap.delete. rewrite !list_elem_of_fmap. split.
  - intros [[k0 v0] [-> [Hne Hin]%list_elem_of_filter]]. simpl in *.
    split; [done |]. exists (k0, v0). done.
  - intros [Hne [[k0 v0] [-> Hin]]]. exists (k0, v0). split; [done |].
    apply list_elem_of_filter. done.
Qed.

Lemma get_set_eq k v m : JsMap.get k (JsMap.set k v m) = Some v.
Proof.
  induction m as [| [k0 v0] m IH]; simpl.
  - by rewrite decide_True.
  - destruct (decide (k0 = k)) as [-> | Hne]; simpl.
    + by rewrite decide_True.
    + by rewrite decide_False.
Qed.

Lemma get_set_ne k k' v m :
  k ≠ k' → JsMap.get k' (JsMap.set k v m) = JsMap.get k' m.
Proof.
  intros Hne. induction m as [| [k0 v0] m IH]; simpl.
  - by rewrite decide_False.
  - destruct (decide (k0 = k)) as [-> | Hne0]; simpl.
    + by rewrite !decide_False.
    + by rewrite IH.
Qed.

Lemma get_delete_eq k m : JsMap.get k (JsMap.delete k m) = None.
Proof.
  unfold JsMap.delete. induction m as [| [k0 v0] m IH]; [done |].
  rewrite filter_cons. simpl. destruct (decide (k0 ≠ k)) as [Hne | Heq].
  - simpl. by rewrite decide_False.
  - done.
Qed.

Lemma get_delete_ne k k' m :
  k ≠ k' → JsMap.get k' (JsMap.delete k m) = JsMap.get k' m.
Proof.
  intros Hne. unfold JsMap.delete. induction m as [| [k0 v0] m IH]; [done |].
  rewrite filter_cons. simpl. destruct (decide (k0 ≠ k)) as [Hne0 | Heq].
  - simpl. by rewrite IH.
  - apply dec_stable in Heq as ->. by rewrite decide_False.
Qed.

Lemma delete_not_in k m : k ∉ JsMap.keys m → JsMap.delete k m = m.
Proof.
  unfold JsMap.keys, JsMap.delete. induction m as [| [k0 v0] m IH]; [done |].
  simpl. rewrite not_elem_of_cons. intros [Hne Hnin].
  rewrite filter_cons. simpl. rewrite decide_True by congruence.
  by rewrite IH.
Qed.

(** Deleting the key of an entry of a well-formed map takes out that entry
    and leaves the others in their order. *)
Lemma delete_middle k v (l1 l2 : list (K * V)) :
  JsMap.wf (l1 ++ (k, v) :: l2) →
  JsMap.delete k (l1 ++ (k, v) :: l2) = l1 ++ l2.
Proof.
  unfold JsMap.wf, JsMap.keys. rewrite fmap_app, fmap_cons. simpl.
  intros Hnd. apply list.NoDup_app in Hnd as (_ & Hdisj & Hnd2).
  apply list.NoDup_cons in Hnd2 as [Hk2 _].
  assert (Hk1 : k ∉ l1.*1).
  { intros Hin. apply (Hdisj k Hin). left. }
  unfold JsMap.delete. rewrite list.filter_app, filter_cons. simpl.
  rewrite decide_False by (intros Hc; by apply Hc).
  f_equal; [apply (delete_not_in k l1 Hk1) | apply (delete_not_in k l2 Hk2)].
Qed.

End Collections.

(* ================================================================== *)
(** ** The JSON reader never runs out of fuel *)

Section JsonFuel.
Import Json.

Lemma progress_error {A} s : progress (@SyntaxError A) s.
Proof. by split. Qed.

Lemma progress_parsed {A} (v : A) r s :
  (length r < length s)%nat → progress (Parsed v r) s.
Proof. intros Hlt. split; [done |]. by intros v' r' [= _ <-]. Qed.

Lemma progress_weaken {A} (res : result A) s s' :
  progress res s → (length s ≤ length s')%nat → progress res s'.
Proof. intros [Hne Hlt] Hle. split; [done |]. intros v r Hr. specialize (Hlt v r Hr). lia. Qed.

Lemma skip_ws_length s : (length (skip_ws s) ≤ length s)%nat.
Proof. induction s as [| c r IH]; simpl; [done |]. destruct (is_ws c); simpl; lia. Qed.

Lemma string_body_progress s acc : progress (string_body s acc) (0 :: s).
Proof.
  remember (length s) as n eqn:Hn. revert s acc Hn.
  induction n as [n IH] using lt_wf_ind. intros s acc ->.
  destruct s as [| c r]; simpl; [apply progress_error |].
  destruct (c =? QUOTE); [apply progress_parsed; simpl; lia |].
  destruct (c =? BACKSLASH).
  - destruct r as [| e r1]; [apply progress_error |].
    destruct (e =? 117).
    + destruct r1 as [| h1 [| h2 [| h3 [| h4 r2]]]]; try apply progress_error.
      destruct (hex4 h1 h2 h3 h4); [| apply progress_error].
      eapply progress_weaken; [eapply (IH (length r2)); [simpl; lia | done] |].
      simpl; lia.
    + destruct (simple_escape e); [| apply progress_error].
      eapply progress_weaken; [eapply (IH (length r1)); [simpl; lia | done] |].
      simpl; lia.
  - destruct (c <? 32); [apply progress_error |].
    eapply progress_weaken; [eapply (IH (length r)); [simpl; lia | done] |].
    simpl; lia.
Qed.

Lemma span_digits_length s d t :
  span_digits s = (d, t) → (length t ≤ length s)%nat.
Proof.
  revert d t. induction s as [| c r IH]; intros d t; simpl.
  - intros [= <- <-]. done.
  - destruct (is_digit c).
    + destruct (span_digits r) as [d' t'] eqn:E. intros [= <- <-].
      specialize (IH d' t' eq_refl). lia.
    + intros [= <- <-]. simpl. lia.
Qed.

Lemma number_int_length s i t :
  number_int s = Some (i, t) → (length t < length s)%nat.
Proof.
  unfold number_int. destruct s as [| c r]; [done |].
  destruct (c =? 45).
  - destruct r as [| c' r']; [done |].
    destruct (c' =? 48); [intros [= <- <-]; simpl; lia |].
    destruct (is_digit c'); [| done].
    destruct (span_digits r') as [d t'] eqn:E. intros [= <- <-].
    apply span_digits_length in E. simpl. lia.
  - destruct (c =? 48); [intros [= <- <-]; simpl; lia |].
    destruct (is_digit c); [| done].
    destruct (span_digits r) as [d t'] eqn:E. intros [= <- <-].
    apply span_digits_length in E. simpl. lia.
Qed.

Lemma number_frac_length s f t :
  number_frac s = Some (f, t) → (length t ≤ length s)%nat.
Proof.
  unfold number_frac. destruct s as [| c r]; [by intros [= <- <-] |].
  destruct (c =? 46).
  - destruct (span_digits r) as [d t'] eqn:E. apply span_digits_length in E.
    destruct d; [done |]. intros [= <- <-]. simpl. lia.
  - by intros [= <- <-].
Qed.

Lemma number_exp_length s e t :
  number_exp s = Some (e, t) → (length t ≤ length s)%nat.
Proof.
  unfold number_exp. destruct s as [| c r]; [by intros [= <- <-] |].
  destruct ((c =? 101) || (c =? 69)); [| by intros [= <- <-]].
  destruct r as [| g r'].
  - simpl. done.
  - destruct ((g =? 43) || (g =? 45)).
    + destruct (span_digits r') as [d t'] eqn:E. apply span_digits_length in E.
      destruct d; [done |]. intros [= <- <-]. simpl. lia.
    + destruct (span_digits (g :: r')) as [d t'] eqn:E. apply span_digits_length in E.
      destruct d; [done |]. intros [= <- <-]. simpl in *. lia.
Qed.

Lemma number_progress s : progress (number s) s.
Proof.
  unfold number. destruct (number_int s) as [[i s1] |] eqn:E1; [| apply progress_error].
  destruct (number_frac s1) as [[f s2] |] eqn:E2; [| apply progress_error].
  destruct (number_exp s2) as [[e s3] |] eqn:E3; [| apply progress_error].
  apply number_int_length in E1. apply number_frac_length in E2.
  apply number_exp_length in E3. apply progress_parsed. lia.
Qed.

Lemma strip_prefix_length p s r :
  strip_prefix p s = Some r → (length r + length p = length s)%nat.
Proof.
  revert s. induction p as [| a p IH]; intros s; simpl.
  - intros [= ->]. lia.
  - destruct s as [| b s']; [done |]. destruct (a =? b); [| done].
    intros Hr. specialize (IH s' Hr). simpl. lia.
Qed.

Lemma literal_progress s : progress (literal s) s.
Proof.
  unfold literal.
  destruct (strip_prefix (str "true") s) eqn:E1;
    [apply strip_prefix_length in E1; apply progress_parsed; simpl in E1; lia |].
  destruct (strip_prefix (str "false") s) eqn:E2;
    [apply strip_prefix_length in E2; apply progress_parsed; simpl in E2; lia |].
  destruct (strip_prefix (str "null") s) eqn:E3;
    [apply strip_prefix_length in E3; apply progress_parsed; simpl in E3; lia |].
  apply progress_error.
Qed.

(** With fuel above twice the length of the input the three mutually
    recursive readers stop on their own. *)
Lemma readers_progress fuel :
  (∀ s, (2 * length s + 1 ≤ fuel)%nat → progress (value fuel s) s) ∧
  (∀ s acc, (2 * length s + 2 ≤ fuel)%nat → progress (elements fuel s acc) s) ∧
  (∀ s acc, (2 * length s + 2 ≤ fuel)%nat → progress (members fuel s acc) s).
Proof.
  induction fuel as [| fuel (IHv & IHe & IHm)];
    [split_and!; intros; lia |].
  split_and!.
  - intros s Hf. simpl.
    pose proof (skip_ws_length s) as Hs.
    destruct (skip_ws s) as [| c r] eqn:Es; [apply progress_error |].
    simpl in Hs.
    destruct (c =? LBRACE).
    { pose proof (skip_ws_length r) as Hr.
      destruct (skip_ws r) as [| c' r'] eqn:Er; [apply progress_error |].
      simpl in Hr.
      destruct (c' =? RBRACE); [apply progress_parsed; lia |].
      eapply progress_weaken; [apply IHm; simpl; lia | simpl; lia]. }
    destruct (c =? LBRACKET).
    { pose proof (skip_ws_length r) as Hr.
      destruct (skip_ws r) as [| c' r'] eqn:Er; [apply progress_error |].
      simpl in Hr.
      destruct (c' =? RBRACKET); [apply progress_parsed; lia |].
      eapply progress_weaken; [apply IHe; simpl; lia | simpl; lia]. }
    destruct (c =? QUOTE).
    { destruct (string_body_progress r []) as [Hne Hlt].
      destruct (string_body r []) as [k r' | |] eqn:Eb; [| apply progress_error | done].
      apply progress_parsed. specialize (Hlt k r' eq_refl). simpl in Hlt. lia. }
    destruct ((c =? 45) || is_digit c).
    { eapply progress_weaken; [apply number_progress | simpl; lia]. }
    eapply progress_weaken; [apply literal_progress | simpl; lia].
  - intros s acc Hf. simpl.
    destruct (IHv s ltac:(lia)) as [Hne Hlt].
    destruct (value fuel s) as [v r | |] eqn:Ev; [| apply progress_error | done].
    specialize (Hlt v r eq_refl).
    pose proof (skip_ws_length r) as Hr.
    destruct (skip_ws r) as [| c r'] eqn:Er; [apply progress_error |].
    simpl in Hr.
    destruct (c =? COMMA).
    { eapply progress_weaken; [apply IHe; lia | lia]. }
    destruct (c =? RBRACKET); [apply progress_parsed; lia | apply progress_error].
  - intros s acc Hf. simpl.
    pose proof (skip_ws_length s) as Hs.
    destruct (skip_ws s) as [| q r] eqn:Es; [apply progress_error |].
    simpl in Hs.
    destruct (q =? QUOTE); [| apply progress_error].
    destruct (string_body_progress r []) as [Hne Hlt].
    destruct (string_body r []) as [k r1 | |] eqn:Eb; [| apply progress_error | done].
    specialize (Hlt k r1 eq_refl). simpl in Hlt.
    pose proof (skip_ws_length r1) as Hr1.
    destruct (skip_ws r1) as [| c r2] eqn:Er1; [apply progress_error |].
    simpl in Hr1.
    destruct (c =? COLON); [| apply progress_error].
    destruct (IHv r2 ltac:(lia)) as [Hnev Hltv].
    destruct (value fuel r2) as [v r3 | |] eqn:Ev; [| apply progress_error | done].
    specialize (Hltv v r3 eq_refl).
    pose proof (skip_ws_length r3) as Hr3.
    destruct (skip_ws r3) as [| d r4] eqn:Er3; [apply progress_error |].
    simpl in Hr3.
    destruct (d =? COMMA).
    { eapply progress_weaken; [apply IHm; lia | lia]. }
    destruct (d =? RBRACE); [apply progress_parsed; lia | apply progress_error].
Qed.

(** [Json.parse] gives [None] only for a text the grammar rejects. *)
Theorem parse_fuel_suffices text :
  value (2 * length text + 2) text ≠ OutOfFuel.
Proof.
  destruct (readers_progress (2 * length text + 2)) as (Hv & _ & _).
  apply (Hv text). lia.
Qed.

End JsonFuel.

(* ================================================================== *)
(** ** Lines, records and the two parsers *)

Section ParserFacts.
Context {consts : Constants} {nodepath : NodePath} {timers : TimerManager}.
Implicit Types (a : AgentState) (env : Env) (line : jsstring).
Implicit Types (ctx : TranscriptContext).

Lemma line_type_None env id line a ctx :
  line_type line = None →
  processCodexLine env id line a ctx = (a, []) ∧
  processCursorLine env id line a ctx = (a, []).
Proof.
  unfold line_type, processCodexLine, processCursorLine.
  destruct (Json.parse line) as [record |]; [| done].
  destruct (truthy (as_string (prop record "type"))) eqn:Ht; [done |].
  intros _. unfold processCodexRecord, processCursorRecord. rewrite Ht.
  by destruct record.
Qed.

Lemma line_type_Some line t :
  line_type line = Some t →
  ∃ record,
    Json.parse line = Some record ∧
    as_string (prop record "type") = t ∧ truthy t = true ∧
    (∀ env id a ctx,
       processCodexLine env id line a ctx = processCodexRecord env id record a ctx ∧
       processCursorLine env id line a ctx = processCursorRecord env id record a ctx).
Proof.
  unfold line_type, processCodexLine, processCursorLine.
  destruct (Json.parse line) as [record |]; [| done].
  destruct (truthy (as_string (prop record "type"))) eqn:Ht; [| done].
  intros [= <-]. exists record. repeat split; try done.
  all: destruct record; try done.
Qed.

Lemma codex_line_type_Some line t :
  line_type line = Some t →
  ∃ record,
    Json.parse line = Some record ∧
    as_string (prop record "type") = t ∧ truthy t = true ∧
    (∀ env id a ctx,
       processCodexLine env id line a ctx = processCodexRecord env id record a ctx).
Proof.
  unfold line_type, processCodexLine.
  destruct (Json.parse line) as [record |]; [| done].
  destruct (truthy (as_string (prop record "type"))) eqn:Ht; [| done].
  intros [= <-]. exists record. repeat split; try done.
  all: destruct record; try done.
Qed.

Lemma line_field_record line record key :
  Json.parse line = Some record →
  line_field line key = as_string (prop record key).
Proof. unfold line_field. by intros ->. Qed.

(** *** Keyset consistency under the updates of the tool collections *)

Lemma keyset_flags a b :
  activeToolIds b = activeToolIds a →
  activeToolStatuses b = activeToolStatuses a →
  activeToolNames b = activeToolNames a →
  keyset_consistent a → keyset_consistent b.
Proof. unfold keyset_consistent. by intros -> -> ->. Qed.

Lemma keyset_set_isWaiting v a :
  keyset_consistent a → keyset_consistent (set_isWaiting v a).
Proof. by apply keyset_flags. Qed.

Lemma keyset_set_permissionSent v a :
  keyset_consistent a → keyset_consistent (set_permissionSent v a).
Proof. by apply keyset_flags. Qed.

Lemma keyset_set_hadToolsInTurn v a :
  keyset_consistent a → keyset_consistent (set_hadToolsInTurn v a).
Proof. by apply keyset_flags. Qed.

Lemma keyset_clear a : keyset_consistent (clear_tool_tracking a).
Proof. by split. Qed.

Lemma keyset_tools_empty a : tools_empty a → keyset_consistent a.
Proof. intros (Hi & Hs & Hn). unfold keyset_consistent. by rewrite Hi, Hs, Hn. Qed.

Lemma keyset_track toolId status toolName a :
  keyset_consistent a → keyset_consistent (track_tool toolId status toolName a).
Proof.
  intros [Hs Hn]. split; intros k; simpl.
  - rewrite keys_set, elem_of_add, Hs. done.
  - rewrite keys_set, elem_of_add, Hn. done.
Qed.

Lemma keyset_untrack toolId a :
  keyset_consistent a → keyset_consistent (untrack_tool toolId a).
Proof.
  intros [Hs Hn]. split; intros k; simpl.
  - rewrite keys_delete, elem_of_delete, Hs. done.
  - rewrite keys_delete, elem_of_delete, Hn. done.
Qed.

End ParserFacts.

Create HintDb agent.
#[export] Hint Resolve keyset_set_isWaiting keyset_set_permissionSent
  keyset_set_hadToolsInTurn keyset_clear keyset_tools_empty keyset_track
  keyset_untrack : agent.

(** Name the result of each [clearAgentActivity] call, with what the timer
    manager guarantees of it. *)
Ltac clear_activity :=
  repeat match goal with
    | |- context [clearAgentActivity ?a ?i ?w] =>
        let Hclr := fresh "Hclr" in
        pose proof (clearAgentActivity_clears a i w) as Hclr;
        destruct (clearAgentActivity a i w) as [? ?]; simpl in Hclr
    end.

(** Case analysis on every test a parser makes. *)
Ltac parser_cases :=
  repeat match goal with
    | |- context [if ?c then _ else _] => destruct c eqn:?
    end.

Section KeysetInvariant.
Context {consts : Constants} {nodepath : NodePath} {timers : TimerManager}.

Lemma codex_record_keyset env id record a ctx :
  keyset_consistent a →
  keyset_consistent (processCodexRecord env id record a ctx).1.
Proof.
  intros Ha. unfold processCodexRecord.
  parser_cases; clear_activity; simpl; auto 6 with agent.
Qed.

Lemma cursor_record_keyset env id record a ctx :
  keyset_consistent a →
  keyset_consistent (processCursorRecord env id record a ctx).1.
Proof.
  intros Ha. unfold processCursorRecord.
  parser_cases; clear_activity; simpl; auto 6 with agent.
Qed.

End KeysetInvariant.

(* ================================================================== *)
(** ** Properties of the parsers *)

(** Membership in an explicit list. *)
Ltac in_list :=
  repeat first [apply list_elem_of_here | apply list_elem_of_further].

(** Evaluate the tests on string literals that select a parser branch. *)
Ltac eval_tests :=
  repeat match goal with
    | |- context [streq (str ?x) (str ?y)] =>
        let b := eval vm_compute in (streq (str x) (str y)) in
        change (streq (str x) (str y)) with b
    | |- context [truthy (str ?x)] =>
        let b := eval vm_compute in (truthy (str x)) in
        change (truthy (str x)) with b
    end;
  cbn [negb orb andb]; cbv iota.

Section ParserProperties.
Context {consts : Constants} {nodepath : NodePath} {timers : TimerManager}.
Implicit Types (a : AgentState) (env : Env) (line : jsstring).
Implicit Types (ctx : TranscriptContext) (p : Parser).

Lemma processLines_app
    (f : Env → N → jsstring → AgentState → TranscriptContext
         → AgentState * list Effect)
    id (l1 l2 : list (Env * jsstring)) a ctx :
  processLines f id (l1 ++ l2) a ctx =
  let r1 := processLines f id l1 a ctx in
  let r2 := processLines f id l2 r1.1 ctx in
  (r2.1, r1.2 ++ r2.2).
Proof.
  revert a. induction l1 as [| [env line] l1 IH]; intros a; simpl.
  - by destruct (processLines f id l2 a ctx).
  - destruct (f env id line a ctx) as [a1 tr1]. rewrite IH. simpl.
    destruct (processLines f id l1 a1 ctx) as [a2 tr2]. simpl.
    destruct (processLines f id l2 a2 ctx) as [a3 tr3]. simpl.
    by rewrite app_assoc.
Qed.

Lemma processLines_cons
    (f : Env → N → jsstring → AgentState → TranscriptContext
         → AgentState * list Effect)
    id env line (rest : list (Env * jsstring)) a ctx :
  processLines f id ((env, line) :: rest) a ctx =
  let r1 := f env id line a ctx in
  let r2 := processLines f id rest r1.1 ctx in
  (r2.1, r1.2 ++ r2.2).
Proof.
  simpl. destruct (f env id line a ctx) as [a1 tr1]. simpl.
  by destruct (processLines f id rest a1 ctx).
Qed.

Lemma keyset_empty_ids a :
  keyset_consistent a → activeToolIds a = [] → tools_empty a.
Proof.
  intros [Hs Hn] Hids. rewrite Hids in Hs, Hn. repeat split; [done | |].
  - destruct (activeToolStatuses a) as [| [k v] m]; [done |].
    exfalso. apply (not_elem_of_nil k), Hs. left.
  - destruct (activeToolNames a) as [| [k v] m]; [done |].
    exfalso. apply (not_elem_of_nil k), Hn. left.
Qed.

(** C3. Keyset consistency of the tool collections is an invariant of both
    parsers: when the key sets of [activeToolStatuses] and
    [activeToolNames] equal the set [activeToolIds] before a line is
    processed, they do so afterwards, whatever the line is. *)
Theorem keyset_consistency_preserved p env id line a ctx :
  keyset_consistent a →
  keyset_consistent (processLine p env id line a ctx).1.
Proof.
  intros Ha. destruct (line_type line) as [t |] eqn:Hlt.
  - destruct (line_type_Some line t Hlt) as (record & _ & _ & _ & Hrun).
    destruct (Hrun env id a ctx) as [Hcodex Hcursor].
    destruct p; simpl.
    + rewrite Hcodex. by apply codex_record_keyset.
    + rewrite Hcursor. by apply cursor_record_keyset.
  - destruct (line_type_None env id line a ctx Hlt) as [Hcodex Hcursor].
    destruct p; simpl; [by rewrite Hcodex | by rewrite Hcursor].
Qed.

Lemma codex_turn_end_record env id w record a :
  as_string (prop record "type") = str "TurnEnded" →
  keyset_consistent a →
  let r := processCodexRecord env id record a {| webview := Some w |} in
  tools_empty r.1 ∧ isWaiting r.1 = true ∧ permissionSent r.1 = false ∧
  hadToolsInTurn r.1 = false ∧ PostMessage (agentStatus id waiting) ∈ r.2.
Proof.
  intros Ht Ha. unfold processCodexRecord. rewrite Ht. eval_tests.
  destruct (0 <? JsSet.size (activeToolIds a))%nat eqn:Hsz; simpl.
  - repeat split; try done. in_list.
  - assert (Hids : activeToolIds a = []).
    { apply Nat.ltb_ge in Hsz. unfold JsSet.size in Hsz.
      destruct (activeToolIds a); simpl in *; [done | lia]. }
    destruct (keyset_empty_ids a Ha Hids) as (? & ? & ?).
    repeat split; try done. in_list.
Qed.

Lemma cursor_turn_end_record env id w record a :
  as_string (prop record "type") = str "afterAgentResponse" ∨
  as_string (prop record "type") = str "stop" →
  keyset_consistent a →
  let r := processCursorRecord env id record a {| webview := Some w |} in
  tools_empty r.1 ∧ isWaiting r.1 = true ∧ permissionSent r.1 = false ∧
  hadToolsInTurn r.1 = false ∧ PostMessage (agentStatus id waiting) ∈ r.2.
Proof.
  intros Ht Ha. unfold processCursorRecord.
  destruct Ht as [-> | ->]; eval_tests.
  all: destruct (0 <? JsSet.size (activeToolIds a))%nat eqn:Hsz; simpl;
    [ repeat split; try done; in_list |].
  all: assert (Hids : activeToolIds a = [])
    by (apply Nat.ltb_ge in Hsz; unfold JsSet.size in Hsz;
        destruct (activeToolIds a); simpl in *; [done | lia]).
  all: destruct (keyset_empty_ids a Ha Hids) as (? & ? & ?).
  all: repeat split; try done; in_list.
Qed.

(** C2. After a turn-end line (Codex [TurnEnded]; Cursor
    [afterAgentResponse] or [stop]) the three tool collections are empty,
    [isWaiting] is true, [permissionSent] and [hadToolsInTurn] are false,
    and an [agentStatus] message with status [waiting] has been posted.
    Agent states are those of the data model, whose tool collections are
    keyset-consistent. *)
Theorem turn_end_resets_agent p env id line a w :
  turn_end p line →
  keyset_consistent a →
  let r := processLine p env id line a {| webview := Some w |} in
  tools_empty r.1 ∧ isWaiting r.1 = true ∧ permissionSent r.1 = false ∧
  hadToolsInTurn r.1 = false ∧ PostMessage (agentStatus id waiting) ∈ r.2.
Proof.
  intros Hend Ha. destruct p; simpl in Hend |- *.
  - destruct (line_type_Some line _ Hend) as (record & _ & Ht & _ & Hrun).
    destruct (Hrun env id a {| webview := Some w |}) as [-> _].
    by apply codex_turn_end_record.
  - assert (∃ t, line_type line = Some t ∧
                 (t = str "afterAgentResponse" ∨ t = str "stop"))
      as (t & Hlt & Hcases) by (destruct Hend; eauto).
    destruct (line_type_Some line t Hlt) as (record & _ & Ht & _ & Hrun).
    destruct (Hrun env id a {| webview := Some w |}) as [_ ->].
    apply cursor_turn_end_record; [| done].
    rewrite Ht. done.
Qed.

(** C4. A line that is not valid JSON, or whose value fails the structural
    checks, is dropped by both parsers: the call returns, the agent is
    unchanged and nothing is emitted; the lines that follow are processed
    as if the dropped line had not been there. *)
Theorem malformed_line_is_dropped p env id line before after a ctx :
  malformed line →
  processLine p env id line a ctx = (a, []) ∧
  processLines (processLine p) id (before ++ (env, line) :: after) a ctx =
  processLines (processLine p) id (before ++ after) a ctx.
Proof.
  intros Hbad.
  assert (Hdrop : ∀ a', processLine p env id line a' ctx = (a', [])).
  { intros a'. destruct (line_type_None env id line a' ctx Hbad).
    by destruct p. }
  split; [apply Hdrop |].
  rewrite !processLines_app. simpl. rewrite Hdrop.
  by destruct (processLines (processLine p) id after _ ctx).
Qed.

Lemma parse_error_malformed line : Json.parse line = None → malformed line.
Proof. unfold malformed, line_type. by intros ->. Qed.

Lemma parse_null_malformed line : Json.parse line = Some JNull → malformed line.
Proof. unfold malformed, line_type. by intros ->. Qed.

(** C6 (as the code has it). An [ApprovalRequest] line sets
    [permissionSent] and posts one [agentToolPermission] message each time
    it is processed, whatever [permissionSent] was before. *)
Theorem approval_request_posts_each_time env id line a w :
  line_type line = Some (str "ApprovalRequest") →
  processCodexLine env id line a {| webview := Some w |} =
  (set_permissionSent true a, [PostMessage (agentToolPermission id)]).
Proof.
  intros Hlt.
  destruct (codex_line_type_Some line _ Hlt) as (record & _ & Ht & _ & Hrun).
  rewrite Hrun. unfold processCodexRecord. rewrite Ht. eval_tests. done.
Qed.
End ParserProperties.

Section Scenario.
Context {consts : Constants} {timers : TimerManager}.
Implicit Types (a : AgentState) (env : Env) (w : Webview).

(** What each line of the scenario does, one line at a time. *)

Lemma scenario_TurnStarted env id a w :
  processCodexLine env id line_TurnStarted a {| webview := Some w |} =
  (set_hadToolsInTurn false (clearAgentActivity a id (Some w)).1,
   [CancelWaitingTimer id] ++ (clearAgentActivity a id (Some w)).2
     ++ [PostMessage (agentStatus id active)]).
Proof.
  unfold processCodexLine.
  replace (Json.parse line_TurnStarted)
    with (Some (JObject [(str "type", JString (str "TurnStarted"))]))
    by (vm_compute; reflexivity).
  unfold processCodexRecord. simpl prop. simpl as_string. eval_tests.
  cbn [webview]. by destruct (clearAgentActivity a id (Some w)).
Qed.

Lemma scenario_ExecCommandBegin env id a w :
  (6 ≤ BASH_COMMAND_DISPLAY_MAX_LENGTH)%nat →
  processCodexLine env id line_ExecCommandBegin_a1 a {| webview := Some w |} =
  (set_isWaiting false
     (set_hadToolsInTurn true
        (track_tool (str "a1") (str "Running: ls -la") (str "shell") a)),
   [PostMessage (agentStatus id active);
    PostMessage (agentToolStart id (str "a1") (str "Running: ls -la"));
    StartPermissionTimer id CODEX_PERMISSION_EXEMPT]).
Proof.
  intros Hmax.
  assert (Hshow : display_command (str "ls -la") = str "ls -la").
  { unfold display_command.
    replace (BASH_COMMAND_DISPLAY_MAX_LENGTH <? js_length (str "ls -la"))%nat
      with false; [done |].
    symmetry. apply Nat.ltb_ge. exact Hmax. }
  unfold processCodexLine.
  replace (Json.parse line_ExecCommandBegin_a1)
    with (Some (JObject [(str "type", JString (str "ExecCommandBegin"));
                         (str "id", JString (str "a1"));
                         (str "command", JString (str "ls -la"))]))
    by (vm_compute; reflexivity).
  unfold processCodexRecord, formatCodexToolStatus.
  replace (as_string (prop _ "type")) with (str "ExecCommandBegin") by done.
  replace (as_string (prop _ "id")) with (str "a1") by done.
  replace (as_string (prop _ "command")) with (str "ls -la") by done.
  eval_tests. change (or_else (str "a1") _) with (str "a1").
  change (or_else (str "ls -la") []) with (str "ls -la").
  rewrite Hshow. done.
Qed.

Lemma scenario_ExecCommandEnd env id a w :
  activeToolIds a = [] →
  processCodexLine env id line_ExecCommandEnd_a1
    (set_isWaiting false
       (set_hadToolsInTurn true
          (track_tool (str "a1") (str "Running: ls -la") (str "shell") a)))
    {| webview := Some w |} =
  (set_hadToolsInTurn false
     (untrack_tool (str "a1")
        (set_isWaiting false
           (set_hadToolsInTurn true
              (track_tool (str "a1") (str "Running: ls -la") (str "shell") a)))),
   [SetTimeout TOOL_DONE_DELAY_MS (agentToolDone id (str "a1"))]).
Proof.
  intros Hids. unfold processCodexLine.
  replace (Json.parse line_ExecCommandEnd_a1)
    with (Some (JObject [(str "type", JString (str "ExecCommandEnd"));
                         (str "id", JString (str "a1"))]))
    by (vm_compute; reflexivity).
  unfold processCodexRecord.
  replace (as_string (prop _ "type")) with (str "ExecCommandEnd") by done.
  replace (as_string (prop _ "id")) with (str "a1") by done.
  eval_tests. simpl. rewrite Hids.
  replace (JsSet.has (str "a1") (JsSet.add (str "a1") [])) with true
    by (vm_compute; reflexivity).
  simpl. rewrite Hids.
  replace (JsSet.size (JsSet.delete (str "a1") (JsSet.add (str "a1") [])) =? 0)%nat
    with true by (vm_compute; reflexivity).
  done.
Qed.

Lemma scenario_TurnEnded env id a w :
  activeToolIds a = [] →
  (processCodexLine env id line_TurnEnded a {| webview := Some w |}).2 =
  [CancelWaitingTimer id; CancelPermissionTimer id;
   PostMessage (agentStatus id waiting)].
Proof.
  intros Hids. unfold processCodexLine.
  replace (Json.parse line_TurnEnded)
    with (Some (JObject [(str "type", JString (str "TurnEnded"))]))
    by (vm_compute; reflexivity).
  unfold processCodexRecord. simpl prop. simpl as_string. eval_tests.
  rewrite Hids. done.
Qed.

(** C1 (as the code has it). The four-line Codex scenario sends, in this
    order: what [clearAgentActivity] sends for the turn start (the
    tools-cleared event) and [agentStatus active]; [agentStatus active] and
    [agentToolStart a1] for the command start; [agentToolDone a1] deferred
    by the display delay for the command end; and [agentStatus waiting]
    alone for the turn end, since no tool is open by then.  The command is
    shown whole when the display length is at least its six characters. *)
Theorem codex_scenario_events env1 env2 env3 env4 id a w :
  (6 ≤ BASH_COMMAND_DISPLAY_MAX_LENGTH)%nat →
  activeToolIds a = [] →
  events (processLines processCodexLine id
            [(env1, line_TurnStarted); (env2, line_ExecCommandBegin_a1);
             (env3, line_ExecCommandEnd_a1); (env4, line_TurnEnded)] a
            {| webview := Some w |}).2 =
  events (clearAgentActivity a id (Some w)).2 ++
  [PostMessage (agentStatus id active);
   PostMessage (agentStatus id active);
   PostMessage (agentToolStart id (str "a1") (str "Running: ls -la"));
   SetTimeout TOOL_DONE_DELAY_MS (agentToolDone id (str "a1"));
   PostMessage (agentStatus id waiting)].
Proof.
  intros Hmax _.
  pose proof (clearAgentActivity_clears a id (Some w)) as (Hids & _ & _).
  rewrite processLines_cons. cbv zeta.
  rewrite scenario_TurnStarted. cbn [fst snd].
  rewrite processLines_cons. cbv zeta.
  rewrite scenario_ExecCommandBegin by exact Hmax. cbn [fst snd].
  rewrite processLines_cons. cbv zeta.
  rewrite scenario_ExecCommandEnd by exact Hids. cbn [fst snd].
  rewrite processLines_cons. cbv zeta.
  rewrite scenario_TurnEnded by (simpl; by rewrite Hids).
  simpl processLines. cbn [fst snd].
  unfold events. rewrite !List.filter_app. simpl. by rewrite <- app_assoc.
Qed.
End Scenario.

Lemma size_zero_nil {A} (l : list A) : (JsSet.size l =? 0)%nat = true ↔ l = [].
Proof. unfold JsSet.size. rewrite Nat.eqb_eq. by destruct l. Qed.

Lemma size_pos_nil {A} (l : list A) : (0 <? JsSet.size l)%nat = false ↔ l = [].
Proof.
  unfold JsSet.size. rewrite Nat.ltb_ge.
  destruct l; simpl; [done | split; [lia | done]].
Qed.

(** Turn the size tests of a parser branch into facts about the id set. *)
Ltac size_facts :=
  repeat match goal with
    | Hs : (JsSet.size _ =? 0)%nat = true |- _ => apply size_zero_nil in Hs
    | Hs : (0 <? JsSet.size _)%nat = false |- _ => apply size_pos_nil in Hs
    end.

Section ToolsInTurn.
Context {consts : Constants} {nodepath : NodePath} {timers : TimerManager}.
Implicit Types (a : AgentState) (env : Env) (line : jsstring).
Implicit Types (ctx : TranscriptContext) (p : Parser).


Lemma delete_nonempty (k : jsstring) (s : list jsstring) :
  JsSet.delete k s ≠ [] → s ≠ [].
Proof. intros Hne ->. by apply Hne. Qed.

Lemma codex_record_flagged env id record a ctx :
  open_tools_flagged a →
  open_tools_flagged (processCodexRecord env id record a ctx).1.
Proof.
  intros Ha. unfold processCodexRecord, open_tools_flagged.
  parser_cases; clear_activity; simpl; try done; size_facts; intros Hne;
    try done.
  all: try (exfalso; apply Hne; apply Hclr).
  all: try (exfalso; apply Hne; assumption).
  all: try (apply Ha; intros Hnil; apply Hne; rewrite Hnil; done).
Qed.

Lemma cursor_record_flagged env id record a ctx :
  open_tools_flagged a →
  open_tools_flagged (processCursorRecord env id record a ctx).1.
Proof.
  intros Ha. unfold processCursorRecord, open_tools_flagged.
  parser_cases; clear_activity; simpl; try done; size_facts; intros Hne;
    try done.
  all: try (exfalso; apply Hne; apply Hclr).
  all: try (exfalso; apply Hne; assumption).
  all: try (apply Ha; intros Hnil; apply Hne; rewrite Hnil; done).
Qed.

Lemma line_flagged p env id line a ctx :
  open_tools_flagged a → open_tools_flagged (processLine p env id line a ctx).1.
Proof.
  intros Ha. destruct (line_type line) as [t |] eqn:Hlt.
  - destruct (line_type_Some line t Hlt) as (record & _ & _ & _ & Hrun).
    destruct (Hrun env id a ctx) as [Hcodex Hcursor].
    destruct p; simpl.
    + rewrite Hcodex. by apply codex_record_flagged.
    + rewrite Hcursor. by apply cursor_record_flagged.
  - destruct (line_type_None env id line a ctx Hlt) as [Hcodex Hcursor].
    destruct p; simpl; [by rewrite Hcodex | by rewrite Hcursor].
Qed.

Lemma lines_flagged p id lines a ctx :
  open_tools_flagged a →
  open_tools_flagged (processLines (processLine p) id lines a ctx).1.
Proof.
  revert a. induction lines as [| [env line] lines IH]; intros a Ha; [done |].
  simpl. pose proof (line_flagged p env id line a ctx Ha) as H1.
  destruct (processLine p env id line a ctx) as [a1 tr1]. simpl in H1.
  specialize (IH a1 H1).
  by destruct (processLines (processLine p) id lines a1 ctx).
Qed.

Lemma tool_start_type p line :
  tool_start p line →
  ∃ t, line_type line = Some t ∧
       match p with
       | Codex => t = str "ExecCommandBegin"
       | Cursor => t = str "beforeShellExecution" ∨ t = str "beforeReadFile"
                   ∨ t = str "beforeMCPExecution"
       end.
Proof. destruct p; simpl; [eauto | intros [? | [? | ?]]; eauto 6]. Qed.

Lemma tool_end_type p line :
  tool_end p line →
  ∃ t, line_type line = Some t ∧
       match p with
       | Codex => t = str "ExecCommandEnd"
       | Cursor => t = str "afterShellExecution" ∨ t = str "afterFileEdit"
                   ∨ t = str "afterMCPExecution"
       end.
Proof. destruct p; simpl; [eauto | intros [? | [? | ?]]; eauto 6]. Qed.

Lemma tool_start_sets_flag p env id line a ctx :
  tool_start p line → hadToolsInTurn (processLine p env id line a ctx).1 = true.
Proof.
  intros (t & Hlt & Ht)%tool_start_type.
  destruct (line_type_Some line t Hlt) as (record & _ & Hrec & _ & Hrun).
  destruct (Hrun env id a ctx) as [Hcodex Hcursor].
  destruct p; simpl.
  - rewrite Hcodex. unfold processCodexRecord. rewrite Hrec, Ht. by eval_tests.
  - rewrite Hcursor. unfold processCursorRecord. rewrite Hrec.
    destruct Ht as [-> | [-> | ->]]; by eval_tests.
Qed.

Lemma tool_end_clears_flag p env id line a ctx :
  tool_end p line →
  activeToolIds (processLine p env id line a ctx).1 = [] →
  hadToolsInTurn (processLine p env id line a ctx).1 = false.
Proof.
  intros (t & Hlt & Ht)%tool_end_type.
  destruct (line_type_Some line t Hlt) as (record & _ & Hrec & _ & Hrun).
  destruct (Hrun env id a ctx) as [Hcodex Hcursor].
  destruct p; simpl.
  - rewrite Hcodex. unfold processCodexRecord. rewrite Hrec, Ht. eval_tests.
    parser_cases; simpl; try done; intros Hnil;
      apply size_zero_nil in Hnil; simpl in *; congruence.
  - rewrite Hcursor. unfold processCursorRecord. rewrite Hrec.
    destruct Ht as [-> | [-> | ->]]; eval_tests.
    all: parser_cases; simpl; try done; intros Hnil;
      apply size_zero_nil in Hnil; simpl in *; congruence.
Qed.

(** C9 (as the code has it). On lines whose fields are strings where the
    parsers read strings: once a tool-start line has been processed,
    [hadToolsInTurn] is true, and after any further lines it is true
    whenever a tool is still open.  It does not outlive the tools: a
    tool-end line that leaves no tool open sets it to false. *)
Theorem hadToolsInTurn_while_tools_open p env id line lines a ctx :
  tool_start p line →
  typed_line line = true →
  typed_lines lines = true →
  let a1 := (processLine p env id line a ctx).1 in
  let a2 := (processLines (processLine p) id lines a1 ctx).1 in
  hadToolsInTurn a1 = true ∧
  (activeToolIds a2 ≠ [] → hadToolsInTurn a2 = true) ∧
  (∀ env' line',
     tool_end p line' →
     typed_line line' = true →
     activeToolIds (processLine p env' id line' a2 ctx).1 = [] →
     hadToolsInTurn (processLine p env' id line' a2 ctx).1 = false).
Proof.
  intros Hstart _ _ a1 a2.
  pose proof (tool_start_sets_flag p env id line a ctx Hstart) as H1.
  split; [exact H1 |]. split.
  - apply lines_flagged. intros _. exact H1.
  - intros env' line' Hend _. by apply tool_end_clears_flag.
Qed.
End ToolsInTurn.

Section CursorToolEnd.
Context {consts : Constants} {nodepath : NodePath} {timers : TimerManager}.
Implicit Types (a : AgentState) (env : Env) (line : jsstring).
Implicit Types (ctx : TranscriptContext).

Lemma streq_true (x y : jsstring) : streq x y = true ↔ x = y.
Proof. unfold streq. apply bool_decide_eq_true. Qed.

Lemma or_else_nil (s : jsstring) : or_else s [] = s.
Proof. by destruct s. Qed.

Lemma findToolByName_None kind (names : list (jsstring * jsstring)) :
  (∀ toolId, (toolId, kind) ∉ names) → findToolByName kind names = None.
Proof.
  induction names as [| [k n] names IH]; intros Hno; simpl; [done |].
  destruct (streq n kind) eqn:E.
  - apply streq_true in E as ->. exfalso. apply (Hno k). left.
  - apply IH. intros toolId Hin. apply (Hno toolId). by right.
Qed.

Lemma findToolByName_first kind toolId (l1 l2 : list (jsstring * jsstring)) :
  (∀ e, e ∈ l1 → e.2 ≠ kind) →
  findToolByName kind (l1 ++ (toolId, kind) :: l2) = Some toolId.
Proof.
  induction l1 as [| [k n] l1 IH]; intros Hno; simpl.
  - unfold streq. by rewrite bool_decide_eq_true_2.
  - destruct (streq n kind) eqn:E.
    + apply streq_true in E. exfalso. apply (Hno (k, n)); [left | done].
    + apply IH. intros e He. apply Hno. by right.
Qed.

Lemma cursor_end_kind_cases event kind :
  cursor_end_kind event = Some kind →
  (event = str "afterShellExecution" ∧ kind = str "Bash") ∨
  (event = str "afterFileEdit" ∧ kind = str "Read") ∨
  (event = str "afterMCPExecution" ∧ kind = str "MCP").
Proof.
  unfold cursor_end_kind.
  destruct (streq event (str "afterShellExecution")) eqn:E1;
    [apply streq_true in E1; intros [= <-]; auto |].
  destruct (streq event (str "afterFileEdit")) eqn:E2;
    [apply streq_true in E2; intros [= <-]; auto |].
  destruct (streq event (str "afterMCPExecution")) eqn:E3;
    [apply streq_true in E3; intros [= <-]; auto | done].
Qed.

(** C5. A Cursor tool-end line carries no id.  When a tool of the matching
    kind is open, the line closes the oldest one: with [toolId] the first
    entry of that kind in the insertion order of [activeToolNames], the
    entry leaves [activeToolNames], [toolId] leaves [activeToolIds] and
    [activeToolStatuses], every other entry stays, and the only effect is
    one [agentToolDone toolId] deferred by the display delay. *)
Theorem cursor_tool_end_closes_oldest env id line a ctx event kind toolId l1 l2 :
  line_type line = Some event →
  cursor_end_kind event = Some kind →
  activeToolNames a = l1 ++ (toolId, kind) :: l2 →
  (∀ e, e ∈ l1 → e.2 ≠ kind) →
  JsMap.wf (activeToolNames a) →
  truthy toolId = true →
  let r := processCursorLine env id line a ctx in
  activeToolNames r.1 = l1 ++ l2 ∧
  (∀ k, k ∈ activeToolIds r.1 ↔ k ≠ toolId ∧ k ∈ activeToolIds a) ∧
  JsMap.get toolId (activeToolStatuses r.1) = None ∧
  (∀ k, k ≠ toolId →
        JsMap.get k (activeToolStatuses r.1) = JsMap.get k (activeToolStatuses a)) ∧
  r.2 = [SetTimeout TOOL_DONE_DELAY_MS (agentToolDone id toolId)].
Proof.
  intros Hlt Hkind Hnames Hfirst Hwf Htruthy.
  destruct (line_type_Some line event Hlt) as (record & _ & Hrec & _ & Hrun).
  destruct (Hrun env id a ctx) as [_ Hcursor]. simpl. rewrite Hcursor.
  pose proof (findToolByName_first kind toolId l1 l2 Hfirst) as Hfind.
  rewrite <- Hnames in Hfind.
  assert (Hdel : JsMap.delete toolId (activeToolNames a) = l1 ++ l2).
  { rewrite Hnames in Hwf |- *. by apply delete_middle. }
  unfold processCursorRecord. rewrite Hrec.
  destruct (cursor_end_kind_cases event kind Hkind)
    as [[-> ->] | [[-> ->] | [-> ->]]]; eval_tests.
  all: rewrite Hfind; simpl; rewrite Htruthy.
  all: destruct (JsSet.size _ =? 0)%nat; simpl.
  all: split_and!; try done.
  all: try (intros k; apply elem_of_delete).
  all: try apply get_delete_eq.
  all: intros k Hk; by apply get_delete_ne.
Qed.

(** C10 (as the code has it). With no tool of kind [Read] open, an
    [afterFileEdit] line whose [file_path] is a string, or is absent,
    [null] or [false], posts [agentToolStart] with a generated id and the
    status [Editing <basename>], defers [agentToolDone] for the same id by
    the display delay, and leaves the three tool collections as they
    were.  [hadToolsInTurn] ends true when some other tool is open and
    false when none is. *)
Theorem standalone_file_edit env id line a w :
  line_type line = Some (str "afterFileEdit") →
  string_typed (line_prop line "file_path") = true →
  (∀ toolId, (toolId, str "Read") ∉ activeToolNames a) →
  let toolId := generateToolId env in
  let r := processCursorLine env id line a {| webview := Some w |} in
  r.2 = [PostMessage
           (agentToolStart id toolId
              (str "Editing " ++ path_basename (line_field line "file_path")));
         SetTimeout TOOL_DONE_DELAY_MS (agentToolDone id toolId)] ∧
  activeToolIds r.1 = activeToolIds a ∧
  activeToolStatuses r.1 = activeToolStatuses a ∧
  activeToolNames r.1 = activeToolNames a ∧
  (activeToolIds a ≠ [] → hadToolsInTurn r.1 = true) ∧
  (activeToolIds a = [] → hadToolsInTurn r.1 = false).
Proof.
  intros Hlt _ Hno.
  destruct (line_type_Some line _ Hlt) as (record & Hparse & Hrec & _ & Hrun).
  destruct (Hrun env id a {| webview := Some w |}) as [_ Hcursor]. simpl. rewrite Hcursor.
  rewrite (line_field_record line record "file_path" Hparse).
  unfold processCursorRecord. rewrite Hrec. eval_tests.
  rewrite (findToolByName_None _ _ Hno). simpl.
  unfold formatCursorStatus. eval_tests. rewrite or_else_nil.
  destruct (JsSet.size (activeToolIds a) =? 0)%nat eqn:Hsz; simpl.
  - apply size_zero_nil in Hsz. repeat split; done.
  - repeat split; try done. intros Hnil. apply size_zero_nil in Hnil. congruence.
Qed.
End CursorToolEnd.

(* ================================================================== *)
(** ** Invariants behind the hypotheses of the statements *)

Section Invariants.
Context {consts : Constants} {nodepath : NodePath} {timers : TimerManager}.
Implicit Types (a : AgentState) (env : Env) (line : jsstring).
Implicit Types (ctx : TranscriptContext) (p : Parser).

Lemma wf_set {V} (k : jsstring) (v : V) (m : list (jsstring * V)) :
  JsMap.wf m → JsMap.wf (JsMap.set k v m).
Proof.
  unfold JsMap.wf, JsMap.keys. induction m as [| [k0 v0] m IH]; simpl.
  - intros _. apply NoDup_singleton.
  - rewrite list.NoDup_cons. intros [Hk0 Hm].
    destruct (decide (k0 = k)) as [-> | Hne]; simpl.
    + by apply list.NoDup_cons.
    + apply list.NoDup_cons. split; [| by apply IH].
      intros Hin. apply (keys_set k k0 v m) in Hin as [Heq | Hin]; by auto.
Qed.

Lemma wf_delete {V} (k : jsstring) (m : list (jsstring * V)) :
  JsMap.wf m → JsMap.wf (JsMap.delete k m).
Proof.
  unfold JsMap.wf, JsMap.keys, JsMap.delete.
  induction m as [| [k0 v0] m IH]; simpl; [done |].
  rewrite list.NoDup_cons. intros [Hk0 Hm]. rewrite filter_cons. simpl.
  destruct (decide (k0 ≠ k)); [| by apply IH].
  simpl. apply list.NoDup_cons. split; [| by apply IH].
  intros Hin. apply Hk0. by apply (keys_delete k k0 m) in Hin as [_ Hin].
Qed.

Lemma generateToolId_truthy env : truthy (generateToolId env) = true.
Proof. done. Qed.

(** The keys of [activeToolNames] stay pairwise distinct and truthy under
    every line the Cursor parser processes. *)
Lemma cursor_names_shape env id line a ctx :
  JsMap.wf (activeToolNames a) ∧ tool_ids_truthy a →
  let a' := (processCursorLine env id line a ctx).1 in
  JsMap.wf (activeToolNames a') ∧ tool_ids_truthy a'.
Proof.
  intros [Hwf Htr]. unfold processCursorLine.
  destruct (Json.parse line) as [record |]; [| done].
  assert (Hrec : let a' := (processCursorRecord env id record a ctx).1 in
                 JsMap.wf (activeToolNames a') ∧ tool_ids_truthy a').
  { unfold processCursorRecord, tool_ids_truthy in *.
    parser_cases; clear_activity; simpl; split; try done.
    all: try (destruct Hclr as (_ & _ & ->)).
    all: try apply NoDup_nil_2.
    all: try (intros k Hk; by apply elem_of_nil in Hk).
    all: try (by apply wf_set).
    all: try (by apply wf_delete).
    all: try (intros k [-> | Hk]%keys_set; [done | by apply Htr]).
    all: intros k [_ Hk]%keys_delete; by apply Htr. }
  by destruct record.
Qed.
(** *** Agents as the registry creates them

    A launched or restored agent has nothing tracked, which gives the
    invariants of the tool collections; every sequence of lines keeps
    them. *)

Lemma transient_empty_keyset a : transient_empty a → keyset_consistent a.
Proof. intros [Hempty _]. by apply keyset_tools_empty. Qed.

Lemma transient_empty_flagged a : transient_empty a → open_tools_flagged a.
Proof. intros [(Hids & _) _] Hne. by rewrite Hids in Hne. Qed.

Lemma lines_keep_keyset p id (lines : list (Env * jsstring)) a ctx :
  keyset_consistent a →
  keyset_consistent (processLines (processLine p) id lines a ctx).1.
Proof.
  revert a. induction lines as [| [env line] lines IH]; intros a Ha; [done |].
  rewrite processLines_cons. cbv zeta. cbn [fst]. apply IH.
  destruct (line_type line) as [t |] eqn:Hlt.
  - destruct (line_type_Some line t Hlt) as (record & _ & _ & _ & Hrun).
    destruct (Hrun env id a ctx) as [Hcodex Hcursor].
    destruct p; simpl.
    + rewrite Hcodex. by apply codex_record_keyset.
    + rewrite Hcursor. by apply cursor_record_keyset.
  - destruct (line_type_None env id line a ctx Hlt) as [Hcodex Hcursor].
    destruct p; simpl; [by rewrite Hcodex | by rewrite Hcursor].
Qed.
End Invariants.

(* ================================================================== *)
(** ** Properties of the registry *)

(** Membership in a trace built with [++]. *)
Ltac in_trace := rewrite ?elem_of_app, ?elem_of_cons; intuition.

Section RegistryProperties.
Context {consts : Constants} {timers : TimerManager}.
Implicit Types (r : Registry) (p : PersistedAgent.t) (st : Restoring).

(** A call for an id that is not registered returns at once. *)
Lemma removeAgent_unregistered agentId r :
  JsMap.get agentId (agents r) = None → removeAgent agentId r = (r, []).
Proof. unfold removeAgent. by intros ->. Qed.

(** C8. Removing a registered agent takes its id out of the agents map and
    out of the five watcher and timer maps, stops every watcher and timer
    those maps held for it, and a second call for the same id changes
    nothing and has no effect. *)
Theorem removeAgent_complete_and_idempotent agentId r agent :
  JsMap.get agentId (agents r) = Some agent →
  let r' := (removeAgent agentId r).1 in
  let tr := (removeAgent agentId r).2 in
  (JsMap.get agentId (agents r') = None ∧
   JsMap.get agentId (fileWatchers r') = None ∧
   JsMap.get agentId (pollingTimers r') = None ∧
   JsMap.get agentId (waitingTimers r') = None ∧
   JsMap.get agentId (permissionTimers r') = None ∧
   JsMap.get agentId (jsonlPollTimers r') = None) ∧
  ((∀ h, JsMap.get agentId (jsonlPollTimers r) = Some h → ClearInterval h ∈ tr) ∧
   (∀ h, JsMap.get agentId (fileWatchers r) = Some h → CloseWatcher h ∈ tr) ∧
   (∀ h, JsMap.get agentId (pollingTimers r) = Some h → ClearInterval h ∈ tr) ∧
   (∀ h, JsMap.get agentId (waitingTimers r) = Some h → ClearTimeout h ∈ tr) ∧
   (∀ h, JsMap.get agentId (permissionTimers r) = Some h → ClearTimeout h ∈ tr)) ∧
  removeAgent agentId r' = (r', []).
Proof.
  intros Hreg. unfold removeAgent. rewrite Hreg.
  pose proof (cancelWaitingTimer_frees agentId (waitingTimers r)) as Hw.
  pose proof (cancelPermissionTimer_frees agentId (permissionTimers r)) as Hp.
  pose proof (cancelWaitingTimer_stops agentId (waitingTimers r)) as Hwc.
  pose proof (cancelPermissionTimer_stops agentId (permissionTimers r)) as Hpc.
  destruct (cancelWaitingTimer agentId (waitingTimers r)) as [wt e4].
  destruct (cancelPermissionTimer agentId (permissionTimers r)) as [pt e5].
  simpl in *. split_and!; try done; try apply get_delete_eq.
  - intros h ->. simpl. in_trace.
  - intros h ->. simpl. in_trace.
  - intros h ->. simpl. in_trace.
  - intros h Hh. specialize (Hwc h Hh). in_trace.
  - intros h Hh. specialize (Hpc h Hh). in_trace.
  - by rewrite get_delete_eq.
Qed.

Variable fs : FileSystem.
Variable liveTerminals : list Terminal.

Lemma restorable_not_skipped p :
  restorable liveTerminals p →
  needsTerminal (default claude (PersistedAgent.provider p))
    && negb (bool_decide
               (is_Some (findTerminal (PersistedAgent.terminalName p) liveTerminals)))
  = false.
Proof.
  unfold restorable. destruct (needsTerminal _); [| done].
  intros Hsome. simpl. by rewrite bool_decide_eq_true_2 by auto.
Qed.

Lemma restoreEntry_this st p :
  restorable liveTerminals p →
  JsMap.get (PersistedAgent.id p) (rs_agents (restoreEntry fs liveTerminals st p))
  = Some (restored_agent fs liveTerminals p).
Proof.
  intros Hp. unfold restoreEntry, restored_agent.
  rewrite (restorable_not_skipped p Hp).
  destruct (JsMap.get (PersistedAgent.jsonlFile p) fs); simpl;
    apply get_set_eq.
Qed.

Lemma restoreEntry_other id st p :
  PersistedAgent.id p ≠ id →
  JsMap.get id (rs_agents (restoreEntry fs liveTerminals st p))
  = JsMap.get id (rs_agents st).
Proof.
  intros Hne. unfold restoreEntry.
  destruct (needsTerminal _ && negb _); [done |].
  destruct (JsMap.get (PersistedAgent.jsonlFile p) fs); simpl;
    by rewrite !get_set_ne.
Qed.

Lemma restoreEntry_skipped st p :
  ¬ restorable liveTerminals p →
  rs_agents (restoreEntry fs liveTerminals st p) = rs_agents st.
Proof.
  intros Hp. unfold restoreEntry, restorable in *.
  destruct (needsTerminal _); simpl.
  - destruct (bool_decide _) eqn:E; [| done].
    apply bool_decide_eq_true in E. exfalso. by apply Hp.
  - exfalso. by apply Hp.
Qed.

Lemma restored_agent_at_end p : at_end_of_file fs (restored_agent fs liveTerminals p).
Proof.
  unfold restored_agent.
  destruct (JsMap.get (PersistedAgent.jsonlFile p) fs) as [size |] eqn:E.
  - split; [by repeat split |]. simpl. intros size'. rewrite E. by intros [= ->].
  - split; [by repeat split |]. simpl. intros size'. by rewrite E.
Qed.

Lemma restoreEntry_keeps id st p :
  restored_at fs id (rs_agents st) →
  restored_at fs id (rs_agents (restoreEntry fs liveTerminals st p)).
Proof.
  intros Hst. destruct (decide (restorable liveTerminals p)) as [Hp | Hp].
  - destruct (decide (PersistedAgent.id p = id)) as [<- | Hne].
    + exists (restored_agent fs liveTerminals p).
      split; [by apply restoreEntry_this | apply restored_agent_at_end].
    + unfold restored_at. by rewrite restoreEntry_other.
  - by rewrite restoreEntry_skipped.
Qed.

Lemma restore_loop_keeps id persisted st :
  restored_at fs id (rs_agents st) →
  restored_at fs id (rs_agents (fold_left (restoreEntry fs liveTerminals) persisted st)).
Proof.
  revert st. induction persisted as [| p' persisted IH]; intros st Hst; [done |].
  simpl. apply IH. by apply restoreEntry_keeps.
Qed.

Lemma restore_loop_adds p persisted st :
  p ∈ persisted →
  restorable liveTerminals p →
  restored_at fs (PersistedAgent.id p)
    (rs_agents (fold_left (restoreEntry fs liveTerminals) persisted st)).
Proof.
  intros Hin Hp. revert st.
  induction persisted as [| p' persisted IH]; intros st;
    [by apply elem_of_nil in Hin |].
  simpl. apply elem_of_cons in Hin as [<- | Hin].
  - apply restore_loop_keeps. exists (restored_agent fs liveTerminals p).
    split; [by apply restoreEntry_this | apply restored_agent_at_end].
  - by apply IH.
Qed.

(** C7. Every persisted entry that [restoreAgents] restores (its provider
    needs no terminal, or a live terminal carries its name) is registered
    under its id with all transient tracking empty: no tools, no
    sub-agent tools, an empty line buffer, and [isWaiting],
    [permissionSent] and [hadToolsInTurn] false; and when the transcript
    file of the registered agent exists, its [fileOffset] is the size of
    that file, so reading resumes at the end of what was written. *)
Theorem restored_agent_starts_at_end_of_file nextHandle r p :
  p ∈ workspaceAgents r →
  restorable liveTerminals p →
  let r' := (restoreAgents fs liveTerminals nextHandle r).1 in
  ∃ agent,
    JsMap.get (PersistedAgent.id p) (agents r') = Some agent ∧
    transient_empty agent ∧
    (∀ size, JsMap.get (jsonlFile agent) fs = Some size → fileOffset agent = size).
Proof.
  intros Hin Hp. unfold restoreAgents.
  destruct (workspaceAgents r) as [| p0 persisted] eqn:Hws;
    [by apply elem_of_nil in Hin |].
  simpl length. cbn [Nat.eqb]. cbv zeta. cbn [fst agents].
  destruct (restore_loop_adds p (p0 :: persisted)
              {| rs_agents := agents r;
                 rs_known := knownJsonlFiles r;
                 rs_jsonlPollTimers := jsonlPollTimers r;
                 rs_maxId := 0; rs_maxIdx := 0;
                 rs_restoredProjectDir := None;
                 rs_nextHandle := nextHandle;
                 rs_trace := [] |} Hin Hp)
    as (agent & Hget & Hempty & Hoff).
  exists agent. done.
Qed.

End RegistryProperties.

(* ================================================================== *)
(** ** Further lemmas on the collections *)

Section MoreCollections.
Context {K V : Type} `{EqDecision K}.
Implicit Types (k : K) (s : list K) (m : list (K * V)).

Lemma set_not_in k v m : k ∉ JsMap.keys m → JsMap.set k v m = m ++ [(k, v)].
Proof.
  unfold JsMap.keys. induction m as [| [k0 v0] m IH]; simpl; [done |].
  rewrite not_elem_of_cons. intros [Hne Hnin].
  rewrite decide_False by congruence. by rewrite IH.
Qed.

Lemma add_not_in k s : k ∉ s → JsSet.add k s = s ++ [k].
Proof.
  intros Hnin. unfold JsSet.add.
  destruct (JsSet.has k s) eqn:E; [| done]. by apply has_true in E.
Qed.

Lemma set_delete_not_in k s : k ∉ s → JsSet.delete k s = s.
Proof.
  unfold JsSet.delete. induction s as [| k0 s IH]; [done |].
  rewrite not_elem_of_cons. intros [Hne Hnin].
  rewrite filter_cons. rewrite decide_True by congruence. by rewrite IH.
Qed.

(** Adding a new element and deleting it again gives the set back. *)
Lemma delete_add k s : k ∉ s → JsSet.delete k (JsSet.add k s) = s.
Proof.
  intros Hnin. rewrite add_not_in by done. unfold JsSet.delete.
  rewrite list.filter_app. fold (JsSet.delete k s).
  rewrite set_delete_not_in by done.
  rewrite filter_cons. rewrite decide_False by (intros Hc; by apply Hc).
  simpl. by rewrite app_nil_r.
Qed.

(** Setting a new key and deleting it again gives the map back. *)
Lemma delete_set k v m : k ∉ JsMap.keys m → JsMap.delete k (JsMap.set k v m) = m.
Proof.
  intros Hnin. rewrite set_not_in by done. unfold JsMap.delete.
  rewrite list.filter_app. fold (JsMap.delete k m).
  rewrite delete_not_in by done.
  rewrite filter_cons. simpl. rewrite decide_False by (intros Hc; by apply Hc).
  by rewrite app_nil_r.
Qed.

Lemma get_Some_elem k v m : JsMap.get k m = Some v → (k, v) ∈ m.
Proof.
  induction m as [| [k0 v0] m IH]; simpl; [done |].
  destruct (decide (k0 = k)) as [-> | Hne].
  - intros [= ->]. left.
  - intros Hget. right. by apply IH.
Qed.

Lemma get_None_keys k m : JsMap.get k m = None ↔ k ∉ JsMap.keys m.
Proof.
  unfold JsMap.keys. induction m as [| [k0 v0] m IH]; simpl.
  - split; [intros _; apply not_elem_of_nil | done].
  - rewrite not_elem_of_cons. destruct (decide (k0 = k)) as [-> | Hne].
    + split; [done | intros [Hc _]; by destruct Hc].
    + rewrite IH. split; [intros Hnin; split; [congruence | done] | by intros [_ ?]].
Qed.

Lemma elem_get_wf k v m : JsMap.wf m → (k, v) ∈ m → JsMap.get k m = Some v.
Proof.
  unfold JsMap.wf, JsMap.keys. induction m as [| [k0 v0] m IH]; simpl.
  - intros _ Hin. by apply elem_of_nil in Hin.
  - rewrite list.NoDup_cons. intros [Hk0 Hnd] Hin.
    apply elem_of_cons in Hin as [[= -> ->] | Hin].
    + by rewrite decide_True.
    + destruct (decide (k0 = k)) as [-> | Hne]; [| by apply IH].
      exfalso. apply Hk0. apply list_elem_of_fmap. by exists (k, v).
Qed.


Lemma elem_of_map_delete k k' v' m :
  (k', v') ∈ JsMap.delete k m ↔ k' ≠ k ∧ (k', v') ∈ m.
Proof. unfold JsMap.delete. rewrite list_elem_of_filter. done. Qed.

End MoreCollections.

(* ================================================================== *)
(** ** Further properties of the parsers *)

Section ParserExtras.
Context {consts : Constants} {nodepath : NodePath} {timers : TimerManager}.
Implicit Types (a : AgentState) (env : Env) (line : jsstring).
Implicit Types (ctx : TranscriptContext) (p : Parser).

(** *** The status text of a shell command *)

Lemma display_command_short cmd :
  (js_length cmd ≤ BASH_COMMAND_DISPLAY_MAX_LENGTH)%nat → display_command cmd = cmd.
Proof.
  intros Hle. unfold display_command.
  by rewrite (proj2 (Nat.ltb_ge _ _) Hle).
Qed.

Lemma display_command_long cmd :
  (BASH_COMMAND_DISPLAY_MAX_LENGTH < js_length cmd)%nat →
  display_command cmd = take BASH_COMMAND_DISPLAY_MAX_LENGTH cmd ++ [8230].
Proof.
  intros Hlt. unfold display_command, js_slice.
  rewrite (proj2 (Nat.ltb_lt _ _) Hlt). by rewrite Nat.sub_0_r.
Qed.

Lemma codex_shell_status record :
  formatCodexToolStatus (str "ExecCommandBegin") record
  = str "Running: " ++ display_command (as_string (prop record "command")).
Proof. unfold formatCodexToolStatus. eval_tests. by rewrite or_else_nil. Qed.

Lemma cursor_shell_status record :
  formatCursorStatus (str "beforeShellExecution") record
  = str "Running: " ++ display_command (as_string (prop record "command")).
Proof. unfold formatCursorStatus. eval_tests. by rewrite or_else_nil. Qed.

(** X1. Both parsers show a shell command the same way, when the [command]
    of the record is a string (or is absent, [null] or [false], which show
    as the empty command): [Running: ] and the command, whole when it has
    at most [BASH_COMMAND_DISPLAY_MAX_LENGTH] code units, and otherwise its
    first [BASH_COMMAND_DISPLAY_MAX_LENGTH] units followed by one ellipsis;
    the status never has more than [9 + BASH_COMMAND_DISPLAY_MAX_LENGTH + 1]
    units. *)
Theorem shell_status_is_bounded record :
  string_typed (prop record "command") = true →
  let cmd := as_string (prop record "command") in
  let shown := formatCodexToolStatus (str "ExecCommandBegin") record in
  formatCursorStatus (str "beforeShellExecution") record = shown ∧
  (js_length shown ≤ 9 + BASH_COMMAND_DISPLAY_MAX_LENGTH + 1)%nat ∧
  ((js_length cmd ≤ BASH_COMMAND_DISPLAY_MAX_LENGTH)%nat ∧
     shown = str "Running: " ++ cmd
   ∨ (BASH_COMMAND_DISPLAY_MAX_LENGTH < js_length cmd)%nat ∧
     shown = str "Running: " ++ take BASH_COMMAND_DISPLAY_MAX_LENGTH cmd ++ [8230] ∧
     js_length shown = (9 + BASH_COMMAND_DISPLAY_MAX_LENGTH + 1)%nat).
Proof.
  intros _ cmd shown. subst shown.
  rewrite cursor_shell_status, codex_shell_status. fold cmd.
  split; [done |].
  destruct (le_lt_dec (js_length cmd) BASH_COMMAND_DISPLAY_MAX_LENGTH) as [Hle | Hlt].
  - rewrite display_command_short by done. split; [| by left].
    unfold js_length in *. rewrite length_app. simpl. lia.
  - rewrite display_command_long by done.
    assert (Hlen : js_length (str "Running: "
                      ++ take BASH_COMMAND_DISPLAY_MAX_LENGTH cmd ++ [8230])
                   = (9 + BASH_COMMAND_DISPLAY_MAX_LENGTH + 1)%nat).
    { unfold js_length in *. rewrite !length_app, length_take. simpl. lia. }
    split; [lia | by right].
Qed.

(** *** Events outside a parser's vocabulary *)

(** X2. A record whose [type] is none of the events a parser handles is
    ignored: the agent is unchanged and nothing is emitted.  In
    particular each parser ignores the other's events. *)
Theorem unhandled_event_is_ignored p env id line t a ctx :
  line_type line = Some t →
  t ∉ handled_events p →
  processLine p env id line a ctx = (a, []).
Proof.
  intros Hlt Hnot.
  destruct (line_type_Some line t Hlt) as (record & _ & Hrec & Htruthy & Hrun).
  destruct (Hrun env id a ctx) as [Hcodex Hcursor].
  destruct p; simpl in *.
  - rewrite Hcodex. unfold processCodexRecord. rewrite Hrec, Htruthy. simpl.
    repeat match goal with
      | |- context [streq t (str ?x)] =>
          let E := fresh "E" in
          destruct (streq t (str x)) eqn:E;
          [ apply streq_true in E; exfalso; apply Hnot; rewrite E;
            unfold codex_events; in_list |]
      end.
    done.
  - rewrite Hcursor. unfold processCursorRecord. rewrite Hrec, Htruthy. simpl.
    repeat match goal with
      | |- context [streq t (str ?x)] =>
          let E := fresh "E" in
          destruct (streq t (str x)) eqn:E;
          [ apply streq_true in E; exfalso; apply Hnot; rewrite E;
            unfold cursor_events; in_list |]
      end.
    done.
Qed.


(** *** What a line of each kind does, in terms of the fields of the line *)

Lemma codex_begin_line env id line a ctx :
  line_type line = Some (str "ExecCommandBegin") →
  processCodexLine env id line a ctx =
  (let toolId := or_else (line_field line "id") (crypto_randomUUID env) in
   let status := str "Running: " ++ display_command (line_field line "command") in
   (set_isWaiting false
      (set_hadToolsInTurn true (track_tool toolId status (str "shell") a)),
    post (webview ctx) (agentStatus id active)
      ++ post (webview ctx) (agentToolStart id toolId status)
      ++ [StartPermissionTimer id CODEX_PERMISSION_EXEMPT])).
Proof.
  intros Hlt.
  destruct (codex_line_type_Some line _ Hlt) as (record & Hparse & Hrec & _ & Hrun).
  rewrite Hrun, !(line_field_record line record _ Hparse).
  unfold processCodexRecord. rewrite Hrec. eval_tests.
  by rewrite codex_shell_status.
Qed.

Lemma codex_end_line env id line a ctx :
  line_type line = Some (str "ExecCommandEnd") →
  processCodexLine env id line a ctx =
  (let toolId := line_field line "id" in
   let closed :=
     if truthy toolId && JsSet.has toolId (activeToolIds a)
     then (untrack_tool toolId a,
           [SetTimeout TOOL_DONE_DELAY_MS (agentToolDone id toolId)])
     else (a, []) in
   (if (JsSet.size (activeToolIds closed.1) =? 0)%nat
    then set_hadToolsInTurn false closed.1 else closed.1,
    closed.2)).
Proof.
  intros Hlt.
  destruct (codex_line_type_Some line _ Hlt) as (record & Hparse & Hrec & _ & Hrun).
  rewrite Hrun, !(line_field_record line record _ Hparse).
  unfold processCodexRecord. rewrite Hrec. eval_tests.
  by destruct (truthy _ && JsSet.has _ _).
Qed.

(** *** Tool ends that match no open tool *)

(** X3. A Codex [ExecCommandEnd] whose [id] is missing, or is not the id of
    an open tool, closes nothing and emits nothing; [hadToolsInTurn] is
    still reset when no tool is open. *)
Theorem codex_end_of_unknown_tool env id line a ctx :
  line_type line = Some (str "ExecCommandEnd") →
  truthy (line_field line "id") = false ∨ line_field line "id" ∉ activeToolIds a →
  let r := processCodexLine env id line a ctx in
  r.2 = [] ∧
  activeToolIds r.1 = activeToolIds a ∧
  activeToolStatuses r.1 = activeToolStatuses a ∧
  activeToolNames r.1 = activeToolNames a ∧
  hadToolsInTurn r.1
  = (if bool_decide (activeToolIds a = []) then false else hadToolsInTurn a).
Proof.
  intros Hlt Hunknown. rewrite codex_end_line by done. cbv zeta.
  assert (Htest : truthy (line_field line "id")
                  && JsSet.has (line_field line "id") (activeToolIds a) = false).
  { destruct Hunknown as [-> | Hnin]; [done |].
    apply andb_false_iff. right. apply not_true_is_false.
    by rewrite has_true. }
  rewrite Htest. cbn [fst snd].
  destruct (JsSet.size (activeToolIds a) =? 0)%nat eqn:Hsz.
  - apply size_zero_nil in Hsz. rewrite Hsz. done.
  - assert (activeToolIds a ≠ []) by (intros Hnil; apply size_zero_nil in Hnil; congruence).
    by rewrite bool_decide_eq_false_2.
Qed.

(** *** A command that starts and ends *)

(** X4. A Codex [ExecCommandBegin] whose [id] and [command] are strings
    where present, followed by the [ExecCommandEnd] with the same id,
    leaves the three tool collections as they were, when that id was not
    open before; the webview is sent [agentStatus active],
    [agentToolStart] and the deferred [agentToolDone] for the id.  A begin
    line with no id takes the UUID the runtime generates. *)
Theorem codex_begin_end_round_trip env1 env2 id b e a w :
  line_type b = Some (str "ExecCommandBegin") →
  typed_line b = true →
  line_type e = Some (str "ExecCommandEnd") →
  let toolId := or_else (line_field b "id") (crypto_randomUUID env1) in
  let status := str "Running: " ++ display_command (line_field b "command") in
  truthy toolId = true →
  line_field e "id" = toolId →
  toolId ∉ activeToolIds a →
  keyset_consistent a →
  let r := processLines processCodexLine id [(env1, b); (env2, e)] a
             {| webview := Some w |} in
  activeToolIds r.1 = activeToolIds a ∧
  activeToolStatuses r.1 = activeToolStatuses a ∧
  activeToolNames r.1 = activeToolNames a ∧
  events r.2 = [PostMessage (agentStatus id active);
                PostMessage (agentToolStart id toolId status);
                SetTimeout TOOL_DONE_DELAY_MS (agentToolDone id toolId)].
Proof.
  intros Hb _ He toolId status Htruthy Hid Hnew [Hs Hn].
  assert (Hns : toolId ∉ JsMap.keys (activeToolStatuses a)) by (by rewrite Hs).
  assert (Hnn : toolId ∉ JsMap.keys (activeToolNames a)) by (by rewrite Hn).
  rewrite processLines_cons. cbv zeta.
  rewrite (codex_begin_line env1 id b a _ Hb). cbv zeta. cbn [fst snd].
  rewrite processLines_cons. cbv zeta.
  rewrite (codex_end_line env2 id e _ _ He). cbv zeta. rewrite Hid.
  fold toolId status. simpl processLines.
  cbn [fst snd activeToolIds set_isWaiting set_hadToolsInTurn track_tool set_tools].
  rewrite Htruthy.
  replace (JsSet.has toolId (JsSet.add toolId (activeToolIds a))) with true
    by (symmetry; apply has_true, elem_of_add; by left).
  cbn [andb fst snd]. unfold untrack_tool.
  cbn [activeToolIds activeToolStatuses activeToolNames set_tools
       set_isWaiting set_hadToolsInTurn track_tool].
  rewrite delete_add, !delete_set by done.
  destruct (JsSet.size (activeToolIds a) =? 0)%nat; by repeat split.
Qed.


(** *** No webview attached *)

Lemma posted_app tr1 tr2 : posted (tr1 ++ tr2) = posted tr1 ++ posted tr2.
Proof. unfold posted. apply omap_app. Qed.

(** Split the posted messages of a trace along its parts, using what is
    known of the part that comes from [clearAgentActivity]. *)
Ltac posted_parts :=
  simpl; rewrite ?posted_app; simpl;
  repeat match goal with
    | H : posted _ = [] |- _ => rewrite H
    end;
  try done.

Lemma codex_record_detached env id record a :
  (∀ a', posted (clearAgentActivity a' id None).2 = []) →
  posted (processCodexRecord env id record a {| webview := None |}).2 = [].
Proof.
  intros Hclr. unfold processCodexRecord. cbn [webview].
  pose proof (Hclr a) as Hc.
  destruct (clearAgentActivity a id None) as [a' cl]. simpl in Hc.
  parser_cases; posted_parts.
Qed.

Lemma cursor_record_detached env id record a :
  (∀ a', posted (clearAgentActivity a' id None).2 = []) →
  posted (processCursorRecord env id record a {| webview := None |}).2 = [].
Proof.
  intros Hclr. unfold processCursorRecord. cbn [webview].
  pose proof (Hclr a) as Hc.
  destruct (clearAgentActivity a id None) as [a' cl]. simpl in Hc.
  parser_cases; posted_parts.
Qed.


(** *** The idle timer and the tools of a turn *)

Lemma codex_text_line env id line a ctx :
  line_type line = Some (str "AgentMessageDelta") →
  processCodexLine env id line a ctx =
  (a, if hadToolsInTurn a then [] else [StartWaitingTimer id TEXT_IDLE_DELAY_MS]).
Proof.
  intros Hlt.
  destruct (codex_line_type_Some line _ Hlt) as (record & _ & Hrec & _ & Hrun).
  rewrite Hrun. unfold processCodexRecord. rewrite Hrec. eval_tests.
  by destruct (hadToolsInTurn a).
Qed.

(** X6. Streamed text ([AgentMessageDelta]) never changes the agent.  While
    a command is running, started by an [ExecCommandBegin] whose [id] and
    [command] are strings where present, it arms no idle timer; once an
    [ExecCommandEnd] has left no tool open, text arms the idle timer
    again, with the delay [TEXT_IDLE_DELAY_MS]. *)
Theorem idle_timer_waits_for_tools env1 env2 env3 id b e d a a' ctx :
  line_type b = Some (str "ExecCommandBegin") →
  typed_line b = true →
  line_type e = Some (str "ExecCommandEnd") →
  line_type d = Some (str "AgentMessageDelta") →
  let running := (processCodexLine env1 id b a ctx).1 in
  let ended := (processCodexLine env2 id e a' ctx).1 in
  processCodexLine env3 id d running ctx = (running, []) ∧
  (activeToolIds ended = [] →
   processCodexLine env3 id d ended ctx
   = (ended, [StartWaitingTimer id TEXT_IDLE_DELAY_MS])).
Proof.
  intros Hb _ He Hd running ended. rewrite !(codex_text_line _ _ d) by done.
  split.
  - subst running. by rewrite (codex_begin_line env1 id b a ctx Hb).
  - intros Hnone. replace (hadToolsInTurn ended) with false; [done |].
    subst ended. revert Hnone. rewrite (codex_end_line env2 id e a' ctx He).
    cbv zeta. cbn [fst].
    destruct (JsSet.size _ =? 0)%nat eqn:Hsz; [done |].
    intros Hnil. apply size_zero_nil in Hnil. congruence.
Qed.

(** *** Cursor tool ends *)

Lemma cursor_end_line env id line a ctx event kind :
  line_type line = Some event →
  cursor_end_kind event = Some kind →
  processCursorLine env id line a ctx =
  (let matched := default [] (findToolByName kind (activeToolNames a)) in
   let closed :=
     if truthy matched then
       (untrack_tool matched a,
        [SetTimeout TOOL_DONE_DELAY_MS (agentToolDone id matched)])
     else if streq event (str "afterFileEdit") then
       (set_hadToolsInTurn true a,
        post (webview ctx)
          (agentToolStart id (generateToolId env)
             (str "Editing " ++ path_basename (line_field line "file_path")))
          ++ [SetTimeout TOOL_DONE_DELAY_MS (agentToolDone id (generateToolId env))])
     else (a, []) in
   (if (JsSet.size (activeToolIds closed.1) =? 0)%nat
    then set_hadToolsInTurn false closed.1 else closed.1,
    closed.2)).
Proof.
  intros Hlt Hkind.
  destruct (line_type_Some line event Hlt) as (record & Hparse & Hrec & _ & Hrun).
  destruct (Hrun env id a ctx) as [_ ->].
  rewrite (line_field_record line record _ Hparse).
  unfold processCursorRecord. rewrite Hrec.
  destruct (cursor_end_kind_cases event kind Hkind)
    as [[-> ->] | [[-> ->] | [-> ->]]]; eval_tests.
  all: destruct (truthy (default [] _)); try done.
  unfold formatCursorStatus. eval_tests. by rewrite or_else_nil.
Qed.

(** X7. A Cursor [afterShellExecution] or [afterMCPExecution] that finds no
    open tool of its kind closes nothing and emits nothing. *)
Theorem cursor_end_without_open_tool env id line a ctx event kind :
  line_type line = Some event →
  cursor_end_kind event = Some kind →
  event ≠ str "afterFileEdit" →
  (∀ toolId, (toolId, kind) ∉ activeToolNames a) →
  let r := processCursorLine env id line a ctx in
  r.2 = [] ∧
  activeToolIds r.1 = activeToolIds a ∧
  activeToolStatuses r.1 = activeToolStatuses a ∧
  activeToolNames r.1 = activeToolNames a ∧
  hadToolsInTurn r.1
  = (if bool_decide (activeToolIds a = []) then false else hadToolsInTurn a).
Proof.
  intros Hlt Hkind Hnot Hnone.
  rewrite (cursor_end_line env id line a ctx event kind) by done. cbv zeta.
  rewrite (findToolByName_None _ _ Hnone). cbn [default truthy].
  replace (streq event (str "afterFileEdit")) with false
    by (symmetry; apply not_true_is_false; by rewrite streq_true).
  cbn [fst snd].
  destruct (JsSet.size (activeToolIds a) =? 0)%nat eqn:Hsz.
  - apply size_zero_nil in Hsz. rewrite Hsz. done.
  - assert (activeToolIds a ≠ [])
      by (intros Hnil; apply size_zero_nil in Hnil; congruence).
    by rewrite bool_decide_eq_false_2.
Qed.


(** *** Generated tool ids *)

Lemma uint_units_digits u c : c ∈ uint_units u → 48 ≤ c ≤ 57.
Proof.
  induction u; simpl; [by intros ?%elem_of_nil | ..].
  all: intros [-> | Hin]%elem_of_cons; [unfold digit_unit; lia | by apply IHu].
Qed.

Lemma uint_units_inj u v : uint_units u = uint_units v → u = v.
Proof.
  revert v. induction u; destruct v; simpl; unfold digit_unit; simpl;
    try discriminate; try done.
  all: intros [= H]; f_equal; by apply IHu.
Qed.

Lemma decimal_inj n m : decimal n = decimal m → n = m.
Proof.
  unfold decimal. intros H%uint_units_inj.
  by apply DecimalN.Unsigned.to_uint_inj.
Qed.

(** Two texts that agree up to and including the first separator agree on
    what stands before it. *)
Lemma before_separator (sep : N) (d1 d2 s1 s2 : jsstring) :
  sep ∉ d1 → sep ∉ d2 → d1 ++ sep :: s1 = d2 ++ sep :: s2 → d1 = d2.
Proof.
  revert d2. induction d1 as [| c d1 IH]; intros [| c' d2]; simpl.
  - done.
  - intros _ Hn [= -> _]. exfalso. apply Hn. left.
  - intros Hn _ [= -> _]. exfalso. apply Hn. left.
  - rewrite !not_elem_of_cons. intros [_ H1] [_ H2] [= -> Heq].
    f_equal. by apply IH.
Qed.

(** X8. The ids [generateToolId] builds at different readings of the clock
    are different, whatever the random parts are. *)
Theorem generated_tool_ids_differ env1 env2 :
  Date_now env1 ≠ Date_now env2 →
  generateToolId env1 ≠ generateToolId env2.
Proof.
  intros Hclock Heq. apply Hclock, decimal_inj.
  unfold generateToolId in Heq. apply app_inv_head in Heq.
  assert (Hdash : ∀ n, 45 ∉ decimal n).
  { intros n Hin. apply uint_units_digits in Hin. lia. }
  by apply (before_separator 45 _ _ _ _ (Hdash _) (Hdash _) Heq).
Qed.

(** *** A Cursor tool that starts and ends *)

Lemma cursor_start_kind_cases event kind :
  cursor_start_kind event = Some kind →
  (event = str "beforeShellExecution" ∧ kind = str "Bash") ∨
  (event = str "beforeReadFile" ∧ kind = str "Read") ∨
  (event = str "beforeMCPExecution" ∧ kind = str "MCP").
Proof.
  unfold cursor_start_kind.
  destruct (streq event (str "beforeShellExecution")) eqn:E1;
    [apply streq_true in E1; intros [= <-]; auto |].
  destruct (streq event (str "beforeReadFile")) eqn:E2;
    [apply streq_true in E2; intros [= <-]; auto |].
  destruct (streq event (str "beforeMCPExecution")) eqn:E3;
    [apply streq_true in E3; intros [= <-]; auto | done].
Qed.

Lemma cursor_start_line env id line event kind :
  line_type line = Some event →
  cursor_start_kind event = Some kind →
  ∃ status, ∀ a ctx,
    processCursorLine env id line a ctx =
    (set_isWaiting false
       (set_hadToolsInTurn true (track_tool (generateToolId env) status kind a)),
     post (webview ctx) (agentStatus id active)
       ++ post (webview ctx) (agentToolStart id (generateToolId env) status)
       ++ [StartPermissionTimer id CURSOR_PERMISSION_EXEMPT]).
Proof.
  intros Hlt Hkind.
  destruct (line_type_Some line event Hlt) as (record & _ & Hrec & _ & Hrun).
  exists (formatCursorStatus event record). intros a ctx.
  destruct (Hrun env id a ctx) as [_ ->].
  unfold processCursorRecord. rewrite Hrec.
  destruct (cursor_start_kind_cases event kind Hkind)
    as [[-> ->] | [[-> ->] | [-> ->]]]; by eval_tests.
Qed.

(** X9. A Cursor tool-start line whose [command], [file_path] and
    [tool_name] are strings where present, followed by the tool-end line
    of the same kind, leaves the three tool collections as they were, when
    no tool of that kind was open and the generated id is new; the webview
    is sent [agentStatus active], [agentToolStart] and the deferred
    [agentToolDone] for that id. *)
Theorem cursor_start_end_round_trip env1 env2 id b e a w started ended kind :
  line_type b = Some started →
  typed_line b = true →
  cursor_start_kind started = Some kind →
  line_type e = Some ended →
  cursor_end_kind ended = Some kind →
  let toolId := generateToolId env1 in
  toolId ∉ activeToolIds a →
  keyset_consistent a →
  (∀ t, (t, kind) ∉ activeToolNames a) →
  let r := processLines processCursorLine id [(env1, b); (env2, e)] a
             {| webview := Some w |} in
  activeToolIds r.1 = activeToolIds a ∧
  activeToolStatuses r.1 = activeToolStatuses a ∧
  activeToolNames r.1 = activeToolNames a ∧
  ∃ status,
    events r.2 = [PostMessage (agentStatus id active);
                  PostMessage (agentToolStart id toolId status);
                  SetTimeout TOOL_DONE_DELAY_MS (agentToolDone id toolId)].
Proof.
  intros Hb _ Hstart He Hend toolId Hnew [Hs Hn] Hnone.
  assert (Hns : toolId ∉ JsMap.keys (activeToolStatuses a)) by (by rewrite Hs).
  assert (Hnn : toolId ∉ JsMap.keys (activeToolNames a)) by (by rewrite Hn).
  destruct (cursor_start_line env1 id b started kind Hb Hstart) as [status Hrun].
  rewrite processLines_cons. cbv zeta. rewrite Hrun. cbn [fst snd].
  rewrite processLines_cons. cbv zeta.
  rewrite (cursor_end_line env2 id e _ _ ended kind He Hend). cbv zeta.
  change (processLines processCursorLine id [] ?x ?c) with (x, @nil Effect).
  fold toolId.
  cbn [activeToolIds activeToolStatuses activeToolNames set_tools
       set_isWaiting set_hadToolsInTurn track_tool].
  rewrite (set_not_in toolId kind (activeToolNames a) Hnn).
  rewrite findToolByName_first
    by (intros [t n] Hin Heq; simpl in Heq; subst n; by apply (Hnone t)).
  change (default [] (Some toolId)) with toolId.
  replace (truthy toolId) with true by done.
  unfold untrack_tool.
  cbn [fst snd activeToolIds activeToolStatuses activeToolNames set_tools
       set_isWaiting set_hadToolsInTurn track_tool].
  rewrite delete_add, !delete_set by done.
  destruct (JsSet.size (activeToolIds a) =? 0)%nat;
    (split_and!; [done | done | done | by exists status]).
Qed.

(** *** Whom the calls of a parser concern *)

(** Decompose membership in a trace given by its parts. *)
Ltac trace_cases H :=
  simpl in H;
  repeat first [ rewrite elem_of_app in H | rewrite elem_of_cons in H
               | rewrite elem_of_nil in H ];
  repeat match goal with
    | D : _ ∨ _ |- _ => destruct D
    | F : False |- _ => destruct F
    end;
  subst; simpl; auto.

Lemma codex_record_concerns env id record a ctx e :
  e ∈ (processCodexRecord env id record a ctx).2 →
  e ∈ (clearAgentActivity a id (webview ctx)).2 ∨ effect_agent e = Some id.
Proof.
  unfold processCodexRecord. destruct (webview ctx); simpl.
  all: destruct (clearAgentActivity a id _) as [a' cl]; simpl.
  all: parser_cases; intros Hin; trace_cases Hin.
Qed.

Lemma cursor_record_concerns env id record a ctx e :
  e ∈ (processCursorRecord env id record a ctx).2 →
  e ∈ (clearAgentActivity a id (webview ctx)).2 ∨ effect_agent e = Some id.
Proof.
  unfold processCursorRecord. destruct (webview ctx); simpl.
  all: destruct (clearAgentActivity a id _) as [a' cl]; simpl.
  all: parser_cases; intros Hin; trace_cases Hin.
Qed.

(** X10. Every call a parser makes while it processes a line for agent [id]
    concerns that agent: each message it posts or defers carries [id], and
    each timer it starts or cancels is the one of [id].  (What
    [clearAgentActivity] does is the timer manager's.) *)
Theorem parser_calls_concern_the_agent p env id line a ctx e :
  e ∈ (processLine p env id line a ctx).2 →
  e ∈ (clearAgentActivity a id (webview ctx)).2 ∨ effect_agent e = Some id.
Proof.
  destruct (line_type line) as [t |] eqn:Hlt.
  - destruct (line_type_Some line t Hlt) as (record & _ & _ & _ & Hrun).
    destruct (Hrun env id a ctx) as [Hcodex Hcursor].
    destruct p; simpl.
    + rewrite Hcodex. apply codex_record_concerns.
    + rewrite Hcursor. apply cursor_record_concerns.
  - destruct (line_type_None env id line a ctx Hlt) as [Hcodex Hcursor].
    destruct p; simpl; [rewrite Hcodex | rewrite Hcursor];
      by intros ?%elem_of_nil.
Qed.


(** *** Tools reported done *)

Lemma findToolByName_Some kind toolId (names : list (jsstring * jsstring)) :
  findToolByName kind names = Some toolId → toolId ∈ JsMap.keys names.
Proof.
  unfold JsMap.keys. induction names as [| [k n] names IH]; simpl; [done |].
  destruct (streq n kind).
  - intros [= ->]. left.
  - intros Hfind. right. by apply IH.
Qed.

Ltac deferred_cases H :=
  simpl in H;
  repeat first [ rewrite elem_of_app in H | rewrite elem_of_cons in H
               | rewrite elem_of_nil in H ];
  repeat match goal with
    | D : _ ∨ _ |- _ => destruct D
    | F : False |- _ => destruct F
    end;
  try discriminate; auto;
  repeat match goal with
    | E : SetTimeout _ _ = SetTimeout _ _ |- _ => injection E as -> ->
    end.

Lemma truthy_false (s : jsstring) : truthy s = false → s = [].
Proof. by destruct s. Qed.

Lemma codex_record_done env id record a ctx d m :
  SetTimeout d m ∈ (processCodexRecord env id record a ctx).2 →
  SetTimeout d m ∈ (clearAgentActivity a id (webview ctx)).2 ∨
  (d = TOOL_DONE_DELAY_MS ∧
   ∃ toolId, m = agentToolDone id toolId ∧
     as_string (prop record "type") = str "ExecCommandEnd" ∧
     toolId = as_string (prop record "id") ∧
     toolId ∈ activeToolIds a ∧
     toolId ∉ activeToolIds (processCodexRecord env id record a ctx).1).
Proof.
  unfold processCodexRecord. destruct (webview ctx); simpl.
  all: destruct (clearAgentActivity a id _) as [a' cl]; simpl.
  all: parser_cases; intros Hin; deferred_cases Hin.
  all: right; split; [done |]; eexists; split; [done |].
  all: match goal with
       | T : _ && JsSet.has _ _ = true |- _ =>
           apply andb_true_iff in T as [_ T%has_true]
       end.
  all: match goal with
       | E : streq _ (str "ExecCommandEnd") = true |- _ => apply streq_true in E
       end.
  all: split_and!; [done | done | done |]; simpl; rewrite elem_of_delete; tauto.
Qed.

Lemma cursor_record_done env id record a ctx d m :
  SetTimeout d m ∈ (processCursorRecord env id record a ctx).2 →
  SetTimeout d m ∈ (clearAgentActivity a id (webview ctx)).2 ∨
  (d = TOOL_DONE_DELAY_MS ∧
   ∃ toolId kind, m = agentToolDone id toolId ∧
     cursor_end_kind (as_string (prop record "type")) = Some kind ∧
     ((findToolByName kind (activeToolNames a) = Some toolId ∧
       toolId ∈ JsMap.keys (activeToolNames a) ∧
       toolId ∉ activeToolIds (processCursorRecord env id record a ctx).1)
      ∨ (as_string (prop record "type") = str "afterFileEdit" ∧
         default [] (findToolByName kind (activeToolNames a)) = [] ∧
         toolId = generateToolId env))).
Proof.
  unfold processCursorRecord, cursor_end_kind. destruct (webview ctx); simpl.
  all: destruct (clearAgentActivity a id _) as [a' cl]; simpl.
  all: parser_cases; intros Hin; deferred_cases Hin.
  all: right; split; [done |]; eexists _, _; split; [done |]; split; [done |].
  all: try match goal with
       | T : truthy (default [] (findToolByName ?k ?n)) = false |- _ =>
           right; apply truthy_false in T;
           match goal with
           | E : streq _ (str "afterFileEdit") = true |- _ => apply streq_true in E
           end;
           by split_and!
       end.
  all: left.
  all: match goal with
       | T : truthy (default [] (findToolByName ?k ?n)) = true |- _ =>
           destruct (findToolByName k n) as [t |] eqn:Hfind; [| done];
           pose proof (findToolByName_Some _ _ _ Hfind)
       end.
  all: split_and!; [done | done |]; simpl; rewrite elem_of_delete; tauto.
Qed.

(** X11. A parser defers an [agentToolDone] only on a tool-end line, for
    the tool that line closes: the tool was tracked when the line arrived
    and is no longer open afterwards; the delay is always
    [TOOL_DONE_DELAY_MS].  The one exception is the Cursor [afterFileEdit]
    that is matched with no open tool, which is reported done under the id
    generated for it. *)
Theorem done_only_for_tracked_tools p env id line a ctx d m :
  SetTimeout d m ∈ (processLine p env id line a ctx).2 →
  SetTimeout d m ∈ (clearAgentActivity a id (webview ctx)).2 ∨
  (d = TOOL_DONE_DELAY_MS ∧
   done_for p env id line a (processLine p env id line a ctx).1 m).
Proof.
  destruct (line_type line) as [t |] eqn:Hlt.
  - destruct (line_type_Some line t Hlt) as (record & Hparse & Hrec & _ & Hrun).
    destruct (Hrun env id a ctx) as [Hcodex Hcursor].
    destruct p; simpl.
    + rewrite Hcodex. intros Hin.
      destruct (codex_record_done env id record a ctx d m Hin)
        as [Hclr | (Hd & toolId & Hm & Hty & Hid & Hopen & Hclosed)];
        [by left | right].
      split; [done |]. exists toolId. split; [done |].
      rewrite (line_field_record line record "id" Hparse).
      split_and!; try done. congruence.
    + rewrite Hcursor. intros Hin.
      destruct (cursor_record_done env id record a ctx d m Hin)
        as [Hclr | (Hd & toolId & kind & Hm & Hkind & Hcase)];
        [by left | right].
      split; [done |]. exists toolId. split; [done |].
      exists t, kind. rewrite Hrec in Hkind, Hcase. by split_and!.
  - destruct (line_type_None env id line a ctx Hlt) as [Hcodex Hcursor].
    destruct p; simpl; [rewrite Hcodex | rewrite Hcursor];
      by intros ?%elem_of_nil.
Qed.

(** *** Turn ends *)

Lemma turn_end_line p env id line a ctx :
  turn_end p line →
  processLine p env id line a ctx =
  (let cleared :=
     if (0 <? JsSet.size (activeToolIds a))%nat
     then (clear_tool_tracking a, post (webview ctx) (agentToolsClear id))
     else (a, []) in
   (set_hadToolsInTurn false (set_permissionSent false (set_isWaiting true cleared.1)),
    [CancelWaitingTimer id; CancelPermissionTimer id] ++ cleared.2
      ++ post (webview ctx) (agentStatus id waiting))).
Proof.
  intros Hend. destruct p; simpl in Hend |- *.
  - destruct (line_type_Some line _ Hend) as (record & _ & Hrec & _ & Hrun).
    destruct (Hrun env id a ctx) as [-> _].
    unfold processCodexRecord. rewrite Hrec. eval_tests.
    by destruct (0 <? JsSet.size (activeToolIds a))%nat.
  - assert (∃ t, line_type line = Some t ∧
                 (t = str "afterAgentResponse" ∨ t = str "stop"))
      as (t & Hlt & Ht) by (destruct Hend; eauto).
    destruct (line_type_Some line t Hlt) as (record & _ & Hrec & _ & Hrun).
    destruct (Hrun env id a ctx) as [_ ->].
    unfold processCursorRecord. rewrite Hrec.
    destruct Ht as [-> | ->]; eval_tests.
    all: by destruct (0 <? JsSet.size (activeToolIds a))%nat.
Qed.

(** X12. A turn end is idempotent: a second turn-end line, processed right
    after the first, leaves the agent as the first left it and only
    repeats the timer cancellations and the [agentStatus waiting]
    message; it sends no [agentToolsClear]. *)
Theorem turn_end_twice p env1 env2 id line1 line2 a ctx :
  turn_end p line1 →
  turn_end p line2 →
  let r1 := processLine p env1 id line1 a ctx in
  let r2 := processLine p env2 id line2 r1.1 ctx in
  r2.1 = r1.1 ∧
  r2.2 = [CancelWaitingTimer id; CancelPermissionTimer id]
           ++ post (webview ctx) (agentStatus id waiting).
Proof.
  intros H1 H2. cbv zeta.
  rewrite (turn_end_line p env2 id line2 _ ctx H2).
  rewrite (turn_end_line p env1 id line1 a ctx H1). cbv zeta.
  destruct (0 <? JsSet.size (activeToolIds a))%nat eqn:Hsz; cbn [fst snd].
  - done.
  - cbn [activeToolIds set_hadToolsInTurn set_permissionSent set_isWaiting].
    rewrite Hsz. done.
Qed.

End ParserExtras.

(* ================================================================== *)
(** ** Properties of the provider registry and the provider objects *)

Section ProviderProperties.
Context {host : Host} {names : ProviderConstants}.

Lemma keys_set_present {K V} `{EqDecision K} (k : K) (v : V) (m : list (K * V)) :
  k ∈ JsMap.keys m → JsMap.keys (JsMap.set k v m) = JsMap.keys m.
Proof.
  unfold JsMap.keys. induction m as [| [k0 v0] m IH]; simpl.
  - by intros ?%elem_of_nil.
  - destruct (decide (k0 = k)) as [-> | Hne]; [done |].
    intros [-> | Hin]%elem_of_cons; [done |]. simpl. f_equal. by apply IH.
Qed.

Lemma builtin_complete : providers_complete builtin_providers.
Proof.
  split; [done |]. intros id provider. unfold builtin_providers. simpl.
  repeat case_decide; intros [= <-]; by subst.
Qed.

Lemma registerProvider_complete provider m :
  providers_complete m → providers_complete (registerProvider provider m).
Proof.
  intros [Hkeys Hids]. unfold registerProvider. split.
  - rewrite keys_set_present; [done |]. rewrite Hkeys.
    destruct (AgentProvider.id provider); in_list.
  - intros id p.
    destruct (decide (AgentProvider.id provider = id)) as [<- | Hne].
    + rewrite get_set_eq. by intros [= <-].
    + rewrite get_set_ne by done. apply Hids.
Qed.

(** X13. Whatever providers are registered on top of the three built-in
    ones, [getProvider] never throws: every provider id has an entry, the
    provider found under an id carries that id, and [getAllProviders]
    lists exactly three providers, for [claude], [codex] and [cursor] in
    this order.  Registering replaces an entry and never adds one. *)
Theorem providers_stay_complete (registered : list AgentProvider.t) :
  let providers := registerAll registered builtin_providers in
  (∀ id, ∃ provider,
     getProvider id providers = Some provider ∧ AgentProvider.id provider = id) ∧
  AgentProvider.id <$> getAllProviders providers = [claude; codex; cursor].
Proof.
  cbv zeta.
  assert (Hok : providers_complete (registerAll registered builtin_providers)).
  { unfold registerAll. generalize builtin_complete.
    generalize builtin_providers as m.
    induction registered as [| provider registered IH]; intros m Hm; [done |].
    simpl. apply IH. by apply registerProvider_complete. }
  destruct Hok as [Hkeys Hids].
  set (m := registerAll registered builtin_providers) in *.
  assert (Hfind : ∀ id, ∃ provider,
             getProvider id m = Some provider ∧ AgentProvider.id provider = id).
  { intros id. unfold getProvider.
    destruct (JsMap.get id m) as [provider |] eqn:Hget.
    - exists provider. split; [done | by apply Hids].
    - exfalso. apply get_None_keys in Hget. apply Hget. rewrite Hkeys.
      destruct id; in_list. }
  split; [exact Hfind |].
  unfold getAllProviders, JsMap.values. revert Hkeys Hids. unfold JsMap.keys.
  destruct m as [| [k1 p1] [| [k2 p2] [| [k3 p3] [| ? ?]]]]; try done.
  simpl. intros [= -> -> ->] Hids.
  rewrite (Hids claude p1), (Hids codex p2), (Hids cursor p3); [done | ..].
  all: simpl; by repeat case_decide.
Qed.

(** *** Paths and providers *)

Lemma starts_with_spec (search s : jsstring) :
  starts_with search s = true ↔ ∃ rest, s = search ++ rest.
Proof.
  revert s. induction search as [| c search IH]; intros s; simpl.
  - split; [intros _; by exists s | done].
  - destruct s as [| c' s].
    + split; [done | by intros [rest [=]]].
    + rewrite andb_true_iff, IH, N.eqb_eq. split.
      * intros [-> [rest ->]]. by exists rest.
      * intros [rest [= -> ->]]. split; [done | by exists rest].
Qed.

(** [js_includes search s] holds exactly when [search] occurs in [s]. *)
Lemma js_includes_spec (search s : jsstring) :
  js_includes search s = true ↔ ∃ before after, s = before ++ search ++ after.
Proof.
  induction s as [| c s IH]; simpl.
  - rewrite orb_false_r, starts_with_spec. split.
    + intros [rest ->]. by exists [], rest.
    + intros [[| ? ?] [after Heq]]; [by exists after | done].
  - rewrite orb_true_iff, starts_with_spec, IH. split.
    + intros [[rest ->] | (before & after & ->)].
      * by exists [], rest.
      * by exists (c :: before), after.
    + intros [[| c' before] [after Heq]].
      * left. by exists after.
      * right. injection Heq as -> ->. by exists before, after.
Qed.

(** X14. [inferProviderFromPath] answers [codex] exactly for the paths that
    contain [.codex] somewhere, also when they contain [.cursor] as well;
    it answers [cursor] exactly for the paths that contain [.cursor] and
    no [.codex]; every other path is a Claude path. *)
Theorem infer_provider_from_path (filePath : jsstring) :
  let within (part : jsstring) :=
    ∃ before after, filePath = before ++ part ++ after in
  (inferProviderFromPath filePath = codex ↔ within (str ".codex")) ∧
  (inferProviderFromPath filePath = cursor
   ↔ ¬ within (str ".codex") ∧ within (str ".cursor")) ∧
  (inferProviderFromPath filePath = claude
   ↔ ¬ within (str ".codex") ∧ ¬ within (str ".cursor")).
Proof.
  cbv zeta. rewrite <- !js_includes_spec. unfold inferProviderFromPath.
  destruct (js_includes (str ".codex") filePath);
    destruct (js_includes (str ".cursor") filePath);
    split_and!; split; try done; try (by intros [? ?]); intros _; by split.
Qed.

(** X15. The directory name the Claude provider derives from a working
    directory has the length of the path and no colon, solidus or reverse
    solidus; deriving it is idempotent, and it does not tell a separator
    from a hyphen: two working directories that differ in that way are
    given the same project directory. *)
Theorem claude_dirName_merges_separators (x y : jsstring) (workspaceFolder : option jsstring) :
  length (claude_dirName x) = length x ∧
  Forall (λ c, c ≠ 58 ∧ c ≠ 92 ∧ c ≠ 47) (claude_dirName x) ∧
  claude_dirName (claude_dirName x) = claude_dirName x ∧
  AgentProvider.getProjectDir claudeProvider (Some (x ++ str "/" ++ y)) workspaceFolder
  = AgentProvider.getProjectDir claudeProvider (Some (x ++ str "-" ++ y)) workspaceFolder.
Proof.
  assert (Hone : ∀ c : N,
            let c' := if (c =? 58) || (c =? 92) || (c =? 47) then 45 else c in
            (c' ≠ 58 ∧ c' ≠ 92 ∧ c' ≠ 47) ∧
            (if (c' =? 58) || (c' =? 92) || (c' =? 47) then 45 else c') = c').
  { intros c. cbv zeta.
    destruct (c =? 58) eqn:E1; [done |].
    destruct (c =? 92) eqn:E2; [done |].
    destruct (c =? 47) eqn:E3; [done |].
    simpl. rewrite E1, E2, E3. simpl.
    apply N.eqb_neq in E1, E2, E3. done. }
  unfold claude_dirName. split_and!.
  - apply length_map.
  - apply Forall_fmap, Forall_true. intros c. apply (Hone c).
  - rewrite <- list_fmap_compose. apply list_fmap_ext. intros _ c _. simpl.
    apply (Hone c).
  - simpl. unfold first_truthy, claude_projectDir, claude_dirName.
    assert (Ht : ∀ sep, truthy (x ++ sep :: y) = true) by (intros; by destruct x).
    change (str "/" ++ y) with (47 :: y). change (str "-" ++ y) with (45 :: y).
    rewrite !Ht, !map_app. done.
Qed.

(** X16. For each of the three built-in providers, the directory
    [launchTerminal] returns for a working directory is the one
    [getProjectDir] gives for that directory: the directory that is
    scanned is the one the launched session writes to. *)
Theorem launch_dir_is_project_dir provider env terminal cwd result sent workspaceFolder :
  provider ∈ [claudeProvider; codexProvider; cursorProvider] →
  truthy cwd = true →
  AgentProvider.launchTerminal provider env terminal cwd = (Some result, sent) →
  AgentProvider.getProjectDir provider (Some cwd) workspaceFolder
  = Some (launched_projectDir result).
Proof.
  intros Hin Hcwd.
  rewrite !elem_of_cons, elem_of_nil in Hin.
  destruct Hin as [-> | [-> | [-> | []]]]; simpl; unfold first_truthy; rewrite ?Hcwd.
  - destruct terminal; [| done]. by intros [= <- _].
  - destruct terminal; [| done]. by intros [= <- _].
  - by intros [= <- _].
Qed.

End ProviderProperties.

(* ================================================================== *)
(** ** Further properties of the agent manager *)

Section MapFacts.
Context {K V : Type} `{EqDecision K}.
Implicit Types (k : K) (m : list (K * V)).

Lemma wf_set_any k (v : V) m : JsMap.wf m → JsMap.wf (JsMap.set k v m).
Proof.
  unfold JsMap.wf, JsMap.keys. induction m as [| [k0 v0] m IH]; simpl.
  - intros _. apply NoDup_singleton.
  - rewrite list.NoDup_cons. intros [Hk0 Hm].
    destruct (decide (k0 = k)) as [-> | Hne]; simpl.
    + by apply list.NoDup_cons.
    + apply list.NoDup_cons. split; [| by apply IH].
      intros Hin. apply (keys_set k k0 v m) in Hin as [Heq | Hin]; by auto.
Qed.

Lemma wf_delete_any k m : JsMap.wf m → JsMap.wf (JsMap.delete k m).
Proof.
  unfold JsMap.wf, JsMap.keys, JsMap.delete.
  induction m as [| [k0 v0] m IH]; simpl; [done |].
  rewrite list.NoDup_cons. intros [Hk0 Hm]. rewrite filter_cons. simpl.
  destruct (decide (k0 ≠ k)); [| by apply IH].
  simpl. apply list.NoDup_cons. split; [| by apply IH].
  intros Hin. apply Hk0. by apply (keys_delete k k0 m) in Hin as [_ Hin].
Qed.

Lemma elem_of_set k (v : V) k' v' m :
  (k', v') ∈ JsMap.set k v m → (k' = k ∧ v' = v) ∨ (k', v') ∈ m.
Proof.
  induction m as [| [k0 v0] m IH]; simpl.
  - intros [= -> ->]%list_elem_of_singleton. by left.
  - destruct (decide (k0 = k)) as [-> | Hne].
    + intros [[= -> ->] | Hin]%elem_of_cons; [by left | right; by right].
    + intros [[= -> ->] | Hin]%elem_of_cons; [right; left |].
      destruct (IH Hin) as [? | ?]; [by left | right; by right].
Qed.

Lemma keys_delete_filter k m :
  JsMap.keys (JsMap.delete k m) = JsSet.delete k (JsMap.keys m).
Proof.
  unfold JsMap.keys, JsMap.delete, JsSet.delete.
  induction m as [| [k0 v0] m IH]; [done |].
  rewrite fmap_cons, !filter_cons. simpl.
  destruct (decide (k0 ≠ k)); simpl; [f_equal |]; apply IH.
Qed.

Lemma delete_absent k m : JsMap.get k m = None → JsMap.delete k m = m.
Proof. intros Hget. apply delete_not_in. by apply get_None_keys. Qed.

End MapFacts.

Section ManagerProperties.
Context {consts : Constants} {timers : TimerManager}.
Implicit Types (r : Registry) (p : PersistedAgent.t) (vp : ViewProvider).

(** *** What is persisted *)

Lemma persisted_ids (ags : list (N * AgentState)) :
  (∀ k a, (k, a) ∈ ags → agent_id a = k) →
  PersistedAgent.id <$> persistAgents ags = JsMap.keys ags.
Proof.
  unfold persistAgents, JsMap.values, JsMap.keys.
  induction ags as [| [k a] ags IH]; intros Hids; [done |].
  simpl. f_equal.
  - apply Hids. left.
  - apply IH. intros k' a' Hin. apply Hids. by right.
Qed.

(** *** Removing an agent *)

Lemma removeAgent_agents agentId r :
  agents (removeAgent agentId r).1 = JsMap.delete agentId (agents r).
Proof.
  unfold removeAgent. destruct (JsMap.get agentId (agents r)) eqn:Hget.
  - by destruct (cancelWaitingTimer _ _), (cancelPermissionTimer _ _).
  - simpl. by rewrite delete_absent.
Qed.

Lemma registry_ok_delete agentId r r' :
  agents r' = JsMap.delete agentId (agents r) →
  nextAgentId r' = nextAgentId r →
  registry_ok r → registry_ok r'.
Proof.
  intros Hags Hnext (Hwf & Hids & Hlt). unfold registry_ok.
  rewrite Hags, Hnext. split_and!.
  - by apply wf_delete_any.
  - intros k a [_ Hin]%elem_of_map_delete. by apply Hids.
  - intros k [_ Hin]%keys_delete. by apply Hlt.
Qed.

Lemma removeAgent_ok agentId r : registry_ok r → registry_ok (removeAgent agentId r).1.
Proof.
  apply (registry_ok_delete agentId); [apply removeAgent_agents |].
  unfold removeAgent. destruct (JsMap.get agentId (agents r)); [| done].
  by destruct (cancelWaitingTimer _ _), (cancelPermissionTimer _ _).
Qed.

(** X17. After a registered agent is removed, the persisted list holds
    exactly the agents that remain, in the order of the map, and none with
    the removed id; no other agent loses its entry, its file watcher, its
    polling timer or its JSONL poll timer. *)
Theorem removeAgent_forgets_only_that_agent agentId r agent :
  registry_ok r →
  JsMap.get agentId (agents r) = Some agent →
  let r' := (removeAgent agentId r).1 in
  (PersistedAgent.id <$> workspaceAgents r')
  = JsSet.delete agentId (JsMap.keys (agents r)) ∧
  (agentId ∉ PersistedAgent.id <$> workspaceAgents r') ∧
  ∀ k, k ≠ agentId →
    JsMap.get k (agents r') = JsMap.get k (agents r) ∧
    JsMap.get k (fileWatchers r') = JsMap.get k (fileWatchers r) ∧
    JsMap.get k (pollingTimers r') = JsMap.get k (pollingTimers r) ∧
    JsMap.get k (jsonlPollTimers r') = JsMap.get k (jsonlPollTimers r).
Proof.
  intros (Hwf & Hids & _) Hreg. cbv zeta.
  assert (Hpersisted :
    PersistedAgent.id <$> workspaceAgents (removeAgent agentId r).1
    = JsSet.delete agentId (JsMap.keys (agents r))).
  { unfold removeAgent. rewrite Hreg.
    destruct (cancelWaitingTimer _ _), (cancelPermissionTimer _ _). simpl.
    rewrite persisted_ids, keys_delete_filter; [done |].
    intros k a [_ Hin]%elem_of_map_delete. by apply Hids. }
  split; [exact Hpersisted |]. split.
  - rewrite Hpersisted. rewrite elem_of_delete. by intros [? _].
  - intros k Hne. unfold removeAgent. rewrite Hreg.
    destruct (cancelWaitingTimer _ _), (cancelPermissionTimer _ _). simpl.
    by rewrite !get_delete_ne.
Qed.

(** *** Disposing of the view provider *)

Lemma removeAll_cons id ids r :
  removeAll (id :: ids) r =
  let r1 := removeAgent id r in
  let r2 := removeAll ids r1.1 in
  (r2.1, r1.2 ++ r2.2).
Proof.
  unfold removeAll. simpl. destruct (removeAgent id r) as [r1 tr1]. simpl.
  assert (Hgen : ∀ ids r0 tr0,
    fold_left (λ '(r, tr) id, let '(r', tr') := removeAgent id r in (r', tr ++ tr'))
              ids (r0, tr0)
    = (let res := fold_left
                    (λ '(r, tr) id, let '(r', tr') := removeAgent id r in (r', tr ++ tr'))
                    ids (r0, []) in
       (res.1, tr0 ++ res.2))).
  { clear. induction ids as [| id ids IH]; intros r0 tr0; simpl.
    - by rewrite app_nil_r.
    - destruct (removeAgent id r0) as [r' tr']. rewrite IH. simpl.
      rewrite (IH r' tr'). simpl. by rewrite app_assoc. }
  by rewrite Hgen.
Qed.

Lemma removeAgent_persisted_in_step agentId r0 r :
  persisted_in_step r0 r → persisted_in_step r0 (removeAgent agentId r).1.
Proof.
  intros Hstep. unfold removeAgent.
  destruct (JsMap.get agentId (agents r)); [| done].
  destruct (cancelWaitingTimer _ _), (cancelPermissionTimer _ _). by right.
Qed.

Lemma removeAgent_direct_maps agentId r k :
  let r' := (removeAgent agentId r).1 in
  (JsMap.get k (fileWatchers r) = None → JsMap.get k (fileWatchers r') = None) ∧
  (JsMap.get k (pollingTimers r) = None → JsMap.get k (pollingTimers r') = None) ∧
  (JsMap.get k (jsonlPollTimers r) = None → JsMap.get k (jsonlPollTimers r') = None).
Proof.
  cbv zeta. unfold removeAgent.
  destruct (JsMap.get agentId (agents r)); [| done].
  destruct (cancelWaitingTimer _ _), (cancelPermissionTimer _ _). simpl.
  destruct (decide (agentId = k)) as [-> | Hne].
  - by rewrite !get_delete_eq.
  - by rewrite !get_delete_ne.
Qed.

Lemma removeAgent_frees_direct_maps agentId r :
  is_Some (JsMap.get agentId (agents r)) →
  let r' := (removeAgent agentId r).1 in
  JsMap.get agentId (fileWatchers r') = None ∧
  JsMap.get agentId (pollingTimers r') = None ∧
  JsMap.get agentId (jsonlPollTimers r') = None.
Proof.
  intros [agent Hreg]. cbv zeta. unfold removeAgent. rewrite Hreg.
  destruct (cancelWaitingTimer _ _), (cancelPermissionTimer _ _). simpl.
  by rewrite !get_delete_eq.
Qed.

Lemma removeAll_spec ids r0 r :
  persisted_in_step r0 r →
  let r' := (removeAll ids r).1 in
  persisted_in_step r0 r' ∧
  (∀ k, k ∈ JsMap.keys (agents r') ↔ k ∈ JsMap.keys (agents r) ∧ k ∉ ids) ∧
  (∀ k, (k ∈ ids ∧ k ∈ JsMap.keys (agents r)) ∨
        (JsMap.get k (fileWatchers r) = None ∧
         JsMap.get k (pollingTimers r) = None ∧
         JsMap.get k (jsonlPollTimers r) = None) →
        JsMap.get k (fileWatchers r') = None ∧
        JsMap.get k (pollingTimers r') = None ∧
        JsMap.get k (jsonlPollTimers r') = None).
Proof.
  revert r. induction ids as [| id ids IH]; intros r Hstep.
  - cbv zeta. simpl. split; [done |]. split.
    + intros k. rewrite elem_of_nil. tauto.
    + intros k [[Hin _] | Hnone]; [by apply elem_of_nil in Hin | done].
  - rewrite removeAll_cons. cbv zeta. cbn [fst].
    pose proof (removeAgent_persisted_in_step id r0 r Hstep) as Hstep1.
    destruct (IH (removeAgent id r).1 Hstep1) as (Hfinal & Hkeys & Hfree).
    split; [exact Hfinal |]. split.
    + intros k. rewrite Hkeys, removeAgent_agents, keys_delete, not_elem_of_cons.
      tauto.
    + intros k Hk. apply Hfree.
      destruct (removeAgent_direct_maps id r k) as (H1 & H2 & H3).
      destruct Hk as [[Hin Hreg] | (N1 & N2 & N3)]; [| right; auto].
      destruct (decide (k = id)) as [-> | Hne].
      * right. apply removeAgent_frees_direct_maps.
        apply not_eq_None_Some. by rewrite get_None_keys; intros Hc.
      * left. apply elem_of_cons in Hin as [? | Hin]; [done |].
        split; [done |]. rewrite removeAgent_agents, keys_delete. done.
Qed.


End ManagerProperties.

(* ================================================================== *)
(** ** Terminal names *)

Section TerminalNames.

Lemma digits_value_units_acc u acc :
  digits_value (uint_units u) (N.pos acc) = N.pos (Pos.of_uint_acc u acc).
Proof.
  revert acc. induction u; intros acc; simpl; [done | ..].
  all: rewrite <- IHu; f_equal; unfold digit_unit; lia.
Qed.

Lemma digits_value_units u : digits_value (uint_units u) 0 = Pos.of_uint u.
Proof.
  induction u; simpl; [done | ..].
  1: exact IHu.
  all: by rewrite <- digits_value_units_acc.
Qed.

(** Reading back the decimal notation of a number gives the number. *)
Lemma digits_value_decimal n : digits_value (decimal n) 0 = n.
Proof.
  unfold decimal. rewrite digits_value_units.
  apply DecimalN.Unsigned.of_to.
Qed.

Lemma decimal_nonempty n : decimal n ≠ [].
Proof.
  intros Hnil. pose proof (digits_value_decimal n) as Hval.
  rewrite Hnil in Hval. simpl in Hval. subst n. done.
Qed.

Lemma decimal_is_digit n c : c ∈ decimal n → Json.is_digit c = true.
Proof.
  intros Hin%uint_units_digits. unfold Json.is_digit.
  apply andb_true_iff. split; apply N.leb_le; lia.
Qed.

Lemma trailing_digits_run (digits rest acc : jsstring) :
  (∀ c, c ∈ digits → Json.is_digit c = true) →
  match rest with c :: _ => Json.is_digit c = false | [] => True end →
  trailing_digits (digits ++ rest) acc = (rev digits ++ acc, rest).
Proof.
  intros Hdigits Hrest. revert acc.
  induction digits as [| c digits IH]; intros acc; simpl.
  - destruct rest as [| c rest]; [done |]. simpl. by rewrite Hrest.
  - rewrite Hdigits by left. rewrite IH by (intros; apply Hdigits; by right).
    by rewrite <- app_assoc.
Qed.

Lemma title_index (prefix : jsstring) (idx : N) :
  terminalIndex (terminal_title prefix idx) = Some idx.
Proof.
  unfold terminalIndex, terminal_title.
  rewrite app_assoc, rev_app_distr.
  rewrite trailing_digits_run.
  - rewrite rev_involutive, app_nil_r.
    destruct (decimal idx) as [| d ds] eqn:Hdec; [by apply decimal_nonempty in Hdec |].
    rewrite <- Hdec, digits_value_decimal, rev_app_distr. done.
  - intros c Hin. apply (decimal_is_digit idx).
    by rewrite list_elem_of_In, <- in_rev, <- list_elem_of_In in Hin.
  - by rewrite rev_app_distr.
Qed.

(** X19. The name [launchNewTerminal] gives a terminal,
    [<prefix> #<index>], is read back by the pattern [restoreAgents]
    applies to terminal names: the index it extracts is the index the name
    was built from, whatever the prefix; and names built from different
    indices are different.  Indices are natural numbers, as the counter is
    in the program while it stays in the range where numbers print and
    parse exactly. *)
Theorem terminal_title_index (prefix : jsstring) (idx : N) :
  terminalIndex (terminal_title prefix idx) = Some idx ∧
  ∀ prefix' idx',
    terminal_title prefix' idx' = terminal_title prefix idx → idx' = idx.
Proof.
  split; [apply title_index |].
  intros prefix' idx' Heq. apply (f_equal terminalIndex) in Heq.
  rewrite !title_index in Heq. by injection Heq.
Qed.

End TerminalNames.

(* ================================================================== *)
(** ** Restoring agents *)

Section RestoreProperties.
Context {consts : Constants}.
Variable fs : FileSystem.
Variable liveTerminals : list Terminal.
Implicit Types (r : Registry) (p q : PersistedAgent.t) (st : Restoring).

Lemma restore_loop_stable id persisted st v :
  JsMap.get id (rs_agents st) = Some v →
  (∀ q, q ∈ persisted → PersistedAgent.id q = id →
        restorable liveTerminals q → restored_agent fs liveTerminals q = v) →
  JsMap.get id (rs_agents (fold_left (restoreEntry fs liveTerminals) persisted st))
  = Some v.
Proof.
  revert st. induction persisted as [| q persisted IH]; intros st Hget Hsame; [done |].
  simpl. apply IH; [| intros q' Hin; apply Hsame; by right].
  destruct (decide (PersistedAgent.id q = id)) as [Heq | Hne].
  - destruct (decide (restorable liveTerminals q)) as [Hq | Hq].
    + rewrite <- Heq, restoreEntry_this by done. f_equal.
      apply Hsame; [left | done..].
    + by rewrite restoreEntry_skipped.
  - by rewrite restoreEntry_other.
Qed.

(** The entry restored for a snapshot whose id no other snapshot has. *)
Lemma restore_loop_unique p persisted st :
  p ∈ persisted →
  restorable liveTerminals p →
  (∀ q, q ∈ persisted → PersistedAgent.id q = PersistedAgent.id p → q = p) →
  JsMap.get (PersistedAgent.id p)
    (rs_agents (fold_left (restoreEntry fs liveTerminals) persisted st))
  = Some (restored_agent fs liveTerminals p).
Proof.
  intros Hin Hp. revert st.
  induction persisted as [| q persisted IH]; intros st Huniq;
    [by apply elem_of_nil in Hin |].
  simpl. destruct (decide (q = p)) as [-> | Hne].
  - apply restore_loop_stable; [by apply restoreEntry_this |].
    intros q Hq Hid _. f_equal. apply Huniq; [by right | done].
  - apply elem_of_cons in Hin as [-> | Hin]; [done |].
    apply IH; [done |]. intros q' Hq'. apply Huniq. by right.
Qed.

(** An id none of whose snapshots can be restored gets no entry. *)
Lemma restore_loop_absent id persisted st :
  (∀ q, q ∈ persisted → PersistedAgent.id q = id → ¬ restorable liveTerminals q) →
  JsMap.get id (rs_agents (fold_left (restoreEntry fs liveTerminals) persisted st))
  = JsMap.get id (rs_agents st).
Proof.
  revert st. induction persisted as [| q persisted IH]; intros st Hdead; [done |].
  simpl. rewrite IH by (intros q' Hin; apply Hdead; by right).
  destruct (decide (PersistedAgent.id q = id)) as [Heq | Hne].
  - rewrite restoreEntry_skipped; [done |]. apply Hdead; [left | done].
  - by apply restoreEntry_other.
Qed.

Lemma restoreEntry_ok bound st p :
  restoring_ok bound st → restoring_ok bound (restoreEntry fs liveTerminals st p).
Proof.
  intros (Hwf & Hids & Hlt). unfold restoreEntry.
  destruct (needsTerminal _ && negb _); [done |].
  assert (Hmax : ∀ k, k ∈ JsMap.keys (rs_agents st) ∨ k = PersistedAgent.id p →
            k < bound ∨
            k ≤ (if rs_maxId st <? PersistedAgent.id p
                 then PersistedAgent.id p else rs_maxId st)).
  { intros k Hk. destruct (N.ltb_spec (rs_maxId st) (PersistedAgent.id p)).
    - destruct Hk as [Hk | ->]; [| right; lia].
      destruct (Hlt k Hk); [by left | right; lia].
    - destruct Hk as [Hk | ->]; [by apply Hlt | right; lia]. }
  destruct (JsMap.get (PersistedAgent.jsonlFile p) fs); unfold restoring_ok; simpl.
  - split_and!.
    + by do 2 apply wf_set_any.
    + intros k a [[-> ->] | [[-> ->] | Hin]%elem_of_set]%elem_of_set;
        [done | done | by apply Hids].
    + intros k [-> | [-> | Hin]%keys_set]%keys_set; apply Hmax; auto.
  - split_and!.
    + by apply wf_set_any.
    + intros k a [[-> ->] | Hin]%elem_of_set; [done | by apply Hids].
    + intros k [-> | Hin]%keys_set; apply Hmax; auto.
Qed.

Lemma restore_loop_ok bound persisted st :
  restoring_ok bound st →
  restoring_ok bound (fold_left (restoreEntry fs liveTerminals) persisted st).
Proof.
  revert st. induction persisted as [| p persisted IH]; intros st Hst; [done |].
  simpl. apply IH. by apply restoreEntry_ok.
Qed.

Lemma restoreAgents_ok nextHandle r :
  registry_ok r → registry_ok (restoreAgents fs liveTerminals nextHandle r).1.
Proof.
  intros (Hwf & Hids & Hlt). unfold restoreAgents.
  destruct (length (workspaceAgents r) =? 0)%nat; [done |].
  cbv zeta. cbn [fst].
  match goal with
  | |- context [fold_left _ _ ?st0] =>
      destruct (restore_loop_ok (nextAgentId r) (workspaceAgents r) st0)
        as (Hwf' & Hids' & Hlt')
  end.
  { split_and!; [done | done |]. intros k Hk. left. by apply Hlt. }
  unfold registry_ok. simpl. split_and!; [done | done |].
  intros k Hk. destruct (Hlt' k Hk); destruct (N.leb_spec (nextAgentId r)
    (rs_maxId (fold_left (restoreEntry fs liveTerminals) (workspaceAgents r)
       {| rs_agents := agents r; rs_known := knownJsonlFiles r;
          rs_jsonlPollTimers := jsonlPollTimers r; rs_maxId := 0; rs_maxIdx := 0;
          rs_restoredProjectDir := None; rs_nextHandle := nextHandle;
          rs_trace := [] |}))); lia.
Qed.

(** The largest id and the largest terminal index seen by the loop only
    grow, and they bound those of every snapshot that is restored. *)
Lemma restoreEntry_bounds st p :
  let st' := restoreEntry fs liveTerminals st p in
  rs_maxId st ≤ rs_maxId st' ∧ rs_maxIdx st ≤ rs_maxIdx st' ∧
  (restorable liveTerminals p →
   PersistedAgent.id p ≤ rs_maxId st' ∧
   ∀ i, terminalIndex (PersistedAgent.terminalName p) = Some i → i ≤ rs_maxIdx st').
Proof.
  cbv zeta. unfold restoreEntry.
  destruct (needsTerminal _ && negb _) eqn:Hskip.
  - split_and!; [lia | lia |]. intros Hp.
    by rewrite (restorable_not_skipped liveTerminals p Hp) in Hskip.
  - assert (Hid : rs_maxId st ≤ (if rs_maxId st <? PersistedAgent.id p
                                 then PersistedAgent.id p else rs_maxId st) ∧
                  PersistedAgent.id p ≤ (if rs_maxId st <? PersistedAgent.id p
                                 then PersistedAgent.id p else rs_maxId st))
      by (destruct (N.ltb_spec (rs_maxId st) (PersistedAgent.id p)); lia).
    assert (Hidx : rs_maxIdx st ≤
                     match terminalIndex (PersistedAgent.terminalName p) with
                     | Some idx => if rs_maxIdx st <? idx then idx else rs_maxIdx st
                     | None => rs_maxIdx st
                     end ∧
                   ∀ i, terminalIndex (PersistedAgent.terminalName p) = Some i →
                     i ≤ match terminalIndex (PersistedAgent.terminalName p) with
                         | Some idx => if rs_maxIdx st <? idx then idx else rs_maxIdx st
                         | None => rs_maxIdx st
                         end).
    { destruct (terminalIndex _) as [idx |]; [| split; [lia | done]].
      destruct (N.ltb_spec (rs_maxIdx st) idx); split; try lia.
      all: intros i [= <-]; lia. }
    destruct (JsMap.get (PersistedAgent.jsonlFile p) fs); simpl; tauto.
Qed.

Lemma restore_loop_bounds persisted st :
  let st' := fold_left (restoreEntry fs liveTerminals) persisted st in
  rs_maxId st ≤ rs_maxId st' ∧ rs_maxIdx st ≤ rs_maxIdx st' ∧
  ∀ p, p ∈ persisted → restorable liveTerminals p →
    PersistedAgent.id p ≤ rs_maxId st' ∧
    ∀ i, terminalIndex (PersistedAgent.terminalName p) = Some i → i ≤ rs_maxIdx st'.
Proof.
  cbv zeta. revert st. induction persisted as [| q persisted IH]; intros st; simpl.
  - split_and!; [lia | lia |]. by intros p ?%elem_of_nil.
  - destruct (restoreEntry_bounds st q) as (H1 & H2 & H3).
    destruct (IH (restoreEntry fs liveTerminals st q)) as (I1 & I2 & I3).
    split_and!; [lia | lia |].
    intros p [-> | Hin]%elem_of_cons Hp; [| by apply I3].
    destruct (H3 Hp) as [Hid Hidx]. split; [lia |].
    intros i Hi. specialize (Hidx i Hi). lia.
Qed.


Lemma persistAgents_snapshots (ags : list (N * AgentState)) :
  persistAgents ags = snapshot <$> JsMap.values ags.
Proof. done. Qed.

Lemma findTerminal_alive t :
  t ∈ liveTerminals → findTerminal (terminal_name t) liveTerminals = Some t.
Proof.
  unfold findTerminal. induction liveTerminals as [| t' live IH]; simpl.
  - by intros ?%elem_of_nil.
  - destruct (streq (terminal_name t') (terminal_name t)) eqn:E.
    + intros _. apply streq_true in E. destruct t, t'. simpl in E. by subst.
    + intros [-> | Hin]%elem_of_cons; [| by apply IH].
      exfalso. apply not_true_iff_false in E. apply E. by apply streq_true.
Qed.

Lemma snapshot_restorable a :
  terminal_alive liveTerminals a → restorable liveTerminals (snapshot a).
Proof.
  unfold terminal_alive, restorable. simpl. intros Halive Hneeds.
  destruct (Halive Hneeds) as (t & -> & Hname & Hin). simpl.
  unfold or_else. rewrite Hname. rewrite findTerminal_alive by done. eauto.
Qed.

(** X20. Persisting and restoring is a round trip on what a snapshot
    keeps.  When the persisted list is the snapshot of a map of agents,
    each agent whose terminal is still open (or whose provider needs none)
    is registered again under its id with the same provider, project
    directory and transcript path, attached to the same terminal, and with
    its transient tracking empty. *)
Theorem persist_restore_round_trip nextHandle r ags k a :
  workspaceAgents r = persistAgents ags →
  JsMap.wf ags →
  (∀ k a, (k, a) ∈ ags → agent_id a = k) →
  (k, a) ∈ ags →
  terminal_alive liveTerminals a →
  ∃ a',
    JsMap.get k (agents (restoreAgents fs liveTerminals nextHandle r).1) = Some a' ∧
    agent_id a' = k ∧
    provider a' = provider a ∧
    projectDir a' = projectDir a ∧
    jsonlFile a' = jsonlFile a ∧
    (needsTerminal (provider a) = true → terminalRef a' = terminalRef a) ∧
    transient_empty a'.
Proof.
  intros Hws Hwf Hids Hin Halive.
  pose proof (Hids k a Hin) as Hk.
  assert (Hp : snapshot a ∈ workspaceAgents r).
  { rewrite Hws, persistAgents_snapshots. apply list_elem_of_fmap.
    exists a. split; [done |]. apply list_elem_of_fmap. by exists (k, a). }
  assert (Huniq : ∀ q, q ∈ workspaceAgents r →
            PersistedAgent.id q = PersistedAgent.id (snapshot a) → q = snapshot a).
  { intros q. rewrite Hws, persistAgents_snapshots.
    intros (a2 & -> & ([k2 a2'] & -> & Hin2)%list_elem_of_fmap)%list_elem_of_fmap.
    simpl. intros Heq. pose proof (Hids k2 a2' Hin2) as Hk2.
    assert (k2 = k) as -> by congruence.
    pose proof (elem_get_wf k a ags Hwf Hin) as G1.
    pose proof (elem_get_wf k a2' ags Hwf Hin2) as G2. congruence. }
  pose proof (snapshot_restorable a Halive) as Hrest.
  exists (restored_agent fs liveTerminals (snapshot a)).
  split.
  - unfold restoreAgents.
    destruct (workspaceAgents r) as [| p0 persisted] eqn:Hlist;
      [by apply elem_of_nil in Hp |].
    cbn [length Nat.eqb]. cbv zeta. cbn [fst agents].
    rewrite <- Hk. change (agent_id a) with (PersistedAgent.id (snapshot a)).
    by apply restore_loop_unique.
  - destruct (restored_agent_at_end fs liveTerminals (snapshot a)) as [Hempty _].
    unfold restored_agent in *.
    destruct (JsMap.get (PersistedAgent.jsonlFile (snapshot a)) fs); simpl in *.
    all: split_and!; try done.
    all: intros Hneeds; rewrite Hneeds.
    all: destruct (Halive Hneeds) as (t & -> & Hname & Hlive); simpl.
    all: unfold or_else; rewrite Hname; by apply findTerminal_alive.
Qed.

(** X21. A persisted agent whose terminal is gone is dropped by
    [restoreAgents]: when no snapshot with id [k] can be restored, and [k]
    was not registered before, the agents map has no entry for [k]
    afterwards and the list that is persisted again has none either. *)
Theorem restore_drops_closed_terminals nextHandle r k :
  registry_ok r →
  JsMap.get k (agents r) = None →
  (∀ q, q ∈ workspaceAgents r → PersistedAgent.id q = k →
        ¬ restorable liveTerminals q) →
  let r' := (restoreAgents fs liveTerminals nextHandle r).1 in
  JsMap.get k (agents r') = None ∧
  (workspaceAgents r ≠ [] → k ∉ PersistedAgent.id <$> workspaceAgents r').
Proof.
  intros Hok Hnone Hdead. cbv zeta.
  pose proof (restoreAgents_ok nextHandle r Hok) as (_ & Hids' & _).
  revert Hids'. unfold restoreAgents.
  destruct (workspaceAgents r) as [| p0 persisted] eqn:Hlist; [done |].
  cbn [length Nat.eqb]. cbv zeta. cbn [fst agents workspaceAgents].
  intros Hids'.
  assert (Hgone : JsMap.get k
            (rs_agents (fold_left (restoreEntry fs liveTerminals) (p0 :: persisted)
               {| rs_agents := agents r; rs_known := knownJsonlFiles r;
                  rs_jsonlPollTimers := jsonlPollTimers r; rs_maxId := 0;
                  rs_maxIdx := 0; rs_restoredProjectDir := None;
                  rs_nextHandle := nextHandle; rs_trace := [] |})) = None).
  { by rewrite restore_loop_absent. }
  split; [exact Hgone |]. intros _.
  rewrite persisted_ids by exact Hids'. by apply get_None_keys.
Qed.

(** The largest id and index the loop has seen stay at most
    [MAX_SAFE_INTEGER] when the persisted entries are. *)
Lemma restore_loop_safe persisted st :
  forallb safe_snapshot persisted = true →
  rs_maxId st ≤ MAX_SAFE_INTEGER → rs_maxIdx st ≤ MAX_SAFE_INTEGER →
  let st' := fold_left (restoreEntry fs liveTerminals) persisted st in
  rs_maxId st' ≤ MAX_SAFE_INTEGER ∧ rs_maxIdx st' ≤ MAX_SAFE_INTEGER.
Proof.
  cbv zeta. revert st.
  induction persisted as [| q persisted IH]; intros st Hall Hid Hidx; simpl;
    [done |].
  simpl in Hall. apply andb_true_iff in Hall as [Hq Hall].
  apply andb_true_iff in Hq as [Hqid%N.leb_le Hqidx].
  apply IH; [done | |]; unfold restoreEntry.
  all: destruct (needsTerminal _ && negb _); [done |].
  all: destruct (JsMap.get (PersistedAgent.jsonlFile q) fs); simpl.
  all: try (destruct (N.ltb_spec (rs_maxId st) (PersistedAgent.id q)); lia).
  all: destruct (terminalIndex _) as [idx |]; [| done].
  all: apply N.leb_le in Hqidx.
  all: destruct (N.ltb_spec (rs_maxIdx st) idx); lia.
Qed.

(** X22. [restoreAgents] moves both counters past what it restores, while
    the counters and the persisted numbers are at most
    [MAX_SAFE_INTEGER]: every restored agent has an id below the next agent
    id, and the terminal name the next launch builds, with any prefix, is
    the name of no restored agent, since its index is larger than the
    index that ends any of their names.  The counters end at most one
    above [MAX_SAFE_INTEGER]. *)
Theorem restored_names_are_not_reused nextHandle r p prefix :
  safe_numbers r = true →
  p ∈ workspaceAgents r →
  restorable liveTerminals p →
  let r' := (restoreAgents fs liveTerminals nextHandle r).1 in
  PersistedAgent.id p < nextAgentId r' ∧
  nextAgentId r ≤ nextAgentId r' ≤ MAX_SAFE_INTEGER + 1 ∧
  nextTerminalIndex r ≤ nextTerminalIndex r' ≤ MAX_SAFE_INTEGER + 1 ∧
  terminal_title prefix (nextTerminalIndex r') ≠ PersistedAgent.terminalName p.
Proof.
  intros Hsafe Hin Hp. cbv zeta.
  apply andb_true_iff in Hsafe as [Hsafe Hall].
  apply andb_true_iff in Hsafe as [Hnext%N.leb_le Hnidx%N.leb_le].
  unfold restoreAgents.
  destruct (workspaceAgents r) as [| p0 persisted] eqn:Hlist;
    [by apply elem_of_nil in Hin |].
  cbn [length Nat.eqb]. cbv zeta. cbn [fst nextAgentId nextTerminalIndex].
  match goal with
  | |- context [fold_left _ _ ?st0] =>
      destruct (restore_loop_bounds (p0 :: persisted) st0) as (_ & _ & Hbound);
      destruct (restore_loop_safe (p0 :: persisted) st0 Hall) as [Hmax Hmaxidx];
      [by vm_compute | by vm_compute |];
      set (st := fold_left (restoreEntry fs liveTerminals) (p0 :: persisted) st0) in *
  end.
  destruct (Hbound p Hin Hp) as [Hid Hidx].
  split_and!.
  - destruct (N.leb_spec (nextAgentId r) (rs_maxId st)); lia.
  - destruct (N.leb_spec (nextAgentId r) (rs_maxId st)); lia.
  - destruct (N.leb_spec (nextAgentId r) (rs_maxId st)); lia.
  - destruct (N.leb_spec (nextTerminalIndex r) (rs_maxIdx st)); lia.
  - destruct (N.leb_spec (nextTerminalIndex r) (rs_maxIdx st)); lia.
  - intros Hname.
    specialize (Hidx _ (eq_trans (f_equal terminalIndex (eq_sym Hname))
                          (title_index prefix _))).
    destruct (N.leb_spec (nextTerminalIndex r) (rs_maxIdx st)); lia.
Qed.

End RestoreProperties.

(* ================================================================== *)
(** ** Launching agents *)

Section LaunchProperties.
Context {consts : Constants} {timers : TimerManager}.
Implicit Types (r : Registry) (vp : ViewProvider) (provider : AgentProvider.t).

Lemma take_terminalIndex_ok r : registry_ok r → registry_ok (take_terminalIndex r).
Proof. done. Qed.

Lemma registerLaunched_registry provider providerId terminal result w nextHandle r scanTimer :
  let vp' := (registerLaunched provider providerId terminal result w nextHandle r
                scanTimer).1 in
  let id := nextAgentId r in
  agents (registry vp')
  = JsMap.set id (launched_agent id providerId terminal result) (agents r) ∧
  nextAgentId (registry vp') = id + 1 ∧
  nextTerminalIndex (registry vp') = nextTerminalIndex r ∧
  workspaceAgents (registry vp') = persistAgents (agents (registry vp')) ∧
  activeAgentId vp' = Some id.
Proof.
  cbv zeta. unfold registerLaunched.
  by destruct (truthy (launched_jsonlFile result)).
Qed.

Lemma registerLaunched_trace provider providerId terminal result w nextHandle r scanTimer :
  let out := registerLaunched provider providerId terminal result w nextHandle r
               scanTimer in
  inr (WorkspaceUpdate (workspaceAgents (registry out.1))) ∈ out.2 ∧
  (is_Some w → inr (PostMessage (agentCreated (nextAgentId r))) ∈ out.2).
Proof.
  cbv zeta. unfold registerLaunched.
  destruct (truthy (launched_jsonlFile result)); simpl.
  all: split; [left |].
  all: intros [w' ->]; simpl; right; left.
Qed.

Lemma registerLaunched_ok provider providerId terminal result w nextHandle r scanTimer :
  registry_ok r →
  registry_ok (registry (registerLaunched provider providerId terminal result w
                           nextHandle r scanTimer).1).
Proof.
  intros (Hwf & Hids & Hlt).
  destruct (registerLaunched_registry provider providerId terminal result w
              nextHandle r scanTimer) as (Hags & Hnext & _).
  unfold registry_ok. rewrite Hags, Hnext. split_and!.
  - by apply wf_set_any.
  - intros k a [[-> ->] | Hin]%elem_of_set; [done | by apply Hids].
  - intros k [-> | Hin]%keys_set; [lia |]. specialize (Hlt k Hin). lia.
Qed.

Lemma launch_tracked providers env cwd w nextHandle providerId vp provider result sent :
  getProvider providerId providers = Some provider →
  truthy cwd = true →
  AgentProvider.launchTerminal provider env
    (launch_terminal provider (nextTerminalIndex (registry vp))) cwd
  = (Some result, sent) →
  ∃ created,
    launchNewTerminal providers env (Some cwd) w nextHandle providerId vp =
    Some (let out := registerLaunched provider providerId
                       (launch_terminal provider (nextTerminalIndex (registry vp)))
                       result w nextHandle (take_terminalIndex (registry vp))
                       (projectScanTimer vp) in
          (out.1, created ++ (inl <$> sent) ++ out.2)).
Proof.
  intros Hprovider Hcwd Hlaunch. unfold launchNewTerminal, launch_terminal in *.
  rewrite Hprovider. cbv zeta. unfold first_truthy. rewrite Hcwd, Hlaunch.
  destruct (registerLaunched _ _ _ _ _ _ _ _). eauto.
Qed.



Lemma launch_ok providers env workspaceFolder w nextHandle providerId vp vp' tr :
  launchNewTerminal providers env workspaceFolder w nextHandle providerId vp
  = Some (vp', tr) →
  registry_ok (registry vp) → registry_ok (registry vp').
Proof.
  unfold launchNewTerminal.
  destruct (getProvider providerId providers) as [provider |]; [| done].
  cbv zeta. destruct (first_truthy workspaceFolder None) as [dir |].
  - destruct (AgentProvider.launchTerminal _ _ _ _) as [[result |] sent].
    + pose proof (registerLaunched_ok provider providerId
        (if AgentProvider.needsTerminal provider
         then Some {| terminal_name :=
                        terminal_title (AgentProvider.terminalNamePrefix provider)
                          (nextTerminalIndex (registry vp)) |}
         else None) result w nextHandle (take_terminalIndex (registry vp))
        (projectScanTimer vp)) as Hreg.
      destruct (registerLaunched _ _ _ _ _ _ _ _) as [vp1 tr1].
      intros [= <- _] Hok. by apply Hreg.
    + by intros [= <- _].
  - by intros [= <- _].
Qed.

End LaunchProperties.

(* ================================================================== *)
(** ** The registry stays in order; what a webview is told on connecting *)

Section ViewProperties.
Context {consts : Constants} {nodepath : NodePath} {timers : TimerManager}.
Implicit Types (r : Registry) (vp : ViewProvider) (a : AgentState).

Lemma removeAll_ok ids r : registry_ok r → registry_ok (removeAll ids r).1.
Proof.
  revert r. induction ids as [| id ids IH]; intros r Hok; [done |].
  rewrite removeAll_cons. cbv zeta. cbn [fst]. apply IH. by apply removeAgent_ok.
Qed.


(** *** Status replay *)

Lemma elem_of_agent_statuses id a m :
  m ∈ agent_statuses id a ↔
  (∃ toolId status,
     (toolId, status) ∈ activeToolStatuses a ∧ m = agentToolStart id toolId status) ∨
  (isWaiting a = true ∧ m = agentStatus id waiting).
Proof.
  unfold agent_statuses. rewrite elem_of_app, list_elem_of_fmap. split.
  - intros [([t s] & -> & Hin) | Hw]; [left; eauto |].
    right. destruct (isWaiting a); [| by apply elem_of_nil in Hw].
    by apply list_elem_of_singleton in Hw.
  - intros [(t & s & Hin & ->) | [Hw ->]].
    + left. by exists (t, s).
    + right. rewrite Hw. left.
Qed.

Lemma agent_statuses_id id a m : m ∈ agent_statuses id a → message_id m = id.
Proof.
  intros [(t & s & _ & ->) | [_ ->]]%elem_of_agent_statuses; reflexivity.
Qed.

Lemma agent_statuses_NoDup id a :
  JsMap.wf (activeToolStatuses a) → NoDup (agent_statuses id a).
Proof.
  intros Hwf. unfold agent_statuses. apply NoDup_app. split_and!.
  - apply NoDup_fmap_2_strong.
    + intros [t1 s1] [t2 s2] _ _ [= -> ->]. reflexivity.
    + by apply (NoDup_fmap_1 fst).
  - intros m ([t s] & -> & _)%list_elem_of_fmap Hin.
    destruct (isWaiting a); [| by apply elem_of_nil in Hin].
    by apply list_elem_of_singleton in Hin.
  - destruct (isWaiting a); [apply NoDup_singleton | apply NoDup_nil_2].
Qed.

Lemma elem_of_replay (ags : list (N * AgentState)) m :
  m ∈ flat_map (λ '(agentId, agent), agent_statuses agentId agent) ags ↔
  ∃ id a, (id, a) ∈ ags ∧ m ∈ agent_statuses id a.
Proof.
  rewrite list_elem_of_In, in_flat_map. split.
  - intros ([id a] & Hin%list_elem_of_In & Hm%list_elem_of_In). eauto.
  - intros (id & a & Hin & Hm). exists (id, a).
    split; by apply list_elem_of_In.
Qed.

Lemma replay_NoDup (ags : list (N * AgentState)) :
  JsMap.wf ags →
  (∀ id a, (id, a) ∈ ags → JsMap.wf (activeToolStatuses a)) →
  NoDup (flat_map (λ '(agentId, agent), agent_statuses agentId agent) ags).
Proof.
  unfold JsMap.wf at 1, JsMap.keys.
  induction ags as [| [id a] ags IH]; intros Hwf Hst; simpl; [apply NoDup_nil_2 |].
  simpl in Hwf. apply list.NoDup_cons in Hwf as [Hid Hwf].
  apply NoDup_app. split_and!.
  - apply agent_statuses_NoDup, (Hst id). left.
  - intros m Hm (id' & a' & Hin & Hm')%elem_of_replay.
    apply agent_statuses_id in Hm, Hm'. apply Hid.
    apply list_elem_of_fmap. exists (id', a'). split; [| done].
    simpl. congruence.
  - apply IH; [done |]. intros id' a' Hin. apply (Hst id'). by right.
Qed.

Lemma replay_length (ags : list (N * AgentState)) :
  length (flat_map (λ '(agentId, agent), agent_statuses agentId agent) ags)
  = sum_list_with
      (λ e, length (activeToolStatuses e.2) + (if isWaiting e.2 then 1 else 0))%nat
      ags.
Proof.
  induction ags as [| [id a] ags IH]; simpl; [done |].
  rewrite length_app, IH. f_equal.
  unfold agent_statuses. rewrite length_app, length_map.
  by destruct (isWaiting a).
Qed.

(** X26. What [sendCurrentAgentStatuses] sends to a webview is exactly the
    open tools and the waiting flags of the registered agents, each once:
    an [agentToolStart] for every entry of an agent's
    [activeToolStatuses], an [agentStatus waiting] for every agent that is
    waiting, and nothing else; an active status or a pending permission
    request is never replayed.  No message is sent twice, and their number
    is the number of open tools plus the number of waiting agents.
    Without a webview it sends nothing.  The agents and the statuses of
    each are maps: their keys are pairwise distinct. *)
Theorem status_replay_is_exact (ags : list (N * AgentState)) (w : Webview) :
  JsMap.wf ags →
  (∀ id a, (id, a) ∈ ags → JsMap.wf (activeToolStatuses a)) →
  let sent := sendCurrentAgentStatuses ags (Some w) in
  sendCurrentAgentStatuses ags None = [] ∧
  NoDup sent ∧
  (∀ m, m ∈ sent ↔
     ∃ id a, (id, a) ∈ ags ∧
       ((∃ toolId status,
           (toolId, status) ∈ activeToolStatuses a ∧
           m = agentToolStart id toolId status) ∨
        (isWaiting a = true ∧ m = agentStatus id waiting))) ∧
  length sent
  = sum_list_with
      (λ e, length (activeToolStatuses e.2) + (if isWaiting e.2 then 1 else 0))%nat
      ags.
Proof.
  intros Hwf Hst sent. subst sent. unfold sendCurrentAgentStatuses.
  split_and!; [done | by apply replay_NoDup | | apply replay_length].
  intros m. rewrite elem_of_replay.
  split; intros (id & a & Hin & Hm); exists id, a; (split; [done |]);
    by apply elem_of_agent_statuses.
Qed.

(** X27. A tool start, on a line whose fields are strings where the parser
    reads strings, that arrives while no webview is attached is not lost:
    the parser leaves the agent in the same state as with a webview and
    posts nothing, and the [agentToolStart] it would have posted, with the
    same tool id and status text, is among the messages
    [sendCurrentAgentStatuses] sends when a webview connects. *)
Theorem missed_tool_start_is_replayed p env id line a w :
  tool_start p line →
  typed_line line = true →
  let detached := processLine p env id line a {| webview := None |} in
  let attached := processLine p env id line a {| webview := Some w |} in
  detached.1 = attached.1 ∧
  posted detached.2 = [] ∧
  ∃ toolId status,
    posted attached.2 = [agentStatus id active; agentToolStart id toolId status] ∧
    agentToolStart id toolId status
      ∈ sendCurrentAgentStatuses [(id, detached.1)] (Some w).
Proof.
  intros Hstart _. cbv zeta.
  assert (Hreplay : ∀ toolId status toolName,
    agentToolStart id toolId status
      ∈ sendCurrentAgentStatuses
          [(id, set_isWaiting false
                  (set_hadToolsInTurn true (track_tool toolId status toolName a)))]
          (Some w)).
  { intros toolId status toolName. simpl. rewrite app_nil_r.
    apply elem_of_agent_statuses. left. exists toolId, status.
    split; [| done]. simpl. apply get_Some_elem, get_set_eq. }
  destruct p; simpl in Hstart |- *.
  - rewrite !(codex_begin_line env id line a _ Hstart). cbv zeta. cbn [fst snd].
    split; [done |]. split; [done |]. eexists _, _. split; [done |]. apply Hreplay.
  - assert (∃ event kind, line_type line = Some event ∧
                          cursor_start_kind event = Some kind)
      as (event & kind & Hlt & Hkind).
    { destruct Hstart as [H | [H | H]]; eexists _, _; (split; [exact H |]);
        by vm_compute. }
    destruct (cursor_start_line env id line event kind Hlt Hkind) as [status Hrun].
    rewrite !Hrun. cbn [fst snd].
    split; [done |]. split; [done |]. eexists _, _. split; [done |]. apply Hreplay.
Qed.

(** X28. At a turn boundary the replay is minimal.  For an agent that has
    just processed a turn-end line, [sendCurrentAgentStatuses] sends the
    single message [agentStatus waiting]; for an agent with nothing
    tracked, as a launched or restored one is, it sends nothing. *)
Theorem replay_at_turn_boundaries p env id line a ctx w :
  turn_end p line →
  keyset_consistent a →
  sendCurrentAgentStatuses [(id, (processLine p env id line a ctx).1)] (Some w)
  = [agentStatus id waiting] ∧
  ∀ a0, transient_empty a0 → sendCurrentAgentStatuses [(id, a0)] (Some w) = [].
Proof.
  intros Hend Hks. split.
  - rewrite (turn_end_line p env id line a ctx Hend). cbv zeta. cbn [fst].
    simpl. rewrite app_nil_r. unfold agent_statuses. simpl.
    destruct (0 <? JsSet.size (activeToolIds a))%nat eqn:Hsz; simpl; [done |].
    apply size_pos_nil in Hsz.
    destruct (keyset_empty_ids a Hks Hsz) as (_ & -> & _). done.
  - intros a0 ((_ & Hs & _) & _ & _ & _ & Hw & _). simpl.
    unfold agent_statuses. by rewrite Hs, Hw.
Qed.

(** X29. [sendExistingAgents] first lists the ids of all registered agents
    in ascending order, each as often as it is a key of the map, and then
    replays the statuses; without a webview it sends nothing. *)
Theorem existing_agents_are_listed_in_order (ags : list (N * AgentState))
    (agentMeta : json) (w : Webview) :
  sendExistingAgents ags agentMeta None = [] ∧
  ∃ ids,
    sendExistingAgents ags agentMeta (Some w)
    = existingAgents ids agentMeta
        :: (agentMessage <$> sendCurrentAgentStatuses ags (Some w)) ∧
    StronglySorted N.le ids ∧
    ids ≡ₚ JsMap.keys ags.
Proof.
  split; [done |]. exists (merge_sort N.le (JsMap.keys ags)).
  split; [done |]. split.
  - apply StronglySorted_merge_sort; [apply _ |].
    intros x y. lia.
  - apply merge_sort_Permutation.
Qed.

End ViewProperties.

(* ================================================================== *)
(** ** The statements at concrete inputs *)

Section Samples.
#[local] Existing Instance sample_constants.
#[local] Existing Instance posix_path.
#[local] Existing Instance spec_timer_manager.

(** The four-line scenario does not give the expected five messages. *)
Lemma codex_scenario_differs :
  bool_decide
    (events (processLines processCodexLine 1 scenario_lines
               (new_agent 1 codex) attached).2
     = claimed_scenario_events 1 TOOL_DONE_DELAY_MS)
  = false.
Proof. vm_compute. reflexivity. Qed.

Lemma codex_scenario_events_witness :
  (6 ≤ BASH_COMMAND_DISPLAY_MAX_LENGTH)%nat ∧
  activeToolIds (new_agent 1 codex) = [] ∧
  events (processLines processCodexLine 1 scenario_lines
            (new_agent 1 codex) attached).2
  = [PostMessage (agentToolsClear 1);
     PostMessage (agentStatus 1 active);
     PostMessage (agentStatus 1 active);
     PostMessage (agentToolStart 1 (str "a1") (str "Running: ls -la"));
     SetTimeout 300 (agentToolDone 1 (str "a1"));
     PostMessage (agentStatus 1 waiting)].
Proof.
  assert (Hmax : (6 ≤ BASH_COMMAND_DISPLAY_MAX_LENGTH)%nat) by (simpl; lia).
  split; [exact Hmax |]. split; [reflexivity |].
  exact (codex_scenario_events sample_env sample_env sample_env sample_env
           1 (new_agent 1 codex) 1 Hmax eq_refl).
Defined.

Lemma turn_end_resets_agent_witness :
  turn_end Codex line_TurnEnded ∧
  keyset_consistent agent_running_a1 ∧
  let r := processLine Codex sample_env 1 line_TurnEnded agent_running_a1
             attached in
  tools_empty r.1 ∧ isWaiting r.1 = true ∧ permissionSent r.1 = false ∧
  hadToolsInTurn r.1 = false ∧ PostMessage (agentStatus 1 waiting) ∈ r.2.
Proof.
  assert (Hend : turn_end Codex line_TurnEnded) by (vm_compute; reflexivity).
  assert (Hks : keyset_consistent agent_running_a1)
    by (split; intros k; reflexivity).
  split; [exact Hend |]. split; [exact Hks |].
  exact (turn_end_resets_agent Codex sample_env 1 line_TurnEnded
           agent_running_a1 1 Hend Hks).
Defined.

Example cursor_stop_resets_agent :
  let r := processLine Cursor sample_env 2 line_stop agent_three_tools
             attached in
  activeToolIds r.1 = [] ∧ activeToolStatuses r.1 = [] ∧
  activeToolNames r.1 = [] ∧ isWaiting r.1 = true ∧
  r.2 = [CancelWaitingTimer 2; CancelPermissionTimer 2;
         PostMessage (agentToolsClear 2); PostMessage (agentStatus 2 waiting)].
Proof. vm_compute. repeat split. Qed.

Lemma keyset_consistency_preserved_witness :
  keyset_consistent agent_three_tools ∧
  keyset_consistent
    (processLine Cursor sample_env 2 line_afterShellExecution
       agent_three_tools attached).1.
Proof.
  assert (Hks : keyset_consistent agent_three_tools)
    by (split; intros k; reflexivity).
  split; [exact Hks |].
  exact (keyset_consistency_preserved Cursor sample_env 2
           line_afterShellExecution agent_three_tools attached Hks).
Defined.

Lemma malformed_line_is_dropped_witness :
  malformed line_truncated ∧
  processLine Codex sample_env 1 line_truncated agent_running_a1 attached
  = (agent_running_a1, []) ∧
  processLines (processLine Codex) 1
    ([(sample_env, line_ExecCommandBegin_a1)]
       ++ (sample_env, line_truncated)
       :: [(sample_env, line_ExecCommandEnd_a1)])
    (new_agent 1 codex) attached
  = processLines (processLine Codex) 1
      ([(sample_env, line_ExecCommandBegin_a1)]
         ++ [(sample_env, line_ExecCommandEnd_a1)])
      (new_agent 1 codex) attached.
Proof.
  assert (Hbad : malformed line_truncated) by (vm_compute; reflexivity).
  split; [exact Hbad |].
  split.
  - exact (proj1 (malformed_line_is_dropped Codex sample_env 1 line_truncated
                    [] [] agent_running_a1 attached Hbad)).
  - exact (proj2 (malformed_line_is_dropped Codex sample_env 1 line_truncated
                    [(sample_env, line_ExecCommandBegin_a1)]
                    [(sample_env, line_ExecCommandEnd_a1)]
                    (new_agent 1 codex) attached Hbad)).
Defined.

Lemma cursor_tool_end_closes_oldest_witness :
  let l1 := [(str "cursor-1-aaaa", str "Read")] in
  let l2 := [(str "cursor-3-cccc", str "Bash")] in
  let toolId := str "cursor-2-bbbb" in
  let r := processCursorLine sample_env 2 line_afterShellExecution
             agent_three_tools attached in
  line_type line_afterShellExecution = Some (str "afterShellExecution") ∧
  cursor_end_kind (str "afterShellExecution") = Some (str "Bash") ∧
  activeToolNames agent_three_tools = l1 ++ (toolId, str "Bash") :: l2 ∧
  (∀ e, e ∈ l1 → e.2 ≠ str "Bash") ∧
  JsMap.wf (activeToolNames agent_three_tools) ∧
  truthy toolId = true ∧
  activeToolNames r.1 = l1 ++ l2 ∧
  (∀ k, k ∈ activeToolIds r.1
        ↔ k ≠ toolId ∧ k ∈ activeToolIds agent_three_tools) ∧
  JsMap.get toolId (activeToolStatuses r.1) = None ∧
  (∀ k, k ≠ toolId →
        JsMap.get k (activeToolStatuses r.1)
        = JsMap.get k (activeToolStatuses agent_three_tools)) ∧
  r.2 = [SetTimeout 300 (agentToolDone 2 toolId)].
Proof.
  intros l1 l2 toolId r.
  assert (H1 : line_type line_afterShellExecution
               = Some (str "afterShellExecution"))
    by (vm_compute; reflexivity).
  assert (H2 : cursor_end_kind (str "afterShellExecution") = Some (str "Bash"))
    by (vm_compute; reflexivity).
  assert (H3 : activeToolNames agent_three_tools
               = l1 ++ (toolId, str "Bash") :: l2)
    by (vm_compute; reflexivity).
  assert (H4 : ∀ e, e ∈ l1 → e.2 ≠ str "Bash").
  { intros e He. apply list_elem_of_singleton in He. subst e.
    vm_compute. discriminate. }
  assert (H5 : JsMap.wf (activeToolNames agent_three_tools)).
  { apply (bool_decide_unpack _). vm_compute. exact I. }
  assert (H6 : truthy toolId = true) by reflexivity.
  split; [exact H1 |]. split; [exact H2 |]. split; [exact H3 |].
  split; [exact H4 |]. split; [exact H5 |]. split; [exact H6 |].
  exact (cursor_tool_end_closes_oldest sample_env 2 line_afterShellExecution
           agent_three_tools attached (str "afterShellExecution") (str "Bash")
           toolId l1 l2 H1 H2 H3 H4 H5 H6).
Defined.

(** A second [ApprovalRequest], processed while [permissionSent] is still
    true, posts [agentToolPermission] again. *)
Lemma second_approval_request_posts_again :
  let r1 := processCodexLine sample_env 1 line_ApprovalRequest
              (new_agent 1 codex) attached in
  let r2 := processCodexLine sample_env 1 line_ApprovalRequest r1.1 attached in
  permissionSent r1.1 = true ∧
  events r1.2 = [PostMessage (agentToolPermission 1)] ∧
  events r2.2 = [PostMessage (agentToolPermission 1)].
Proof. vm_compute. repeat split. Qed.

Lemma approval_request_posts_each_time_witness :
  line_type line_ApprovalRequest = Some (str "ApprovalRequest") ∧
  processCodexLine sample_env 1 line_ApprovalRequest
    (set_permissionSent true (new_agent 1 codex)) attached
  = (set_permissionSent true (set_permissionSent true (new_agent 1 codex)),
     [PostMessage (agentToolPermission 1)]).
Proof.
  assert (H1 : line_type line_ApprovalRequest = Some (str "ApprovalRequest"))
    by (vm_compute; reflexivity).
  split; [exact H1 |].
  exact (approval_request_posts_each_time sample_env 1 line_ApprovalRequest
           (set_permissionSent true (new_agent 1 codex)) 1 H1).
Defined.

(** After the only open tool has ended, [hadToolsInTurn] is false although a
    tool ran in the turn. *)
Lemma hadToolsInTurn_false_after_last_tool_end :
  let r1 := processCodexLine sample_env 1 line_ExecCommandBegin_a1
              (new_agent 1 codex) attached in
  let r2 := processCodexLine sample_env 1 line_ExecCommandEnd_a1 r1.1
              attached in
  hadToolsInTurn r1.1 = true ∧
  activeToolIds r1.1 = [str "a1"] ∧
  activeToolIds r2.1 = [] ∧
  hadToolsInTurn r2.1 = false.
Proof. vm_compute. repeat split. Qed.

Lemma hadToolsInTurn_while_tools_open_witness :
  tool_start Cursor line_beforeReadFile ∧
  typed_line line_beforeReadFile = true ∧
  typed_lines [(sample_env, line_afterShellExecution)] = true ∧
  let a1 := (processLine Cursor sample_env 2 line_beforeReadFile
               agent_three_tools attached).1 in
  let a2 := (processLines (processLine Cursor) 2
               [(sample_env, line_afterShellExecution)] a1 attached).1 in
  hadToolsInTurn a1 = true ∧
  (activeToolIds a2 ≠ [] → hadToolsInTurn a2 = true) ∧
  (∀ env' line',
     tool_end Cursor line' →
     typed_line line' = true →
     activeToolIds (processLine Cursor env' 2 line' a2 attached).1 = [] →
     hadToolsInTurn (processLine Cursor env' 2 line' a2 attached).1 = false).
Proof.
  assert (Hstart : tool_start Cursor line_beforeReadFile).
  { right. left. vm_compute. reflexivity. }
  assert (Htyped : typed_line line_beforeReadFile = true)
    by (vm_compute; reflexivity).
  assert (Hrest : typed_lines [(sample_env, line_afterShellExecution)] = true)
    by (vm_compute; reflexivity).
  split; [exact Hstart |]. split; [exact Htyped |]. split; [exact Hrest |].
  exact (hadToolsInTurn_while_tools_open Cursor sample_env 2
           line_beforeReadFile [(sample_env, line_afterShellExecution)]
           agent_three_tools attached Hstart Htyped Hrest).
Defined.

(** A file edit with no tool open posts the synthetic pair and leaves
    [hadToolsInTurn] false. *)
Lemma standalone_file_edit_resets_flag :
  let r := processCursorLine sample_env 2 line_afterFileEdit
             (new_agent 2 cursor) attached in
  r.2 = [PostMessage
           (agentToolStart 2 (str "cursor-1700000000000-k3x9")
              (str "Editing main.ts"));
         SetTimeout 300 (agentToolDone 2 (str "cursor-1700000000000-k3x9"))] ∧
  hadToolsInTurn r.1 = false.
Proof. vm_compute. repeat split. Qed.

Lemma standalone_file_edit_witness :
  let a := track_tool (str "cursor-2-bbbb") (str "Running: npm test")
             (str "Bash") (new_agent 2 cursor) in
  let toolId := generateToolId sample_env in
  let r := processCursorLine sample_env 2 line_afterFileEdit a attached in
  line_type line_afterFileEdit = Some (str "afterFileEdit") ∧
  string_typed (line_prop line_afterFileEdit "file_path") = true ∧
  (∀ toolId, (toolId, str "Read") ∉ activeToolNames a) ∧
  r.2 = [PostMessage
           (agentToolStart 2 toolId
              (str "Editing "
                 ++ posix_basename (line_field line_afterFileEdit "file_path")));
         SetTimeout 300 (agentToolDone 2 toolId)] ∧
  activeToolIds r.1 = activeToolIds a ∧
  activeToolStatuses r.1 = activeToolStatuses a ∧
  activeToolNames r.1 = activeToolNames a ∧
  (activeToolIds a ≠ [] → hadToolsInTurn r.1 = true) ∧
  (activeToolIds a = [] → hadToolsInTurn r.1 = false).
Proof.
  intros a toolId r.
  assert (H1 : line_type line_afterFileEdit = Some (str "afterFileEdit"))
    by (vm_compute; reflexivity).
  assert (H2 : ∀ toolId, (toolId, str "Read") ∉ activeToolNames a).
  { intros k Hin. apply list_elem_of_singleton in Hin.
    revert Hin. vm_compute. discriminate. }
  assert (H3 : string_typed (line_prop line_afterFileEdit "file_path") = true)
    by (vm_compute; reflexivity).
  split; [exact H1 |]. split; [exact H3 |]. split; [exact H2 |].
  exact (standalone_file_edit sample_env 2 line_afterFileEdit a 1 H1 H3 H2).
Defined.

Lemma restored_agent_starts_at_end_of_file_witness :
  persisted_cursor ∈ workspaceAgents restart_registry ∧
  restorable sample_terminals persisted_cursor ∧
  ∃ agent,
    JsMap.get 5 (agents (restoreAgents sample_fs sample_terminals 100
                           restart_registry).1)
    = Some agent ∧
    transient_empty agent ∧
    (∀ size, JsMap.get (jsonlFile agent) sample_fs = Some size →
             fileOffset agent = size).
Proof.
  assert (H1 : persisted_cursor ∈ workspaceAgents restart_registry).
  { simpl. in_list. }
  assert (H2 : restorable sample_terminals persisted_cursor).
  { unfold restorable. simpl. discriminate. }
  split; [exact H1 |]. split; [exact H2 |].
  exact (restored_agent_starts_at_end_of_file sample_fs sample_terminals 100
           restart_registry persisted_cursor H1 H2).
Defined.

Example restart_restores_both :
  let r' := restoreAgents sample_fs sample_terminals 100 restart_registry in
  fileOffset <$> JsMap.get 4 (agents r'.1) = Some 0 ∧
  fileOffset <$> JsMap.get 5 (agents r'.1) = Some 4096 ∧
  JsMap.get 4 (jsonlPollTimers r'.1) = Some 100 ∧
  nextAgentId r'.1 = 6 ∧ nextTerminalIndex r'.1 = 4 ∧
  r'.2 = [SetIntervalPoll 100 1000 4;
          StartFileWatching 5 (str "/w/.cursor/hooks/events.jsonl");
          WorkspaceUpdate (workspaceAgents r'.1);
          EnsureProjectScan (str "/w/.cursor/hooks")].
Proof. vm_compute. repeat split. Qed.

Example restart_without_terminal_skips :
  let r' := restoreAgents sample_fs [] 100 restart_registry in
  JsMap.keys (agents r'.1) = [5] ∧
  PersistedAgent.id <$> workspaceAgents r'.1 = [5].
Proof. vm_compute. repeat split. Qed.

Lemma removeAgent_complete_and_idempotent_witness :
  let r' := (removeAgent 1 sample_registry).1 in
  let tr := (removeAgent 1 sample_registry).2 in
  JsMap.get 1 (agents sample_registry) = Some agent_running_a1 ∧
  (JsMap.get 1 (agents r') = None ∧
   JsMap.get 1 (fileWatchers r') = None ∧
   JsMap.get 1 (pollingTimers r') = None ∧
   JsMap.get 1 (waitingTimers r') = None ∧
   JsMap.get 1 (permissionTimers r') = None ∧
   JsMap.get 1 (jsonlPollTimers r') = None) ∧
  ((∀ h, JsMap.get 1 (jsonlPollTimers sample_registry) = Some h →
         ClearInterval h ∈ tr) ∧
   (∀ h, JsMap.get 1 (fileWatchers sample_registry) = Some h →
         CloseWatcher h ∈ tr) ∧
   (∀ h, JsMap.get 1 (pollingTimers sample_registry) = Some h →
         ClearInterval h ∈ tr) ∧
   (∀ h, JsMap.get 1 (waitingTimers sample_registry) = Some h →
         ClearTimeout h ∈ tr) ∧
   (∀ h, JsMap.get 1 (permissionTimers sample_registry) = Some h →
         ClearTimeout h ∈ tr)) ∧
  removeAgent 1 r' = (r', []).
Proof.
  intros r' tr.
  assert (H1 : JsMap.get 1 (agents sample_registry) = Some agent_running_a1)
    by reflexivity.
  split; [exact H1 |].
  exact (removeAgent_complete_and_idempotent 1 sample_registry
           agent_running_a1 H1).
Defined.

Example removeAgent_sample_trace :
  (removeAgent 1 sample_registry).2 =
  [ClearInterval 15; CloseWatcher 11; ClearInterval 12; ClearTimeout 14;
   WorkspaceUpdate (persistAgents [(2, agent_three_tools)])] ∧
  agents (removeAgent 1 sample_registry).1 = [(2, agent_three_tools)] ∧
  waitingTimers (removeAgent 1 sample_registry).1 = [(2, 23)].
Proof. vm_compute. repeat split. Qed.

Example detached_webview_receives_nothing :
  (processCodexLine sample_env 1 line_TurnEnded agent_running_a1
     {| webview := None |}).2
  = [CancelWaitingTimer 1; CancelPermissionTimer 1].
Proof. vm_compute. reflexivity. Qed.

End Samples.

(* ================================================================== *)
(** ** The further statements at concrete inputs *)

Section MoreSamples.
#[local] Existing Instance sample_constants.
#[local] Existing Instance posix_path.
#[local] Existing Instance spec_timer_manager.
#[local] Existing Instance sample_host.
#[local] Existing Instance sample_names.

(** Decide a closed proposition by evaluation. *)
Ltac by_evaluation := apply (bool_decide_unpack _); vm_compute; exact I.

Lemma keyset_new_agent id providerId : keyset_consistent (new_agent id providerId).
Proof. split; intros k; reflexivity. Qed.

Lemma sample_registry_ok : registry_ok sample_registry.
Proof.
  split_and!.
  - by_evaluation.
  - intros k a Hin. simpl in Hin.
    rewrite !elem_of_cons, elem_of_nil in Hin.
    destruct Hin as [[= -> ->] | [[= -> ->] | []]]; reflexivity.
  - intros k Hin. simpl in Hin.
    rewrite !elem_of_cons, elem_of_nil in Hin.
    destruct Hin as [-> | [-> | []]]; reflexivity.
Qed.

Lemma shell_status_is_bounded_witness :
  let record :=
    JObject [(str "type", JString (str "ExecCommandBegin"));
             (str "command",
              JString (str "find . -name node_modules -prune -o -print"))] in
  string_typed (prop record "command") = true ∧
  let cmd := as_string (prop record "command") in
  let shown := formatCodexToolStatus (str "ExecCommandBegin") record in
  formatCursorStatus (str "beforeShellExecution") record = shown ∧
  (js_length shown ≤ 9 + BASH_COMMAND_DISPLAY_MAX_LENGTH + 1)%nat ∧
  ((js_length cmd ≤ BASH_COMMAND_DISPLAY_MAX_LENGTH)%nat ∧
     shown = str "Running: " ++ cmd
   ∨ (BASH_COMMAND_DISPLAY_MAX_LENGTH < js_length cmd)%nat ∧
     shown = str "Running: " ++ take BASH_COMMAND_DISPLAY_MAX_LENGTH cmd ++ [8230] ∧
     js_length shown = (9 + BASH_COMMAND_DISPLAY_MAX_LENGTH + 1)%nat).
Proof.
  intros record.
  assert (H1 : string_typed (prop record "command") = true)
    by (vm_compute; reflexivity).
  split; [exact H1 |].
  exact (shell_status_is_bounded record H1).
Defined.

Lemma unhandled_event_is_ignored_witness :
  line_type line_TurnStarted = Some (str "TurnStarted") ∧
  (str "TurnStarted" ∉ handled_events Cursor) ∧
  processLine Cursor sample_env 2 line_TurnStarted agent_three_tools attached
  = (agent_three_tools, []).
Proof.
  assert (H1 : line_type line_TurnStarted = Some (str "TurnStarted"))
    by (vm_compute; reflexivity).
  assert (H2 : str "TurnStarted" ∉ handled_events Cursor) by by_evaluation.
  split; [exact H1 |]. split; [exact H2 |].
  exact (unhandled_event_is_ignored Cursor sample_env 2 line_TurnStarted
           (str "TurnStarted") agent_three_tools attached H1 H2).
Defined.

Lemma codex_end_of_unknown_tool_witness :
  line_type line_ExecCommandEnd_a1 = Some (str "ExecCommandEnd") ∧
  (truthy (line_field line_ExecCommandEnd_a1 "id") = false
   ∨ line_field line_ExecCommandEnd_a1 "id" ∉ activeToolIds (new_agent 1 codex)) ∧
  let r := processCodexLine sample_env 1 line_ExecCommandEnd_a1
             (new_agent 1 codex) attached in
  r.2 = [] ∧
  activeToolIds r.1 = activeToolIds (new_agent 1 codex) ∧
  activeToolStatuses r.1 = activeToolStatuses (new_agent 1 codex) ∧
  activeToolNames r.1 = activeToolNames (new_agent 1 codex) ∧
  hadToolsInTurn r.1
  = (if bool_decide (activeToolIds (new_agent 1 codex) = []) then false
     else hadToolsInTurn (new_agent 1 codex)).
Proof.
  assert (H1 : line_type line_ExecCommandEnd_a1 = Some (str "ExecCommandEnd"))
    by (vm_compute; reflexivity).
  assert (H2 : truthy (line_field line_ExecCommandEnd_a1 "id") = false
               ∨ line_field line_ExecCommandEnd_a1 "id"
                   ∉ activeToolIds (new_agent 1 codex))
    by (right; apply not_elem_of_nil).
  split; [exact H1 |]. split; [exact H2 |].
  exact (codex_end_of_unknown_tool sample_env 1 line_ExecCommandEnd_a1
           (new_agent 1 codex) attached H1 H2).
Defined.

Lemma codex_begin_end_round_trip_witness :
  let a := new_agent 1 codex in
  let toolId := or_else (line_field line_ExecCommandBegin_a1 "id")
                        (crypto_randomUUID sample_env) in
  let status := str "Running: "
                  ++ display_command (line_field line_ExecCommandBegin_a1 "command") in
  let r := processLines processCodexLine 1
             [(sample_env, line_ExecCommandBegin_a1);
              (sample_env, line_ExecCommandEnd_a1)] a {| webview := Some 1 |} in
  line_type line_ExecCommandBegin_a1 = Some (str "ExecCommandBegin") ∧
  typed_line line_ExecCommandBegin_a1 = true ∧
  line_type line_ExecCommandEnd_a1 = Some (str "ExecCommandEnd") ∧
  truthy toolId = true ∧
  line_field line_ExecCommandEnd_a1 "id" = toolId ∧
  (toolId ∉ activeToolIds a) ∧
  keyset_consistent a ∧
  activeToolIds r.1 = activeToolIds a ∧
  activeToolStatuses r.1 = activeToolStatuses a ∧
  activeToolNames r.1 = activeToolNames a ∧
  events r.2 = [PostMessage (agentStatus 1 active);
                PostMessage (agentToolStart 1 toolId status);
                SetTimeout TOOL_DONE_DELAY_MS (agentToolDone 1 toolId)].
Proof.
  intros a toolId status r.
  assert (H1 : line_type line_ExecCommandBegin_a1 = Some (str "ExecCommandBegin"))
    by (vm_compute; reflexivity).
  assert (H2 : line_type line_ExecCommandEnd_a1 = Some (str "ExecCommandEnd"))
    by (vm_compute; reflexivity).
  assert (H3 : truthy toolId = true) by (vm_compute; reflexivity).
  assert (H4 : line_field line_ExecCommandEnd_a1 "id" = toolId)
    by (vm_compute; reflexivity).
  assert (H5 : toolId ∉ activeToolIds a) by apply not_elem_of_nil.
  assert (H6 : keyset_consistent a) by apply keyset_new_agent.
  assert (Ht : typed_line line_ExecCommandBegin_a1 = true)
    by (vm_compute; reflexivity).
  split; [exact H1 |]. split; [exact Ht |]. split; [exact H2 |].
  split; [exact H3 |].
  split; [exact H4 |]. split; [exact H5 |]. split; [exact H6 |].
  exact (codex_begin_end_round_trip sample_env sample_env 1
           line_ExecCommandBegin_a1 line_ExecCommandEnd_a1 a 1
           H1 Ht H2 H3 H4 H5 H6).
Defined.


Lemma idle_timer_waits_for_tools_witness :
  let running := (processCodexLine sample_env 1 line_ExecCommandBegin_a1
                    (new_agent 1 codex) attached).1 in
  let ended := (processCodexLine sample_env 1 line_ExecCommandEnd_a1
                  agent_running_a1 attached).1 in
  line_type line_ExecCommandBegin_a1 = Some (str "ExecCommandBegin") ∧
  typed_line line_ExecCommandBegin_a1 = true ∧
  line_type line_ExecCommandEnd_a1 = Some (str "ExecCommandEnd") ∧
  line_type line_AgentMessageDelta = Some (str "AgentMessageDelta") ∧
  processCodexLine sample_env 1 line_AgentMessageDelta running attached
  = (running, []) ∧
  (activeToolIds ended = [] →
   processCodexLine sample_env 1 line_AgentMessageDelta ended attached
   = (ended, [StartWaitingTimer 1 TEXT_IDLE_DELAY_MS])).
Proof.
  intros running ended.
  assert (H1 : line_type line_ExecCommandBegin_a1 = Some (str "ExecCommandBegin"))
    by (vm_compute; reflexivity).
  assert (H2 : line_type line_ExecCommandEnd_a1 = Some (str "ExecCommandEnd"))
    by (vm_compute; reflexivity).
  assert (H3 : line_type line_AgentMessageDelta = Some (str "AgentMessageDelta"))
    by (vm_compute; reflexivity).
  assert (Ht : typed_line line_ExecCommandBegin_a1 = true)
    by (vm_compute; reflexivity).
  split; [exact H1 |]. split; [exact Ht |]. split; [exact H2 |].
  split; [exact H3 |].
  exact (idle_timer_waits_for_tools sample_env sample_env sample_env 1
           line_ExecCommandBegin_a1 line_ExecCommandEnd_a1 line_AgentMessageDelta
           (new_agent 1 codex) agent_running_a1 attached H1 Ht H2 H3).
Defined.

Lemma cursor_end_without_open_tool_witness :
  let a := new_agent 2 cursor in
  let r := processCursorLine sample_env 2 line_afterShellExecution a attached in
  line_type line_afterShellExecution = Some (str "afterShellExecution") ∧
  cursor_end_kind (str "afterShellExecution") = Some (str "Bash") ∧
  str "afterShellExecution" ≠ str "afterFileEdit" ∧
  (∀ toolId, (toolId, str "Bash") ∉ activeToolNames a) ∧
  r.2 = [] ∧
  activeToolIds r.1 = activeToolIds a ∧
  activeToolStatuses r.1 = activeToolStatuses a ∧
  activeToolNames r.1 = activeToolNames a ∧
  hadToolsInTurn r.1
  = (if bool_decide (activeToolIds a = []) then false else hadToolsInTurn a).
Proof.
  intros a r.
  assert (H1 : line_type line_afterShellExecution = Some (str "afterShellExecution"))
    by (vm_compute; reflexivity).
  assert (H2 : cursor_end_kind (str "afterShellExecution") = Some (str "Bash"))
    by (vm_compute; reflexivity).
  assert (H3 : str "afterShellExecution" ≠ str "afterFileEdit") by by_evaluation.
  assert (H4 : ∀ toolId, (toolId, str "Bash") ∉ activeToolNames a)
    by (intros toolId; apply not_elem_of_nil).
  split; [exact H1 |]. split; [exact H2 |]. split; [exact H3 |]. split; [exact H4 |].
  exact (cursor_end_without_open_tool sample_env 2 line_afterShellExecution a
           attached (str "afterShellExecution") (str "Bash") H1 H2 H3 H4).
Defined.

Lemma generated_tool_ids_differ_witness :
  Date_now sample_env ≠ Date_now later_env ∧
  generateToolId sample_env ≠ generateToolId later_env.
Proof.
  assert (H1 : Date_now sample_env ≠ Date_now later_env) by by_evaluation.
  split; [exact H1 |].
  exact (generated_tool_ids_differ sample_env later_env H1).
Defined.

Lemma cursor_start_end_round_trip_witness :
  let a := new_agent 2 cursor in
  let toolId := generateToolId sample_env in
  let r := processLines processCursorLine 2
             [(sample_env, line_beforeShellExecution);
              (later_env, line_afterShellExecution)] a {| webview := Some 1 |} in
  line_type line_beforeShellExecution = Some (str "beforeShellExecution") ∧
  typed_line line_beforeShellExecution = true ∧
  cursor_start_kind (str "beforeShellExecution") = Some (str "Bash") ∧
  line_type line_afterShellExecution = Some (str "afterShellExecution") ∧
  cursor_end_kind (str "afterShellExecution") = Some (str "Bash") ∧
  (toolId ∉ activeToolIds a) ∧
  keyset_consistent a ∧
  (∀ t, (t, str "Bash") ∉ activeToolNames a) ∧
  activeToolIds r.1 = activeToolIds a ∧
  activeToolStatuses r.1 = activeToolStatuses a ∧
  activeToolNames r.1 = activeToolNames a ∧
  ∃ status,
    events r.2 = [PostMessage (agentStatus 2 active);
                  PostMessage (agentToolStart 2 toolId status);
                  SetTimeout TOOL_DONE_DELAY_MS (agentToolDone 2 toolId)].
Proof.
  intros a toolId r.
  assert (H1 : line_type line_beforeShellExecution = Some (str "beforeShellExecution"))
    by (vm_compute; reflexivity).
  assert (H2 : cursor_start_kind (str "beforeShellExecution") = Some (str "Bash"))
    by (vm_compute; reflexivity).
  assert (H3 : line_type line_afterShellExecution = Some (str "afterShellExecution"))
    by (vm_compute; reflexivity).
  assert (H4 : cursor_end_kind (str "afterShellExecution") = Some (str "Bash"))
    by (vm_compute; reflexivity).
  assert (H5 : toolId ∉ activeToolIds a) by apply not_elem_of_nil.
  assert (H6 : keyset_consistent a) by apply keyset_new_agent.
  assert (H7 : ∀ t, (t, str "Bash") ∉ activeToolNames a)
    by (intros t; apply not_elem_of_nil).
  assert (Ht : typed_line line_beforeShellExecution = true)
    by (vm_compute; reflexivity).
  split; [exact H1 |]. split; [exact Ht |].
  split; [exact H2 |]. split; [exact H3 |]. split; [exact H4 |].
  split; [exact H5 |]. split; [exact H6 |]. split; [exact H7 |].
  exact (cursor_start_end_round_trip sample_env later_env 2
           line_beforeShellExecution line_afterShellExecution a 1
           (str "beforeShellExecution") (str "afterShellExecution") (str "Bash")
           H1 Ht H2 H3 H4 H5 H6 H7).
Defined.

Lemma parser_calls_concern_the_agent_witness :
  let e := PostMessage (agentStatus 1 waiting) in
  e ∈ (processLine Codex sample_env 1 line_TurnEnded agent_running_a1 attached).2 ∧
  (e ∈ (clearAgentActivity agent_running_a1 1 (webview attached)).2
   ∨ effect_agent e = Some 1).
Proof.
  intros e.
  assert (H1 : e ∈ (processLine Codex sample_env 1 line_TurnEnded
                      agent_running_a1 attached).2) by by_evaluation.
  split; [exact H1 |].
  exact (parser_calls_concern_the_agent Codex sample_env 1 line_TurnEnded
           agent_running_a1 attached e H1).
Defined.

Lemma done_only_for_tracked_tools_witness :
  let m := agentToolDone 1 (str "a1") in
  let r := processLine Codex sample_env 1 line_ExecCommandEnd_a1
             agent_running_a1 attached in
  SetTimeout 300 m ∈ r.2 ∧
  (SetTimeout 300 m ∈ (clearAgentActivity agent_running_a1 1 (webview attached)).2
   ∨ (300 = TOOL_DONE_DELAY_MS ∧
      done_for Codex sample_env 1 line_ExecCommandEnd_a1 agent_running_a1 r.1 m)).
Proof.
  intros m r.
  assert (H1 : SetTimeout 300 m ∈ r.2) by by_evaluation.
  split; [exact H1 |].
  exact (done_only_for_tracked_tools Codex sample_env 1 line_ExecCommandEnd_a1
           agent_running_a1 attached 300 m H1).
Defined.

Lemma turn_end_twice_witness :
  let r1 := processLine Codex sample_env 1 line_TurnEnded agent_running_a1
              attached in
  let r2 := processLine Codex later_env 1 line_TurnEnded r1.1 attached in
  turn_end Codex line_TurnEnded ∧
  r2.1 = r1.1 ∧
  r2.2 = [CancelWaitingTimer 1; CancelPermissionTimer 1]
           ++ post (webview attached) (agentStatus 1 waiting).
Proof.
  intros r1 r2.
  assert (H1 : turn_end Codex line_TurnEnded) by (vm_compute; reflexivity).
  split; [exact H1 |].
  exact (turn_end_twice Codex sample_env later_env 1 line_TurnEnded line_TurnEnded
           agent_running_a1 attached H1 H1).
Defined.

Lemma launch_dir_is_project_dir_witness :
  let result := {| launched_projectDir := str "/w/.cursor/hooks";
                   launched_jsonlFile := str "/w/.cursor/hooks/events.jsonl" |} in
  cursorProvider ∈ [claudeProvider; codexProvider; cursorProvider] ∧
  truthy (str "/w") = true ∧
  AgentProvider.launchTerminal cursorProvider sample_env None (str "/w")
  = (Some result, []) ∧
  AgentProvider.getProjectDir cursorProvider (Some (str "/w")) None
  = Some (launched_projectDir result).
Proof.
  intros result.
  assert (H1 : cursorProvider ∈ [claudeProvider; codexProvider; cursorProvider])
    by in_list.
  assert (H2 : truthy (str "/w") = true) by reflexivity.
  assert (H3 : AgentProvider.launchTerminal cursorProvider sample_env None (str "/w")
               = (Some result, [])) by (vm_compute; reflexivity).
  split; [exact H1 |]. split; [exact H2 |]. split; [exact H3 |].
  exact (launch_dir_is_project_dir cursorProvider sample_env None (str "/w")
           result [] None H1 H2 H3).
Defined.

Lemma removeAgent_forgets_only_that_agent_witness :
  let r' := (removeAgent 1 sample_registry).1 in
  registry_ok sample_registry ∧
  JsMap.get 1 (agents sample_registry) = Some agent_running_a1 ∧
  (PersistedAgent.id <$> workspaceAgents r')
  = JsSet.delete 1 (JsMap.keys (agents sample_registry)) ∧
  (1 ∉ PersistedAgent.id <$> workspaceAgents r') ∧
  ∀ k, k ≠ 1 →
    JsMap.get k (agents r') = JsMap.get k (agents sample_registry) ∧
    JsMap.get k (fileWatchers r') = JsMap.get k (fileWatchers sample_registry) ∧
    JsMap.get k (pollingTimers r') = JsMap.get k (pollingTimers sample_registry) ∧
    JsMap.get k (jsonlPollTimers r') = JsMap.get k (jsonlPollTimers sample_registry).
Proof.
  intros r'.
  assert (H1 : JsMap.get 1 (agents sample_registry) = Some agent_running_a1)
    by reflexivity.
  split; [exact sample_registry_ok |]. split; [exact H1 |].
  exact (removeAgent_forgets_only_that_agent 1 sample_registry agent_running_a1
           sample_registry_ok H1).
Defined.

Lemma persist_restore_round_trip_witness :
  let ags := [(4, agent_in_terminal)] in
  workspaceAgents persisted_registry = persistAgents ags ∧
  JsMap.wf ags ∧
  (∀ k a, (k, a) ∈ ags → agent_id a = k) ∧
  (4, agent_in_terminal) ∈ ags ∧
  terminal_alive sample_terminals agent_in_terminal ∧
  ∃ a',
    JsMap.get 4 (agents (restoreAgents sample_fs sample_terminals 100
                           persisted_registry).1) = Some a' ∧
    agent_id a' = 4 ∧
    provider a' = provider agent_in_terminal ∧
    projectDir a' = projectDir agent_in_terminal ∧
    jsonlFile a' = jsonlFile agent_in_terminal ∧
    (needsTerminal (provider agent_in_terminal) = true →
     terminalRef a' = terminalRef agent_in_terminal) ∧
    transient_empty a'.
Proof.
  intros ags.
  assert (H1 : workspaceAgents persisted_registry = persistAgents ags) by reflexivity.
  assert (H2 : JsMap.wf ags) by by_evaluation.
  assert (H3 : ∀ k a, (k, a) ∈ ags → agent_id a = k).
  { intros k a Hin. apply list_elem_of_singleton in Hin.
    injection Hin as -> ->. reflexivity. }
  assert (H4 : (4, agent_in_terminal) ∈ ags) by in_list.
  assert (H5 : terminal_alive sample_terminals agent_in_terminal).
  { intros _. exists {| terminal_name := str "Codex #3" |}.
    split; [reflexivity |]. split; [reflexivity | in_list]. }
  split; [exact H1 |]. split; [exact H2 |]. split; [exact H3 |].
  split; [exact H4 |]. split; [exact H5 |].
  exact (persist_restore_round_trip sample_fs sample_terminals 100
           persisted_registry ags 4 agent_in_terminal H1 H2 H3 H4 H5).
Defined.

Lemma restart_registry_ok : registry_ok restart_registry.
Proof.
  split_and!.
  - apply NoDup_nil_2.
  - intros k a Hin. by apply elem_of_nil in Hin.
  - intros k Hin. by apply elem_of_nil in Hin.
Qed.

Lemma restore_drops_closed_terminals_witness :
  let r' := (restoreAgents sample_fs [] 100 restart_registry).1 in
  registry_ok restart_registry ∧
  JsMap.get 4 (agents restart_registry) = None ∧
  (∀ q, q ∈ workspaceAgents restart_registry → PersistedAgent.id q = 4 →
        ¬ restorable [] q) ∧
  JsMap.get 4 (agents r') = None ∧
  (workspaceAgents restart_registry ≠ [] →
   4 ∉ PersistedAgent.id <$> workspaceAgents r').
Proof.
  intros r'.
  assert (H1 : JsMap.get 4 (agents restart_registry) = None) by reflexivity.
  assert (H2 : ∀ q, q ∈ workspaceAgents restart_registry →
                    PersistedAgent.id q = 4 → ¬ restorable [] q).
  { intros q Hin Hid Hq. simpl in Hin.
    rewrite !elem_of_cons, elem_of_nil in Hin.
    destruct Hin as [-> | [-> | []]]; [| discriminate Hid].
    destruct (Hq eq_refl) as [t Ht]. discriminate Ht. }
  split; [exact restart_registry_ok |]. split; [exact H1 |]. split; [exact H2 |].
  exact (restore_drops_closed_terminals sample_fs [] 100 restart_registry 4
           restart_registry_ok H1 H2).
Defined.

Lemma restored_names_are_not_reused_witness :
  let r' := (restoreAgents sample_fs sample_terminals 100 restart_registry).1 in
  safe_numbers restart_registry = true ∧
  persisted_codex ∈ workspaceAgents restart_registry ∧
  restorable sample_terminals persisted_codex ∧
  PersistedAgent.id persisted_codex < nextAgentId r' ∧
  nextAgentId restart_registry ≤ nextAgentId r' ≤ MAX_SAFE_INTEGER + 1 ∧
  nextTerminalIndex restart_registry ≤ nextTerminalIndex r'
    ≤ MAX_SAFE_INTEGER + 1 ∧
  terminal_title (str "Codex") (nextTerminalIndex r')
  ≠ PersistedAgent.terminalName persisted_codex.
Proof.
  intros r'.
  assert (H1 : persisted_codex ∈ workspaceAgents restart_registry)
    by (simpl; in_list).
  assert (H2 : restorable sample_terminals persisted_codex).
  { intros _. vm_compute. eauto. }
  assert (H0 : safe_numbers restart_registry = true)
    by (vm_compute; reflexivity).
  split; [exact H0 |]. split; [exact H1 |]. split; [exact H2 |].
  exact (restored_names_are_not_reused sample_fs sample_terminals 100
           restart_registry persisted_codex (str "Codex") H0 H1 H2).
Defined.




Lemma status_replay_is_exact_witness :
  let ags := agents sample_registry in
  let sent := sendCurrentAgentStatuses ags (Some 1) in
  JsMap.wf ags ∧
  (∀ id a, (id, a) ∈ ags → JsMap.wf (activeToolStatuses a)) ∧
  sendCurrentAgentStatuses ags None = [] ∧
  NoDup sent ∧
  (∀ m, m ∈ sent ↔
     ∃ id a, (id, a) ∈ ags ∧
       ((∃ toolId status,
           (toolId, status) ∈ activeToolStatuses a ∧
           m = agentToolStart id toolId status) ∨
        (isWaiting a = true ∧ m = agentStatus id waiting))) ∧
  length sent
  = sum_list_with
      (λ e, length (activeToolStatuses e.2) + (if isWaiting e.2 then 1 else 0))%nat
      ags.
Proof.
  intros ags sent.
  assert (H1 : JsMap.wf ags) by by_evaluation.
  assert (H2 : ∀ id a, (id, a) ∈ ags → JsMap.wf (activeToolStatuses a)).
  { intros id a Hin. subst ags. simpl in Hin.
    rewrite !elem_of_cons, elem_of_nil in Hin.
    destruct Hin as [[= -> ->] | [[= -> ->] | []]]; by_evaluation. }
  split; [exact H1 |]. split; [exact H2 |].
  exact (status_replay_is_exact ags 1 H1 H2).
Defined.

Lemma missed_tool_start_is_replayed_witness :
  let detached := processLine Codex sample_env 1 line_ExecCommandBegin_a1
                    (new_agent 1 codex) {| webview := None |} in
  let attached := processLine Codex sample_env 1 line_ExecCommandBegin_a1
                    (new_agent 1 codex) {| webview := Some 1 |} in
  tool_start Codex line_ExecCommandBegin_a1 ∧
  typed_line line_ExecCommandBegin_a1 = true ∧
  detached.1 = attached.1 ∧
  posted detached.2 = [] ∧
  ∃ toolId status,
    posted attached.2 = [agentStatus 1 active; agentToolStart 1 toolId status] ∧
    agentToolStart 1 toolId status
      ∈ sendCurrentAgentStatuses [(1, detached.1)] (Some 1).
Proof.
  intros detached attached.
  assert (H1 : tool_start Codex line_ExecCommandBegin_a1)
    by (vm_compute; reflexivity).
  assert (Ht : typed_line line_ExecCommandBegin_a1 = true)
    by (vm_compute; reflexivity).
  split; [exact H1 |]. split; [exact Ht |].
  exact (missed_tool_start_is_replayed Codex sample_env 1 line_ExecCommandBegin_a1
           (new_agent 1 codex) 1 H1 Ht).
Defined.

Lemma replay_at_turn_boundaries_witness :
  turn_end Codex line_TurnEnded ∧
  keyset_consistent agent_running_a1 ∧
  sendCurrentAgentStatuses
    [(1, (processLine Codex sample_env 1 line_TurnEnded agent_running_a1
            attached).1)] (Some 1)
  = [agentStatus 1 waiting] ∧
  ∀ a0, transient_empty a0 → sendCurrentAgentStatuses [(1, a0)] (Some 1) = [].
Proof.
  assert (H1 : turn_end Codex line_TurnEnded) by (vm_compute; reflexivity).
  assert (H2 : keyset_consistent agent_running_a1)
    by (split; intros k; reflexivity).
  split; [exact H1 |]. split; [exact H2 |].
  exact (replay_at_turn_boundaries Codex sample_env 1 line_TurnEnded
           agent_running_a1 attached 1 H1 H2).
Defined.

End MoreSamples.
